(** * train.py: the training controller

    A shallow embedding of [train.py]: the helpers [set_progress],
    [train_step] and [evaluate], and the training section of
    [__main__] (from "# Train" to the last [print]).

    The model, the problem, the optimizer and the learning-rate module
    live in other files; they are collaborators here, given through the
    class [Collaborators].  Every use of a collaborator is written to a
    call log, and so is every [print], so that what the controller does
    can be read off a run. *)

From Stdlib Require Import String ZArith List Bool Lia SpecFloat.
From Stdlib Require DecimalString.
Import ListNotations.
Open Scope Z_scope.

(** ** Python floats

    A Python [float] is an IEEE 754 binary64 number.  [spec_float] with
    [prec = 53] and [emax = 1024] is that format; [<], [>] and [==]
    are the IEEE comparisons, false as soon as one side is a NaN. *)
Module PyFloat.

Definition float := spec_float.
Definition prec := 53.
Definition emax := 1024.

Definition add (x y : float) : float := SFadd prec emax x y.
Definition div (x y : float) : float := SFdiv prec emax x y.

(** [float(z)] for a Python int [z]: the nearest binary64. *)
Definition of_int (z : Z) : float := binary_normalize prec emax z 0 false.

Definition lt (x y : float) : bool := SFltb x y.
Definition gt (x y : float) : bool := SFltb y x.
Definition eq (x y : float) : bool := SFeqb x y.

(** The order as propositions, for statements. *)
Definition Lt (x y : float) : Prop := SFcompare x y = Some Datatypes.Lt.
Definition Gt (x y : float) : Prop := SFcompare y x = Some Datatypes.Lt.
Definition Eq (x y : float) : Prop := SFcompare x y = Some Datatypes.Eq.
(** [x >= y] *)
Definition Ge (x y : float) : Prop :=
  SFcompare x y = Some Datatypes.Gt \/ SFcompare x y = Some Datatypes.Eq.

Definition zero : float := S754_zero false.

(** [math.isfinite]: neither a NaN nor an infinity. *)
Definition is_finite (x : float) : bool :=
  match x with
  | S754_zero _ | S754_finite _ _ _ => true
  | S754_infinity _ | S754_nan => false
  end.

End PyFloat.
Import PyFloat.

(** ** Exceptions and results *)

Inductive Exn :=
| ZeroDivisionError
| ValueError
| AssertionError
| NameError
| OverflowError
| CollaboratorError.

Inductive Res (A : Type) :=
| Ok (a : A)
| Err (e : Exn).
Arguments Ok {A} a.
Arguments Err {A} e.

(** [a % b] on Python ints: the sign follows the divisor, as [Z.modulo]
    does; a zero divisor raises. *)
Definition py_mod (a b : Z) : Res Z :=
  if b =? 0 then Err ZeroDivisionError else Ok (a mod b).

(** [range(n)] *)
Definition range (n : Z) : list Z := map Z.of_nat (seq 0 (Z.to_nat n)).

(** ** Run configuration: the fields of [args] the training section reads *)
Record Args := mkArgs {
  args_epochs : Z;
  args_batch_size : Z;
  args_lr_schedule : string;
  args_tolerance : Z;
  args_log_interval : Z
}.

Definition is_cosine (args : Args) : bool :=
  String.eqb (args_lr_schedule args) "cosine".

(** ** Cosine period bookkeeping: [Ti], [mult], [Tcur] *)
Record Cyclic := mkCyclic {
  Ti : Z;
  mult : Z;
  Tcur : Z
}.

(** [Ti = 1; mult = 2; Tcur = 0] *)
Definition cyclic_init : Cyclic := {| Ti := 1; mult := 2; Tcur := 0 |}.

Definition restart (c : Cyclic) : Cyclic :=
  {| Ti := Ti c * mult c; mult := mult c; Tcur := 0 |}.

Definition advance (c : Cyclic) : Cyclic :=
  {| Ti := Ti c; mult := mult c; Tcur := Tcur c + 1 |}.

(** "update learning rate for cosine annealing":
    [if Tcur % Ti == 0 and Tcur > 0: Ti *= mult; Tcur = 0
     else: Tcur += 1] *)
Definition cosine_update (c : Cyclic) : Res Cyclic :=
  match py_mod (Tcur c) (Ti c) with
  | Err e => Err e
  | Ok r => if (r =? 0) && (Tcur c >? 0) then Ok (restart c) else Ok (advance c)
  end.

(** The period state at the start of epoch [n] (0-based), [n] updates
    after [c]. *)
Fixpoint cyclic_after (n : nat) (c : Cyclic) : Res Cyclic :=
  match n with
  | O => Ok c
  | S k =>
      match cosine_update c with
      | Ok c1 => cyclic_after k c1
      | Err e => Err e
      end
  end.

(** Does the update at the end of epoch [n] restart? *)
Definition restarts_at (n : nat) : bool :=
  match cyclic_after n cyclic_init with
  | Ok c => (Tcur c mod Ti c =? 0) && (Tcur c >? 0)
  | Err _ => false
  end.

(** The epochs below [n] at whose end a restart happens, in order. *)
Definition restart_epochs (n : nat) : list nat := filter restarts_at (seq 0 n).

(** The first epoch of the period of length [2^k]. *)
Definition period_start (k : nat) : nat := (2 ^ k + k - 1)%nat.

(** The [mode] strings handed to [problem.iterate] and [evaluate]. *)
Inductive Mode := train | val | test.

(** ** Collaborators

    [World] is everything the collaborators own: the model's
    parameters and mode, the optimizer's state, the random generators.
    Each operation may change it and may raise. *)
Class Collaborators := {
  Ids : Type;
  Targets : Type;
  Preds : Type;
  Weights : Type;
  Loss : Type;
  Row : Type;
  Metric : Type;
  World : Type;
  (** [problem.iterate(mode=, shuffle=, batch_size=)]: the batches
      [(ids, targets, epoch_progress)] one call yields, in order, fixed
      when the iteration starts *)
  problem_iterate :
    Mode -> bool -> Z -> World -> Res (list (Ids * Targets * float)) * World;
  (** [model(ids, train=)] *)
  model : Ids -> bool -> World -> Res (Preds * option Weights) * World;
  model_train : World -> Res unit * World;
  model_eval : World -> Res unit * World;
  (** [problem.loss_fn(preds, targets)], [loss.item()], [loss.backward()] *)
  problem_loss_fn : Preds -> Targets -> World -> Res Loss * World;
  item : Loss -> float;
  backward : Loss -> World -> Res unit * World;
  optimizer_zero_grad : World -> Res unit * World;
  optimizer_step : World -> Res unit * World;
  (** [LRSchedule.set_lr(optimizer, lr)] *)
  LRSchedule_set_lr : float -> World -> Res unit * World;
  (** [lr_scheduler(x)] and [lr_scheduler(x, epochs=Ti)] *)
  lr_scheduler : float -> option Z -> float;
  (** [problem.metric_fn(y_true, y_pred)] and [metric['accuracy']] *)
  problem_metric_fn : list Row -> list Row -> World -> Res Metric * World;
  accuracy : Metric -> float;
  squeeze : Targets -> Targets;
  to_numpy_preds : Preds -> list Row;
  to_numpy_targets : Targets -> list Row;
  (** [time() - start_time], read off the clock of the world *)
  elapsed : World -> float;
  (** [ujson], imported as [json]: the text of an int, of a finite
      double at [double_precision=5], of a metric as [metric_fn]
      returned it, and of a dict whose values are written already.
      The encoder raises on an int or a metric it cannot write. *)
  json_int : Z -> Res string;
  json_double : float -> string;
  json_metric : Metric -> Res string;
  json_dict : list (string * string) -> string
}.

Section Train.

Context {C : Collaborators}.

(** A two-dimensional numpy array, as its rows. *)
Definition Array := list Row.

Definition Batch : Type := Ids * Targets * float.

(** ** [json.dumps]

    The values that the dicts handed to [json.dumps] hold: an int, a
    float, or a metric. *)
Inductive Json :=
| JInt (z : Z)
| JFloat (x : float)
| JMetric (m : Metric).

(** The text of one value.  A NaN or an infinity raises
    [OverflowError]. *)
Definition json_value (v : Json) : Res string :=
  match v with
  | JInt z => json_int z
  | JFloat x => if is_finite x then Ok (json_double x) else Err OverflowError
  | JMetric m => json_metric m
  end.

(** The values of a dict are written in the order of its keys, up to
    the first one that raises. *)
Fixpoint json_items (d : list (string * Json))
  : Res (list (string * string)) :=
  match d with
  | [] => Ok []
  | (k, v) :: rest =>
      match json_value v with
      | Err e => Err e
      | Ok text =>
          match json_items rest with
          | Err e => Err e
          | Ok texts => Ok ((k, text) :: texts)
          end
      end
  end.

(** [json.dumps(d, double_precision=5)] *)
Definition json_dumps (d : list (string * Json)) : Res string :=
  match json_items d with
  | Err e => Err e
  | Ok texts => Ok (json_dict texts)
  end.

(** The dict of the per-epoch record. *)
Definition train_record (epoch : Z) (time train_loss : float)
  : list (string * Json) :=
  [("epoch"%string, JInt epoch);
   ("time"%string, JFloat time);
   ("train_loss"%string, JFloat train_loss)].

(** The dict that becomes [best_result]. *)
Definition snapshot (epoch : Z) (loss : float)
                    (val_metric test_metric : Metric)
  : list (string * Json) :=
  [("epoch"%string, JInt epoch);
   ("val_loss"%string, JFloat loss);
   ("val_metric"%string, JMetric val_metric);
   ("test_metric"%string, JMetric test_metric)].

(** The dict of the record of an evaluation round: the same four
    items, then the count. *)
Definition eval_record (epoch : Z) (loss : float)
                       (val_metric test_metric : Metric) (tolerance : Z)
  : list (string * Json) :=
  snapshot epoch loss val_metric test_metric
  ++ [("tolerance:"%string, JInt tolerance)].

(** What is printed.  A record is named by the values of the dict
    whose text is printed, the elapsed time of the per-epoch record
    left out; the best result is the text itself. *)
Inductive Output :=
| PrintLearningRate (lr : float)
| PrintTrain (epoch : Z) (train_loss : float)
| PrintEval (epoch : Z) (val_loss : float) (val_metric test_metric : Metric)
            (tolerance : Z)
| PrintDone
| PrintBest (best_result : option string).

Inductive Call :=
| CallIterate (mode : Mode) (shuffle : bool) (batch_size : Z)
| CallModel (ids : Ids) (train_flag : bool)
| CallModelTrain
| CallModelEval
| CallLossFn (preds : Preds) (targets : Targets)
| CallBackward (loss : Loss)
| CallZeroGrad
| CallStep
| CallSetLr (lr : float)
(** [lr_scheduler(progress)] *)
| CallLrScheduler (progress : float)
(** [lr_scheduler(Tcur + epoch_progress, epochs=Ti)] *)
| CallLrSchedulerAt (Tcur : Z) (epoch_progress : float) (Ti : Z)
| CallMetricFn (y_true y_pred : Array)
| CallPrint (o : Output).

(** ** The monad: collaborator state, exceptions, call log *)

Definition M (A : Type) : Type := World -> Res A * World * list Call.

Definition ret {A} (a : A) : M A := fun w => (Ok a, w, []).

Definition raise {A} (e : Exn) : M A := fun w => (Err e, w, []).

Definition bind {A B} (m : M A) (f : A -> M B) : M B :=
  fun w =>
    match m w with
    | (Ok a, w1, l1) =>
        match f a w1 with
        | (r, w2, l2) => (r, w2, l1 ++ l2)
        end
    | (Err e, w1, l1) => (Err e, w1, l1)
    end.

Definition call {A} (c : Call) (op : World -> Res A * World) : M A :=
  fun w => let (r, w1) := op w in (r, w1, [c]).

Definition print (o : Output) : M unit := fun w => (Ok tt, w, [CallPrint o]).

Definition lift {A} (r : Res A) : M A := fun w => (r, w, []).

(** [print(json.dumps(d, double_precision=5))], with [o] for what is
    printed: nothing is, when [json.dumps] raises. *)
Definition print_json (d : list (string * Json)) (o : Output) : M unit :=
  bind (lift (json_dumps d)) (fun _ => print o).

Notation "x <- m ;; k" := (bind m (fun x => k))
  (at level 61, m at next level, right associativity).
Notation "' p <- m ;; k" := (bind m (fun x => let p := x in k))
  (at level 61, p pattern, m at next level, right associativity).
Notation "m ;; k" := (bind m (fun _ => k))
  (at level 61, right associativity).

(** [for x in xs: s = body(s, x)] *)
Fixpoint for_each {A S} (body : S -> A -> M S) (xs : list A) (s : S) : M S :=
  match xs with
  | [] => ret s
  | x :: rest => s1 <- body s x ;; for_each body rest s1
  end.

(** [np.vstack]: the rows of all the arrays; an empty sequence of
    arrays raises [ValueError]. *)
Definition np_vstack (arrays : list Array) : M Array :=
  match arrays with
  | [] => raise ValueError
  | _ => ret (concat arrays)
  end.

(** ** Helpers *)

(** [set_progress(optimizer, lr_scheduler, progress)] *)
Definition set_progress (progress : float) : M unit :=
  lr <- call (CallLrScheduler progress)
             (fun w => (Ok (lr_scheduler progress None), w)) ;;
  call (CallSetLr lr) (LRSchedule_set_lr lr).

(** [train_step(model, optimizer, ids, targets, loss_fn)].  The
    attention weights are only averaged for a commented-out print. *)
Definition train_step (ids : Ids) (targets : Targets) : M (Loss * Preds) :=
  call CallZeroGrad optimizer_zero_grad ;;
  ' (preds, _) <- call (CallModel ids true) (model ids true) ;;
  loss <- call (CallLossFn preds (squeeze targets))
               (problem_loss_fn preds (squeeze targets)) ;;
  call (CallBackward loss) (backward loss) ;;
  call CallStep optimizer_step ;;
  ret (loss, preds).

(** The body of the loop of [evaluate], on [(loss, preds, acts)]. *)
Definition evaluate_batch (acc : float * list Array * list Array) (b : Batch)
  : M (float * list Array * list Array) :=
  let '(loss, preds, acts) := acc in
  let '(ids, targets, _) := b in
  ' (pred, _) <- call (CallModel ids false) (model ids false) ;;
  l <- call (CallLossFn pred (squeeze targets))
            (problem_loss_fn pred (squeeze targets)) ;;
  ret (add loss (item l),
       preds ++ [to_numpy_preds pred],
       acts ++ [to_numpy_targets targets]).

(** [evaluate(model, problem, batch_size, loss_fn, mode)]; [loss_fn] is
    [problem.loss_fn] at both call sites.  [loss] starts as the int
    [0], and [0 + x] is the float [0.0 + x]. *)
Definition evaluate (batch_size : Z) (mode : Mode) : M (float * Metric) :=
  match mode with
  | train => raise AssertionError
  | _ =>
      batches <- call (CallIterate mode false batch_size)
                      (problem_iterate mode false batch_size) ;;
      ' (loss, preds, acts) <- for_each evaluate_batch batches (zero, [], []) ;;
      y_true <- np_vstack acts ;;
      y_pred <- np_vstack preds ;;
      metric <- call (CallMetricFn y_true y_pred)
                     (problem_metric_fn y_true y_pred) ;;
      ret (loss, metric)
  end.

(** ** The training section of [__main__] *)

Variable args : Args.

Record RunState := mkRunState {
  tolerance : Z;
  best_val_loss : float;
  best_val_acc : float;
  (** [None], or the text [json.dumps] returned *)
  best_result : option string;
  (** [Ti], [mult], [Tcur]: bound only under the cosine schedule *)
  cyclic : option Cyclic
}.

(** [tolerance = 0; best_val_loss = 100000; best_val_acc = 0;
    best_result = None], and the period under the cosine schedule.
    The two ints compare with floats as the floats of the same
    value. *)
Definition init_state : RunState :=
  {| tolerance := 0;
     best_val_loss := of_int 100000;
     best_val_acc := of_int 0;
     best_result := None;
     cyclic := if is_cosine args then Some cyclic_init else None |}.

(** The learning rate of one training batch. *)
Definition set_batch_lr (epoch : Z) (st : RunState) (epoch_progress : float)
  : M unit :=
  if is_cosine args then
    match cyclic st with
    | None => raise NameError
    | Some c =>
        let x := add (of_int (Tcur c)) epoch_progress in
        lr <- call (CallLrSchedulerAt (Tcur c) epoch_progress (Ti c))
                   (fun w => (Ok (lr_scheduler x (Some (Ti c))), w)) ;;
        call (CallSetLr lr) (LRSchedule_set_lr lr) ;;
        print (PrintLearningRate lr)
    end
  else
    set_progress (div (add (of_int epoch) epoch_progress)
                      (of_int (args_epochs args))).

(** The body of the loop over the training batches, on [train_loss]. *)
Definition train_batch (epoch : Z) (st : RunState) (train_loss : float)
                       (b : Batch) : M float :=
  let '(ids, targets, epoch_progress) := b in
  set_batch_lr epoch st epoch_progress ;;
  ' (loss, preds) <- train_step ids targets ;;
  _ <- call (CallMetricFn (to_numpy_targets targets) (to_numpy_preds preds))
            (problem_metric_fn (to_numpy_targets targets)
                               (to_numpy_preds preds)) ;;
  ret (add train_loss (item loss)).

(** The period bookkeeping at the end of an epoch. *)
Definition update_cyclic (st : RunState) : M RunState :=
  if is_cosine args then
    match cyclic st with
    | None => raise NameError
    | Some c =>
        c1 <- lift (cosine_update c) ;;
        ret {| tolerance := tolerance st;
               best_val_loss := best_val_loss st;
               best_val_acc := best_val_acc st;
               best_result := best_result st;
               cyclic := Some c1 |}
    end
  else ret st.

(** [val_metric['accuracy'] > best_val_acc or
     (val_metric['accuracy'] == best_val_acc and loss < best_val_loss)] *)
Definition improved (loss : float) (val_metric : Metric) (st : RunState)
  : bool :=
  gt (accuracy val_metric) (best_val_acc st)
  || (eq (accuracy val_metric) (best_val_acc st)
      && lt loss (best_val_loss st)).

(** The two branches of the improvement check, each as what it
    raises, if it does, and the variables it leaves.  The first one
    assigns [tolerance], [best_val_loss] and [best_val_acc], then
    [best_result] unless [json.dumps] raises. *)
Definition replace_best (epoch : Z) (loss : float)
                        (val_metric test_metric : Metric) (st : RunState)
  : Res unit * RunState :=
  match json_dumps (snapshot epoch loss val_metric test_metric) with
  | Ok text =>
      (Ok tt,
       {| tolerance := 0;
          best_val_loss := loss;
          best_val_acc := accuracy val_metric;
          best_result := Some text;
          cyclic := cyclic st |})
  | Err e =>
      (Err e,
       {| tolerance := 0;
          best_val_loss := loss;
          best_val_acc := accuracy val_metric;
          best_result := best_result st;
          cyclic := cyclic st |})
  end.

Definition keep_best (st : RunState) : RunState :=
  {| tolerance := tolerance st + 1;
     best_val_loss := best_val_loss st;
     best_val_acc := best_val_acc st;
     best_result := best_result st;
     cyclic := cyclic st |}.

(** [if val_metric['accuracy'] > best_val_acc or ...: ... else: ...] *)
Definition improvement_check (epoch : Z) (loss : float)
                             (val_metric test_metric : Metric)
                             (st : RunState)
  : Res unit * RunState :=
  if improved loss val_metric st
  then replace_best epoch loss val_metric test_metric st
  else (Ok tt, keep_best st).

(** The variables after the improvement check. *)
Definition update_best (epoch : Z) (loss : float)
                       (val_metric test_metric : Metric) (st : RunState)
  : RunState :=
  snd (improvement_check epoch loss val_metric test_metric st).

(** A block of the script on its variables: an exception of the block
    ends the run, and the variables with it. *)
Definition run_block (x : Res unit * RunState) : M RunState :=
  match fst x with
  | Ok _ => ret (snd x)
  | Err e => raise e
  end.

(** The block under [if epoch % args.log_interval == 0]. *)
Definition evaluation_round (epoch : Z) (st : RunState) : M RunState :=
  call CallModelEval model_eval ;;
  ' (loss, val_metric) <- evaluate (args_batch_size args) val ;;
  ' (_, test_metric) <- evaluate (args_batch_size args) test ;;
  st1 <- run_block (improvement_check epoch loss val_metric test_metric st) ;;
  print_json (eval_record epoch loss val_metric test_metric (tolerance st1))
             (PrintEval epoch loss val_metric test_metric (tolerance st1)) ;;
  ret st1.

(** [print(json.dumps({"epoch": epoch, "time": time() - start_time,
    "train_loss": train_loss}, double_precision=5))] *)
Definition print_train_record (epoch : Z) (train_loss : float) : M unit :=
  fun w =>
    print_json (train_record epoch (elapsed w) train_loss)
               (PrintTrain epoch train_loss) w.

(** The "# Train" part of an epoch, up to the period bookkeeping. *)
Definition train_epoch (epoch : Z) (st : RunState) : M RunState :=
  call CallModelTrain model_train ;;
  batches <- call (CallIterate train true (args_batch_size args))
                  (problem_iterate train true (args_batch_size args)) ;;
  train_loss <- for_each (train_batch epoch st) batches zero ;;
  print_train_record epoch train_loss ;;
  update_cyclic st.

(** One epoch, after the early-stopping check. *)
Definition epoch_body (epoch : Z) (st : RunState) : M RunState :=
  st1 <- train_epoch epoch st ;;
  r <- lift (py_mod epoch (args_log_interval args)) ;;
  if r =? 0 then evaluation_round epoch st1 else ret st1.

(** [for epoch in range(args.epochs):
       if tolerance > args.tolerance: break
       ...] *)
Fixpoint epoch_loop (epochs : list Z) (st : RunState) : M RunState :=
  match epochs with
  | [] => ret st
  | epoch :: rest =>
      if tolerance st >? args_tolerance args then ret st
      else st1 <- epoch_body epoch st ;; epoch_loop rest st1
  end.

Definition train_loop : M RunState :=
  epoch_loop (range (args_epochs args)) init_state.

(** From "# Train" to the end of the file. *)
Definition main : M unit :=
  st <- train_loop ;;
  print PrintDone ;;
  print (PrintBest (best_result st)).

(** ** Notions the statements use *)

(** The improvement rule in words: a greater accuracy, or an equal
    accuracy and a smaller loss. *)
Definition Improves (loss : float) (val_metric : Metric) (st : RunState)
  : Prop :=
  Gt (accuracy val_metric) (best_val_acc st)
  \/ (Eq (accuracy val_metric) (best_val_acc st)
      /\ Lt loss (best_val_loss st)).

(** [json.dumps] returns on the dict [d], and [b] is the text. *)
Definition Written (d : list (string * Json)) (b : option string) : Prop :=
  exists text, json_dumps d = Ok text /\ b = Some text.

(** [st1] holds the new result as the best one, with the count reset:
    the best result is the text of the snapshot of the round. *)
Definition Replaced (epoch : Z) (loss : float)
                    (val_metric test_metric : Metric) (st1 : RunState)
  : Prop :=
  Written (snapshot epoch loss val_metric test_metric) (best_result st1)
  /\ best_val_acc st1 = accuracy val_metric
  /\ best_val_loss st1 = loss
  /\ tolerance st1 = 0.

(** [st1] holds the best result of [st], with the count one higher. *)
Definition Kept (st st1 : RunState) : Prop :=
  best_result st1 = best_result st
  /\ best_val_acc st1 = best_val_acc st
  /\ best_val_loss st1 = best_val_loss st
  /\ tolerance st1 = tolerance st + 1.

(** Neither the best result nor the count differ. *)
Definition Unchanged (st st1 : RunState) : Prop :=
  best_result st1 = best_result st
  /\ best_val_acc st1 = best_val_acc st
  /\ best_val_loss st1 = best_val_loss st
  /\ tolerance st1 = tolerance st.

(** The evaluation rounds of a run, as printed:
    [(epoch, val_loss, val_metric, test_metric, tolerance)]. *)
Definition EvalRecord : Type := Z * float * Metric * Metric * Z.

Fixpoint eval_records (log : list Call) : list EvalRecord :=
  match log with
  | [] => []
  | CallPrint (PrintEval e l vm tm t) :: rest =>
      (e, l, vm, tm, t) :: eval_records rest
  | _ :: rest => eval_records rest
  end.

Definition record_improves (r : EvalRecord) (st : RunState) : bool :=
  let '(_, l, vm, _, _) := r in improved l vm st.

Definition apply_round (st : RunState) (r : EvalRecord) : RunState :=
  let '(e, l, vm, tm, _) := r in update_best e l vm tm st.

(** The best result after the rounds [rs], starting from [st]. *)
Definition replay (rs : list EvalRecord) (st : RunState) : RunState :=
  fold_left apply_round rs st.

(** The number of rounds of [rs] after the last improving one, [n]
    more when none improves. *)
Fixpoint rounds_since_improvement (rs : list EvalRecord) (st : RunState)
                                  (n : nat) : nat :=
  match rs with
  | [] => n
  | r :: rest =>
      rounds_since_improvement rest (apply_round st r)
        (if record_improves r st then O else S n)
  end.

Definition is_model_train (c : Call) : bool :=
  match c with CallModelTrain => true | _ => false end.

(** The number of epochs a run has started training. *)
Definition epochs_trained (log : list Call) : nat :=
  length (filter is_model_train log).

(** A call that takes part in a gradient step or changes the model's
    mode or the learning rate. *)
Definition is_training_call (c : Call) : bool :=
  match c with
  | CallZeroGrad | CallBackward _ | CallStep | CallSetLr _
  | CallModelTrain | CallModel _ true => true
  | _ => false
  end.

(** The calls an evaluation pass may make. *)
Definition is_evaluate_call (c : Call) : bool :=
  match c with
  | CallIterate _ false _ | CallModel _ false | CallLossFn _ _
  | CallMetricFn _ _ => true
  | _ => false
  end.

(** The calls of the loop of [evaluate] for the batch [b], when the
    model answers [pred]. *)
Definition batch_calls (bp : Batch * Preds) : list Call :=
  let '((ids, targets, _), pred) := bp in
  [CallModel ids false; CallLossFn pred (squeeze targets)].

Definition batch_targets (b : Batch) : Targets := snd (fst b).

(** A call of the evaluation block: [model.eval()], an iteration of
    the validation or the test split, the print of the round. *)
Definition is_evaluation_call (c : Call) : bool :=
  match c with
  | CallModelEval | CallIterate val _ _ | CallIterate test _ _
  | CallPrint (PrintEval _ _ _ _ _) => true
  | _ => false
  end.

(** A learning rate asked for at a period position is asked for at
    the position and the length that [st] holds. *)
Definition lr_at (st : RunState) (c : Call) : Prop :=
  match c with
  | CallLrSchedulerAt t _ T =>
      exists c0, cyclic st = Some c0 /\ t = Tcur c0 /\ T = Ti c0
  | _ => True
  end.

(** The calls of the training part of an epoch entered with [st],
    after [model.train()]. *)
Definition TrainCall (st : RunState) (c : Call) : Prop :=
  is_evaluation_call c = false /\ is_model_train c = false /\ lr_at st c.

(** The period state moves by one update under the cosine schedule,
    and is not there otherwise. *)
Definition CyclicStep (st st1 : RunState) : Prop :=
  if is_cosine args then
    exists c c1,
      cyclic st = Some c /\ cosine_update c = Ok c1 /\ cyclic st1 = Some c1
  else cyclic st1 = cyclic st.

(** The period position is within the period, its end included. *)
Definition CyclicInv (st : RunState) : Prop :=
  match cyclic st with
  | Some c => 0 <= Tcur c <= Ti c /\ 1 <= Ti c /\ mult c = 2
  | None => True
  end.

(** Every learning rate asked for at a period position is asked for
    at a position from [0] to the period length. *)
Definition position_in_period (c : Call) : Prop :=
  match c with
  | CallLrSchedulerAt t _ T => 0 <= t <= T
  | _ => True
  end.

(** The same with the period length left out. *)
Definition position_below_period (c : Call) : Prop :=
  match c with
  | CallLrSchedulerAt t _ T => 0 <= t < T
  | _ => True
  end.

(** The pairs [(Tcur, Ti)] at which a run asks for a learning rate. *)
Fixpoint lr_positions (log : list Call) : list (Z * Z) :=
  match log with
  | [] => []
  | CallLrSchedulerAt t _ T :: rest => (t, T) :: lr_positions rest
  | _ :: rest => lr_positions rest
  end.

(** A round with accuracy [0] and a validation loss of [100000] or
    more. *)
Definition at_sentinel (r : EvalRecord) : Prop :=
  let '(_, loss, vm, _, _) := r in
  Eq (accuracy vm) (of_int 0) /\ Ge loss (of_int 100000).

(** [json.dumps] returned on the dict of the round [r]. *)
Definition Printable (r : EvalRecord) : Prop :=
  let '(e, loss, vm, tm, t) := r in
  exists text, json_dumps (eval_record e loss vm tm t) = Ok text.

(** A record is printed only once [json.dumps] returned on its dict. *)
Definition Dumped (c : Call) : Prop :=
  match c with
  | CallPrint (PrintTrain e x) =>
      exists time text, json_dumps (train_record e time x) = Ok text
  | CallPrint (PrintEval e loss vm tm t) => Printable (e, loss, vm, tm, t)
  | _ => True
  end.

(** The loss of the round [r] is neither a NaN nor an infinity. *)
Definition finite_loss (r : EvalRecord) : Prop :=
  let '(_, loss, _, _, _) := r in is_finite loss = true.

(** An evaluation pass over [batches] from the world [w]: the model
    answers [ps] and the loss function [ls], batch after batch, each
    call in the world the one before left, down to [w1]. *)
Fixpoint pass_results (batches : list Batch) (w : World)
                      (ps : list Preds) (ls : list Loss) (w1 : World)
  : Prop :=
  match batches, ps, ls with
  | [], [], [] => w1 = w
  | (ids, targets, _) :: batches1, p :: ps1, l :: ls1 =>
      exists wts wa wb,
        model ids false w = (Ok (p, wts), wa)
        /\ problem_loss_fn p (squeeze targets) wa = (Ok l, wb)
        /\ pass_results batches1 wb ps1 ls1 w1
  | _, _, _ => False
  end.

(** A learning rate asked for at a period position is asked for at
    the end of the period of length [2^k]: [Tcur = Ti = 2^k]. *)
Definition at_period_end (k : nat) (c : Call) : Prop :=
  match c with
  | CallLrSchedulerAt t _ T => t = Z.of_nat (2 ^ k) /\ T = Z.of_nat (2 ^ k)
  | _ => True
  end.

(** Every call a computation logs satisfies [P], whatever it returns. *)
Definition logs (P : Call -> Prop) {A} (m : M A) : Prop :=
  forall w r w' l, m w = (r, w', l) -> Forall P l.

(** A collaborator operation that returns. *)
Definition succeeds {A} (x : Res A * World) : Prop :=
  exists a w, x = (Ok a, w).

End Train.

(** ** Scripted collaborators

    The scripted encoder writes an int in decimal and a finite double
    exactly, as its mantissa and its binary exponent; a metric is one
    double, its accuracy, and raises as a double does. *)
Definition scripted_int_text (z : Z) : string :=
  DecimalString.NilZero.string_of_int (Z.to_int z).

Definition scripted_double_text (x : float) : string :=
  match x with
  | S754_finite s m e =>
      ((if s then "-" else "") ++ scripted_int_text (Zpos m)
       ++ "p" ++ scripted_int_text e)%string
  | S754_zero s => if s then "-0.0"%string else "0.0"%string
  | S754_infinity s => if s then "-Infinity"%string else "Infinity"%string
  | S754_nan => "NaN"%string
  end.

Definition scripted_metric_text (m : float) : Res string :=
  if is_finite m then Ok (scripted_double_text m) else Err OverflowError.

Definition scripted_dict_text (items : list (string * string)) : string :=
  let quote := String (Ascii.ascii_of_nat 34) EmptyString in
  ("{"
   ++ String.concat ","
        (map (fun kv => quote ++ fst kv ++ quote ++ ":" ++ snd kv) items)
   ++ "}")%string.

(** A problem with one batch per split and a model whose validation
    accuracy and loss in evaluation round [n] are the [n]-th pair of
    [script].  The world counts the calls of [model.eval()]. *)
Definition scripted (script : list (float * float)) : Collaborators :=
  {| Ids := unit; Targets := unit; Preds := unit; Weights := unit;
     Loss := float; Row := unit; Metric := float; World := nat;
     problem_iterate := fun _ _ _ w => (Ok [(tt, tt, zero)], w);
     model := fun _ _ w => (Ok (tt, None), w);
     model_train := fun w => (Ok tt, w);
     model_eval := fun w => (Ok tt, S w);
     problem_loss_fn := fun _ _ w => (Ok (snd (nth (pred w) script (zero, zero))), w);
     item := fun l => l;
     backward := fun _ w => (Ok tt, w);
     optimizer_zero_grad := fun w => (Ok tt, w);
     optimizer_step := fun w => (Ok tt, w);
     LRSchedule_set_lr := fun _ w => (Ok tt, w);
     lr_scheduler := fun x _ => x;
     problem_metric_fn := fun _ _ w => (Ok (fst (nth (pred w) script (zero, zero))), w);
     accuracy := fun m => m;
     squeeze := fun t => t;
     to_numpy_preds := fun _ => [tt];
     to_numpy_targets := fun _ => [tt];
     elapsed := fun _ => zero;
     json_int := fun z => Ok (scripted_int_text z);
     json_double := scripted_double_text;
     json_metric := scripted_metric_text;
     json_dict := scripted_dict_text |}.

(** The float literal [n/d], as Python reads it. *)
Definition lit (n d : Z) : float := div (of_int n) (of_int d).

(** Validation accuracies [0.5, 0.6, 0.6, 0.6] with losses
    [1.0, 0.8, 0.8, 0.9], for at most five epochs with a tolerance of
    one, evaluated every epoch under the cosine schedule. *)
Definition scenario_script : list (float * float) :=
  [(lit 5 10, lit 10 10); (lit 6 10, lit 8 10);
   (lit 6 10, lit 8 10); (lit 6 10, lit 9 10)].

Definition scenario_args : Args :=
  {| args_epochs := 5; args_batch_size := 4; args_lr_schedule := "cosine";
     args_tolerance := 1; args_log_interval := 1 |}.

(** Two rounds with accuracy [0.0] and losses [100000.0] and
    [200000.0], under the constant schedule. *)
Definition flat_script : list (float * float) :=
  [(of_int 0, of_int 100000); (of_int 0, of_int 200000)].

Definition flat_args : Args :=
  {| args_epochs := 2; args_batch_size := 4; args_lr_schedule := "constant";
     args_tolerance := 5; args_log_interval := 1 |}.

(** A best result of accuracy [0.80] and loss [0.50], three rounds
    old. *)
Definition tie_state : RunState :=
  {| tolerance := 3;
     best_val_loss := lit 50 100;
     best_val_acc := lit 80 100;
     best_result :=
       match json_dumps (C := scripted [])
               (snapshot (C := scripted []) 2 (lit 50 100) (lit 80 100)
                         (lit 75 100)) with
       | Ok text => Some text
       | Err _ => None
       end;
     cyclic := None |}.

(** A collaborator set whose second evaluation round has a better
    accuracy and a loss that is not a number. *)
Definition nan_script : list (float * float) :=
  [(lit 5 10, lit 10 10); (lit 6 10, S754_nan)].

(** ** Startup: [parse_args] and the metapath schemes *)

(** What [parser.parse_args()] returns, and [cuda], which [parse_args]
    adds. *)
Record Namespace := mkNamespace {
  ns_problem_path : string;
  ns_problem : string;
  ns_no_cuda : bool;
  ns_batch_size : Z;
  ns_epochs : Z;
  ns_lr_init : float;
  ns_lr_schedule : string;
  ns_weight_decay : float;
  ns_dropout : float;
  ns_batchnorm : bool;
  ns_tolerance : Z;
  ns_attn_dropout : float;
  ns_sampler_class : string;
  ns_aggregator_class : string;
  ns_prep_class : string;
  ns_mpaggr_class : string;
  ns_edgeupt_class : string;
  ns_concat_node : bool;
  ns_concat_edge : bool;
  ns_prep_len : Z;
  ns_n_head : Z;
  ns_n_train_samples : string;
  ns_n_val_samples : string;
  ns_output_dims : string;
  ns_log_interval : Z;
  ns_seed : Z;
  ns_show_test : bool;
  ns_cuda : option bool
}.

(** The defaults of the parser. *)
Definition default_namespace : Namespace :=
  {| ns_problem_path := "data/freebase/";
     ns_problem := "freebase";
     ns_no_cuda := false;
     ns_batch_size := 16;
     ns_epochs := 10000;
     ns_lr_init := lit 1 10000;
     ns_lr_schedule := "constant";
     ns_weight_decay := lit 5 10000;
     ns_dropout := lit 5 10;
     ns_batchnorm := false;
     ns_tolerance := 100;
     ns_attn_dropout := lit 3 10;
     ns_sampler_class := "sparse_uniform_neighbor_sampler";
     ns_aggregator_class := "attention2";
     ns_prep_class := "node_embedding";
     ns_mpaggr_class := "gate";
     ns_edgeupt_class := "identity";
     ns_concat_node := false;
     ns_concat_edge := false;
     ns_prep_len := 32;
     ns_n_head := 8;
     ns_n_train_samples := "100,60";
     ns_n_val_samples := "100,60";
     ns_output_dims := "64,16";
     ns_log_interval := 1;
     ns_seed := 0;
     ns_show_test := false;
     ns_cuda := None |}.

(** [args.cuda = not args.no_cuda] *)
Definition set_cuda (ns : Namespace) : Namespace :=
  {| ns_problem_path := ns_problem_path ns;
     ns_problem := ns_problem ns;
     ns_no_cuda := ns_no_cuda ns;
     ns_batch_size := ns_batch_size ns;
     ns_epochs := ns_epochs ns;
     ns_lr_init := ns_lr_init ns;
     ns_lr_schedule := ns_lr_schedule ns;
     ns_weight_decay := ns_weight_decay ns;
     ns_dropout := ns_dropout ns;
     ns_batchnorm := ns_batchnorm ns;
     ns_tolerance := ns_tolerance ns;
     ns_attn_dropout := ns_attn_dropout ns;
     ns_sampler_class := ns_sampler_class ns;
     ns_aggregator_class := ns_aggregator_class ns;
     ns_prep_class := ns_prep_class ns;
     ns_mpaggr_class := ns_mpaggr_class ns;
     ns_edgeupt_class := ns_edgeupt_class ns;
     ns_concat_node := ns_concat_node ns;
     ns_concat_edge := ns_concat_edge ns;
     ns_prep_len := ns_prep_len ns;
     ns_n_head := ns_n_head ns;
     ns_n_train_samples := ns_n_train_samples ns;
     ns_n_val_samples := ns_n_val_samples ns;
     ns_output_dims := ns_output_dims ns;
     ns_log_interval := ns_log_interval ns;
     ns_seed := ns_seed ns;
     ns_show_test := ns_show_test ns;
     ns_cuda := Some (negb (ns_no_cuda ns)) |}.

(** [key in d.keys()] *)
Definition in_keys (key : string) (keys : list string) : bool :=
  existsb (String.eqb key) keys.

(** The part of [parse_args] after [parser.parse_args()], whose result
    is [ns]; [prep_keys] and [aggregator_keys] are the keys of
    [prep_lookup] and [aggregator_lookup], tables of another file. *)
Definition parse_args (prep_keys aggregator_keys : list string)
                      (ns : Namespace) : Res Namespace :=
  let args := set_cuda ns in
  if negb (in_keys (ns_prep_class args) prep_keys) then Err AssertionError
  else if negb (in_keys (ns_aggregator_class args) aggregator_keys)
  then Err AssertionError
  else if negb (ns_batch_size args >? 1) then Err AssertionError
  else Ok args.

(** The fields of [args] that the training section reads. *)
Definition args_of (ns : Namespace) : Args :=
  {| args_epochs := ns_epochs ns;
     args_batch_size := ns_batch_size ns;
     args_lr_schedule := ns_lr_schedule ns;
     args_tolerance := ns_tolerance ns;
     args_log_interval := ns_log_interval ns |}.

(** [mp_index] *)
Definition mp_index : list (string * list string) :=
  [("dblp", ["APA"; "APAPA"; "APCPA"]);
   ("yelp", ["BRURB"; "BRKRB"]);
   ("yago", ["MAM"; "MDM"; "MWM"])]%string.

(** [d[key]] on a dict given by its items; [None] is [KeyError]. *)
Fixpoint dict_get {V} (d : list (string * V)) (key : string) : option V :=
  match d with
  | [] => None
  | (k, v) :: rest => if String.eqb key k then Some v else dict_get rest key
  end.

(** [schemes = mp_index[args.problem]] *)
Definition schemes_of (ns : Namespace) : option (list string) :=
  dict_get mp_index (ns_problem ns).

(** ** Startup: the configuration of the model *)

(** The separator of the three lists, a comma. *)
Definition comma : Ascii.ascii :=
  Ascii.Ascii false false true true false true false false.

(** [s.split(sep)] for a separator of one character. *)
Fixpoint split_on (sep : Ascii.ascii) (s : string) : list string :=
  match s with
  | EmptyString => [EmptyString]
  | String c rest =>
      if Ascii.eqb c sep then EmptyString :: split_on sep rest
      else match split_on sep rest with
           | h :: t => String c h :: t
           | [] => [String c EmptyString]
           end
  end.

(** What the lines that configure the model can raise: [KeyError] from
    a lookup table, [ValueError] from [int], [IndexError] from
    [[0]]. *)
Inductive StartupError := KeyError | IntValueError | IndexError.

Section ModelConfiguration.

(** The classes the lookup tables hold, and [int] on strings ([None]
    when it raises [ValueError]). *)
Variable Cls : Type.
Variable py_int : string -> option Z.

(** The five lookup tables of [nn_modules], as their items. *)
Record Lookups := mkLookups {
  sampler_lookup : list (string * Cls);
  prep_lookup : list (string * Cls);
  aggregator_lookup : list (string * Cls);
  metapath_aggregator_lookup : list (string * Cls);
  edge_aggregator_lookup : list (string * Cls)
}.

(** One entry of ["layer_specs"]; the activation is always [F.relu]. *)
Record LayerSpec := mkLayerSpec {
  ls_n_train_samples : Z;
  ls_n_val_samples : Z;
  ls_output_dim : Z;
  ls_concat_node : bool;
  ls_concat_edge : bool
}.

(** The keyword arguments of [HINGCN_GS], but ["problem"]. *)
Record ModelConfig := mkModelConfig {
  mc_n_mp : nat;
  mc_sampler_class : Cls;
  mc_prep_class : Cls;
  mc_prep_len : Z;
  mc_aggregator_class : Cls;
  mc_mpaggr_class : Cls;
  mc_edgeupt_class : Cls;
  mc_n_head : Z;
  mc_layer_specs : list LayerSpec;
  mc_dropout : float;
  mc_batchnorm : bool;
  mc_attn_dropout : float
}.

(** [list(map(int, xs))] *)
Fixpoint int_list (xs : list string) : StartupError + list Z :=
  match xs with
  | [] => inr []
  | x :: rest =>
      match py_int x with
      | None => inl IntValueError
      | Some z =>
          match int_list rest with
          | inl e => inl e
          | inr zs => inr (z :: zs)
          end
      end
  end.

(** [table[key]] *)
Definition lookup (table : list (string * Cls)) (key : string)
  : StartupError + Cls :=
  match dict_get table key with
  | Some c => inr c
  | None => inl KeyError
  end.

(** [xs[0]] *)
Definition index0 (xs : list Z) : StartupError + Z :=
  match xs with
  | [] => inl IndexError
  | x :: _ => inr x
  end.

Definition and_then {A B} (x : StartupError + A)
                    (f : A -> StartupError + B) : StartupError + B :=
  match x with
  | inl e => inl e
  | inr a => f a
  end.

(** From [n_train_samples = ...] to the arguments of [HINGCN_GS], in
    the order the code evaluates them. *)
Definition model_config (tables : Lookups) (ns : Namespace)
                        (schemes : list string)
  : StartupError + ModelConfig :=
  and_then (int_list (split_on comma (ns_n_train_samples ns)))
    (fun n_train_samples =>
  and_then (int_list (split_on comma (ns_n_val_samples ns)))
    (fun n_val_samples =>
  and_then (int_list (split_on comma (ns_output_dims ns)))
    (fun output_dims =>
  and_then (lookup (sampler_lookup tables) (ns_sampler_class ns))
    (fun sampler =>
  and_then (lookup (prep_lookup tables) (ns_prep_class ns))
    (fun prep =>
  and_then (lookup (aggregator_lookup tables) (ns_aggregator_class ns))
    (fun aggregator =>
  and_then (lookup (metapath_aggregator_lookup tables) (ns_mpaggr_class ns))
    (fun mpaggr =>
  and_then (lookup (edge_aggregator_lookup tables) (ns_edgeupt_class ns))
    (fun edgeupt =>
  and_then (index0 n_train_samples) (fun n_train =>
  and_then (index0 n_val_samples) (fun n_val =>
  and_then (index0 output_dims) (fun output_dim =>
  inr {| mc_n_mp := length schemes;
         mc_sampler_class := sampler;
         mc_prep_class := prep;
         mc_prep_len := ns_prep_len ns;
         mc_aggregator_class := aggregator;
         mc_mpaggr_class := mpaggr;
         mc_edgeupt_class := edgeupt;
         mc_n_head := ns_n_head ns;
         mc_layer_specs :=
           [ {| ls_n_train_samples := n_train;
                ls_n_val_samples := n_val;
                ls_output_dim := output_dim;
                ls_concat_node := ns_concat_node ns;
                ls_concat_edge := ns_concat_edge ns |} ];
         mc_dropout := ns_dropout ns;
         mc_batchnorm := ns_batchnorm ns;
         mc_attn_dropout := ns_attn_dropout ns |}))))))))))).

(** The keys of a table. *)
Definition keys (table : list (string * Cls)) : list string :=
  map fst table.

(** Every part of [s] between commas is an integer for [int]. *)
Definition all_ints (s : string) : Prop :=
  Forall (fun x => py_int x <> None) (split_on comma s).

End ModelConfiguration.

Arguments sampler_lookup {Cls} _.
Arguments prep_lookup {Cls} _.
Arguments aggregator_lookup {Cls} _.
Arguments metapath_aggregator_lookup {Cls} _.
Arguments edge_aggregator_lookup {Cls} _.
Arguments mc_n_mp {Cls} _.
Arguments mc_sampler_class {Cls} _.
Arguments mc_prep_class {Cls} _.
Arguments mc_prep_len {Cls} _.
Arguments mc_aggregator_class {Cls} _.
Arguments mc_mpaggr_class {Cls} _.
Arguments mc_edgeupt_class {Cls} _.
Arguments mc_n_head {Cls} _.
Arguments mc_layer_specs {Cls} _.
Arguments mc_dropout {Cls} _.
Arguments mc_batchnorm {Cls} _.
Arguments mc_attn_dropout {Cls} _.
Arguments lookup {Cls} _ _.
Arguments model_config {Cls} _ _ _ _.
Arguments keys {Cls} _.

(** [int] on the decimal strings the scripted configuration needs. *)
Definition scripted_int (s : string) : option Z :=
  if String.eqb s "100" then Some 100
  else if String.eqb s "60" then Some 60
  else if String.eqb s "64" then Some 64
  else if String.eqb s "16" then Some 16
  else None.

(** Tables with the default classes only, the classes being their
    names. *)
Definition scripted_tables : Lookups string :=
  {| sampler_lookup :=
       [("sparse_uniform_neighbor_sampler", "sampler")]%string;
     prep_lookup := [("node_embedding", "prep")]%string;
     aggregator_lookup := [("attention2", "aggregator")]%string;
     metapath_aggregator_lookup := [("gate", "mpaggr")]%string;
     edge_aggregator_lookup := [("identity", "edgeupt")]%string |}.

(** A namespace with everything at its default but the problem,
    [yelp]. *)
Definition yelp_namespace : Namespace :=
  {| ns_problem_path := "data/yelp/";
     ns_problem := "yelp";
     ns_no_cuda := true;
     ns_batch_size := 16;
     ns_epochs := 10000;
     ns_lr_init := lit 1 10000;
     ns_lr_schedule := "constant";
     ns_weight_decay := lit 5 10000;
     ns_dropout := lit 5 10;
     ns_batchnorm := false;
     ns_tolerance := 100;
     ns_attn_dropout := lit 3 10;
     ns_sampler_class := "sparse_uniform_neighbor_sampler";
     ns_aggregator_class := "attention2";
     ns_prep_class := "node_embedding";
     ns_mpaggr_class := "gate";
     ns_edgeupt_class := "identity";
     ns_concat_node := false;
     ns_concat_edge := false;
     ns_prep_len := 32;
     ns_n_head := 8;
     ns_n_train_samples := "100,60";
     ns_n_val_samples := "100,60";
     ns_output_dims := "64,16";
     ns_log_interval := 1;
     ns_seed := 0;
     ns_show_test := false;
     ns_cuda := None |}.

(** The scripted collaborators with a metric function that raises. *)
Definition scripted_no_metric : Collaborators :=
  {| Ids := unit; Targets := unit; Preds := unit; Weights := unit;
     Loss := float; Row := unit; Metric := float; World := nat;
     problem_iterate := fun _ _ _ w => (Ok [(tt, tt, zero)], w);
     model := fun _ _ w => (Ok (tt, None), w);
     model_train := fun w => (Ok tt, w);
     model_eval := fun w => (Ok tt, S w);
     problem_loss_fn := fun _ _ w => (Ok zero, w);
     item := fun l => l;
     backward := fun _ w => (Ok tt, w);
     optimizer_zero_grad := fun w => (Ok tt, w);
     optimizer_step := fun w => (Ok tt, w);
     LRSchedule_set_lr := fun _ w => (Ok tt, w);
     lr_scheduler := fun x _ => x;
     problem_metric_fn := fun _ _ w => (Err CollaboratorError, w);
     accuracy := fun m => m;
     squeeze := fun t => t;
     to_numpy_preds := fun _ => [tt];
     to_numpy_targets := fun _ => [tt];
     elapsed := fun _ => zero;
     json_int := fun z => Ok (scripted_int_text z);
     json_double := scripted_double_text;
     json_metric := scripted_metric_text;
     json_dict := scripted_dict_text |}.

(** The scenario with [--log-interval 0], and with no epoch. *)
Definition zero_interval_args : Args :=
  {| args_epochs := 5; args_batch_size := 4; args_lr_schedule := "cosine";
     args_tolerance := 1; args_log_interval := 0 |}.

Definition no_epoch_args : Args :=
  {| args_epochs := 0; args_batch_size := 4; args_lr_schedule := "cosine";
     args_tolerance := 1; args_log_interval := 1 |}.

(** ** The order of the floats

    A float that is not a NaN, as a triple of integers ordered
    lexicographically. *)
Definition float_key (x : float) : option (Z * Z * Z) :=
  match x with
  | S754_nan => None
  | S754_infinity true => Some (-2, 0, 0)
  | S754_finite true m e => Some (-1, - e, - Zpos m)
  | S754_zero _ => Some (0, 0, 0)
  | S754_finite false m e => Some (1, e, Zpos m)
  | S754_infinity false => Some (2, 0, 0)
  end.

Definition key_lt (a b : Z * Z * Z) : Prop :=
  let '(a1, a2, a3) := a in
  let '(b1, b2, b3) := b in
  a1 < b1 \/ (a1 = b1 /\ (a2 < b2 \/ (a2 = b2 /\ a3 < b3))).

(** ** The calls of a training epoch *)

Section TrainCalls.

Context {C : Collaborators}.
Variable args : Args.

(** The calls of [train_step] when every one returns. *)
Definition step_calls (ids : Ids) (targets : Targets) (preds : Preds)
                      (loss : Loss) : list Call :=
  [CallZeroGrad; CallModel ids true; CallLossFn preds (squeeze targets);
   CallBackward loss; CallStep].

(** The calls that set the learning rate of a batch. *)
Definition lr_calls (epoch : Z) (st : RunState) (epoch_progress : float)
  : list Call :=
  if is_cosine args then
    match cyclic st with
    | None => []
    | Some c =>
        let lr := lr_scheduler (add (of_int (Tcur c)) epoch_progress)
                               (Some (Ti c)) in
        [CallLrSchedulerAt (Tcur c) epoch_progress (Ti c); CallSetLr lr;
         CallPrint (PrintLearningRate lr)]
    end
  else
    let x := div (add (of_int epoch) epoch_progress)
                 (of_int (args_epochs args)) in
    [CallLrScheduler x; CallSetLr (lr_scheduler x None)].

(** The calls of one training batch, when the model answers [preds]
    and the loss is [loss]. *)
Definition train_batch_calls (epoch : Z) (st : RunState)
                             (x : Batch * (Preds * Loss)) : list Call :=
  let '((ids, targets, epoch_progress), (preds, loss)) := x in
  lr_calls epoch st epoch_progress
  ++ step_calls ids targets preds loss
  ++ [CallMetricFn (to_numpy_targets targets) (to_numpy_preds preds)].

Definition is_step (c : Call) : bool :=
  match c with CallStep => true | _ => false end.

(** The number of calls of [optimizer.step()]. *)
Definition optimizer_steps (log : list Call) : nat :=
  length (filter is_step log).

(** The per-epoch records of a run, as printed: [(epoch, train_loss)]. *)
Fixpoint train_records (log : list Call) : list (Z * float) :=
  match log with
  | [] => []
  | CallPrint (PrintTrain e l) :: rest => (e, l) :: train_records rest
  | _ :: rest => train_records rest
  end.

Definition record_epoch (r : EvalRecord) : Z :=
  let '(e, _, _, _, _) := r in e.

Definition record_count (r : EvalRecord) : Z :=
  let '(_, _, _, _, t) := r in t.

(** After each round of [rs], the number of rounds since the last
    improving one, that round included; [n] rounds came before. *)
Fixpoint running_counts (rs : list EvalRecord) (st : RunState) (n : nat)
  : list Z :=
  match rs with
  | [] => []
  | r :: rest =>
      let n1 := if record_improves r st then O else S n in
      Z.of_nat n1 :: running_counts rest (apply_round st r) n1
  end.

(** What the epoch loop may call: the training split shuffled, the
    other splits in order, always in batches of [args.batch_size]; the
    scheduler at a period position, with the learning rate printed,
    under the cosine schedule only, and at the progress of the run
    under the other schedules only; none of the two prints that end
    the run. *)
Definition LoopCall (c : Call) : Prop :=
  match c with
  | CallIterate train shuffle n =>
      shuffle = true /\ n = args_batch_size args
  | CallIterate _ shuffle n =>
      shuffle = false /\ n = args_batch_size args
  | CallLrScheduler _ => is_cosine args = false
  | CallLrSchedulerAt _ _ _ | CallPrint (PrintLearningRate _) =>
      is_cosine args = true
  | CallPrint PrintDone | CallPrint (PrintBest _) => False
  | _ => True
  end.

(** The calls of the training part of an epoch. *)
Definition is_train_part_call (c : Call) : bool :=
  match c with
  | CallModelTrain | CallSetLr _ | CallZeroGrad | CallModel _ true
  | CallLossFn _ _ | CallBackward _ | CallStep | CallMetricFn _ _
  | CallPrint (PrintTrain _ _) => true
  | CallLrScheduler _ => negb (is_cosine args)
  | CallLrSchedulerAt _ _ _ | CallPrint (PrintLearningRate _) =>
      is_cosine args
  | CallIterate train true n => n =? args_batch_size args
  | _ => false
  end.

(** The calls of the evaluation block of an epoch. *)
Definition is_evaluation_part_call (c : Call) : bool :=
  match c with
  | CallModelEval | CallModel _ false | CallLossFn _ _ | CallMetricFn _ _
  | CallPrint (PrintEval _ _ _ _ _) => true
  | CallIterate val false n | CallIterate test false n =>
      n =? args_batch_size args
  | _ => false
  end.

(** The three variables of the best result agree: the best result is
    the text of the snapshot of one of the rounds [rs], printed with a
    count of [0], and the best accuracy and loss are the accuracy and
    the loss of that round, as they were compared. *)
Definition BestConsistent (st : RunState) (rs : list EvalRecord) : Prop :=
  match best_result st with
  | None =>
      best_val_acc st = of_int 0 /\ best_val_loss st = of_int 100000
  | Some text =>
      exists epoch loss vm tm,
        json_dumps (snapshot epoch loss vm tm) = Ok text
        /\ best_val_acc st = accuracy vm
        /\ best_val_loss st = loss
        /\ In (epoch, loss, vm, tm, 0) rs
  end.

(** The round [r] is not better than what [st] holds: its accuracy is
    not greater, and with an equal accuracy its loss is not smaller. *)
Definition NotBetter (st : RunState) (r : EvalRecord) : Prop :=
  let '(_, loss, vm, _, _) := r in
  ~ Gt (accuracy vm) (best_val_acc st)
  /\ (Eq (accuracy vm) (best_val_acc st) -> ~ Lt loss (best_val_loss st)).

End TrainCalls.

(** ** Facts on float comparisons *)

Lemma lt_iff (x y : float) : lt x y = true <-> Lt x y.
Proof.
  unfold lt, Lt, SFltb.
  destruct (SFcompare x y) as [[ | | ] | ]; split; intro H;
    try reflexivity; discriminate H.
Qed.

Lemma gt_iff (x y : float) : gt x y = true <-> Gt x y.
Proof. unfold gt, Gt. apply (lt_iff y x). Qed.

Lemma eq_iff (x y : float) : eq x y = true <-> Eq x y.
Proof.
  unfold eq, Eq, SFeqb.
  destruct (SFcompare x y) as [[ | | ] | ]; split; intro H;
    try reflexivity; discriminate H.
Qed.

Lemma SFcompare_antisym (x y : float) :
  SFcompare y x = option_map CompOpp (SFcompare x y).
Proof.
  destruct x as [sx | sx | | sx mx ex], y as [sy | sy | | sy my ey];
    try reflexivity;
    try (destruct sx; reflexivity);
    try (destruct sy; reflexivity);
    try (destruct sx, sy; reflexivity).
  simpl. destruct sx, sy; try reflexivity;
    rewrite (Z.compare_antisym ey ex);
    destruct (ey ?= ex); simpl; try reflexivity;
    change (Pos.compare_cont Datatypes.Eq my mx) with (Pos.compare my mx);
    change (Pos.compare_cont Datatypes.Eq mx my) with (Pos.compare mx my);
    rewrite (Pos.compare_antisym my mx);
    rewrite ?CompOpp_involutive; reflexivity.
Qed.

Lemma Eq_not_Gt (x y : float) : Eq x y -> ~ Gt x y.
Proof.
  unfold Eq, Gt. intros H G.
  rewrite SFcompare_antisym, H in G. discriminate G.
Qed.

Lemma Eq_not_Lt (x y : float) : Eq x y -> ~ Lt x y.
Proof. unfold Eq, Lt. intros H G. rewrite H in G. discriminate G. Qed.

Lemma Ge_not_Lt (x y : float) : Ge x y -> ~ Lt x y.
Proof.
  unfold Ge, Lt. intros [H | H] G; rewrite H in G; discriminate G.
Qed.

Lemma Gt_not_Eq (x y : float) : Gt x y -> ~ Eq x y.
Proof. intros G H. exact (Eq_not_Gt x y H G). Qed.

(** ** Facts on the period bookkeeping *)

Lemma cosine_update_spec (c : Cyclic) :
  Ti c <> 0 ->
  cosine_update c =
  Ok (if (Tcur c mod Ti c =? 0) && (Tcur c >? 0) then restart c else advance c).
Proof.
  intro H. unfold cosine_update, py_mod.
  destruct (Z.eqb_spec (Ti c) 0) as [E | _]; [contradiction | ].
  destruct ((Tcur c mod Ti c =? 0) && (Tcur c >? 0)); reflexivity.
Qed.

Lemma cyclic_after_add (n m : nat) (c c1 : Cyclic) :
  cyclic_after n c = Ok c1 ->
  cyclic_after (n + m) c = cyclic_after m c1.
Proof.
  revert c. induction n as [ | n IH]; intros c H; simpl in *.
  - injection H as ->. reflexivity.
  - destruct (cosine_update c) as [c2 | e]; [ | discriminate H].
    apply IH. exact H.
Qed.

(** Within a period of length [p] that started at [Tcur = 0], the
    counter climbs to [p] with no restart. *)
Lemma cyclic_after_climb (p : Z) (j : nat) :
  1 <= p -> Z.of_nat j <= p ->
  cyclic_after j (mkCyclic p 2 0) = Ok (mkCyclic p 2 (Z.of_nat j)).
Proof.
  intros Hp. induction j as [ | j IH]; intro Hj.
  - reflexivity.
  - replace (S j) with (j + 1)%nat by lia.
    rewrite (cyclic_after_add j 1 _ _ (IH ltac:(lia))).
    simpl. rewrite cosine_update_spec by (simpl; lia). simpl.
    assert (E : (Z.of_nat j mod p =? 0) && (Z.of_nat j >? 0) = false).
    { destruct (Z.eq_dec (Z.of_nat j) 0) as [Z0 | NZ].
      - rewrite Z0. rewrite andb_false_r. reflexivity.
      - rewrite Z.mod_small by lia.
        destruct (Z.eqb_spec (Z.of_nat j) 0); [contradiction | reflexivity]. }
    rewrite E. unfold advance. simpl. do 2 f_equal. lia.
Qed.

(** At [Tcur = Ti] the update restarts. *)
Lemma cosine_update_full (p : Z) :
  1 <= p ->
  cosine_update (mkCyclic p 2 p) = Ok (mkCyclic (p * 2) 2 0).
Proof.
  intro Hp. rewrite cosine_update_spec by (simpl; lia). simpl.
  rewrite Z.mod_same by lia. simpl.
  destruct (Z.gtb_spec p 0); [reflexivity | lia].
Qed.

Lemma period_start_succ (k : nat) :
  period_start (S k) = (period_start k + 2 ^ k + 1)%nat.
Proof.
  unfold period_start. simpl.
  assert (1 <= 2 ^ k)%nat.
  { clear. induction k; simpl; lia. }
  lia.
Qed.

Lemma cyclic_after_period_start (k : nat) :
  cyclic_after (period_start k) cyclic_init
  = Ok (mkCyclic (Z.of_nat (2 ^ k)) 2 0).
Proof.
  induction k as [ | k IH].
  - reflexivity.
  - rewrite period_start_succ.
    assert (P : (1 <= 2 ^ k)%nat) by (clear; induction k; simpl; lia).
    rewrite <- Nat.add_assoc.
    rewrite (cyclic_after_add _ _ _ _ IH).
    rewrite (cyclic_after_add (2 ^ k) 1 _ _
               (cyclic_after_climb (Z.of_nat (2 ^ k)) (2 ^ k)
                  ltac:(lia) ltac:(lia))).
    simpl cyclic_after at 1.
    rewrite cosine_update_full by lia.
    do 2 f_equal. simpl. lia.
Qed.

Lemma cyclic_after_in_period (k j : nat) :
  (j <= 2 ^ k)%nat ->
  cyclic_after (period_start k + j) cyclic_init
  = Ok (mkCyclic (Z.of_nat (2 ^ k)) 2 (Z.of_nat j)).
Proof.
  intro Hj.
  rewrite (cyclic_after_add _ _ _ _ (cyclic_after_period_start k)).
  assert (P : (1 <= 2 ^ k)%nat) by (clear; induction k; simpl; lia).
  apply cyclic_after_climb; lia.
Qed.

(** ** Reasoning on the monad *)

Section MonadFacts.

Context {C : Collaborators}.

Lemma bind_inv {A B} (m : M A) (f : A -> M B) w r w' l :
  bind m f w = (r, w', l) ->
  (exists a w1 l1 l2,
      m w = (Ok a, w1, l1) /\ f a w1 = (r, w', l2) /\ l = l1 ++ l2)
  \/ (exists e, m w = (Err e, w', l) /\ r = Err e).
Proof.
  unfold bind. intro H.
  destruct (m w) as [[[a | e] w1] l1].
  - destruct (f a w1) as [[r2 w2] l2] eqn:F.
    injection H as <- <- <-. left. exists a, w1, l1, l2. auto.
  - injection H as <- <- <-. right. exists e. auto.
Qed.

Lemma bind_ok {A B} (m : M A) (f : A -> M B) w b w' l :
  bind m f w = (Ok b, w', l) ->
  exists a w1 l1 l2,
    m w = (Ok a, w1, l1) /\ f a w1 = (Ok b, w', l2) /\ l = l1 ++ l2.
Proof.
  intro H. destruct (bind_inv _ _ _ _ _ _ H) as [H1 | [e [_ H1]]].
  - exact H1.
  - discriminate H1.
Qed.

Lemma bind_eq_ok {A B} (m : M A) (f : A -> M B) w a w1 l1 r w2 l2 :
  m w = (Ok a, w1, l1) -> f a w1 = (r, w2, l2) ->
  bind m f w = (r, w2, l1 ++ l2).
Proof. intros H1 H2. unfold bind. rewrite H1, H2. reflexivity. Qed.

Lemma call_inv {A} (c : Call) (op : World -> Res A * World) w r w' l :
  call c op w = (r, w', l) -> op w = (r, w') /\ l = [c].
Proof.
  unfold call. destruct (op w) as [r1 w1]. intro H.
  injection H as <- <- <-. auto.
Qed.

Lemma logs_ret P {A} (a : A) : logs P (ret a).
Proof. intros w r w' l H. injection H as <- <- <-. constructor. Qed.

Lemma logs_raise P {A} (e : Exn) : logs P (@raise _ A e).
Proof. intros w r w' l H. injection H as <- <- <-. constructor. Qed.

Lemma logs_lift P {A} (x : Res A) : logs P (lift x).
Proof. intros w r w' l H. injection H as <- <- <-. constructor. Qed.

Lemma logs_call (P : Call -> Prop) {A} c (op : World -> Res A * World) :
  P c -> logs P (call c op).
Proof.
  intros Hc w r w' l H. apply call_inv in H. destruct H as [_ ->].
  constructor; [exact Hc | constructor].
Qed.

Lemma logs_print (P : Call -> Prop) o : P (CallPrint o) -> logs P (print o).
Proof.
  intros Hc w r w' l H. injection H as <- <- <-.
  constructor; [exact Hc | constructor].
Qed.

Lemma logs_bind P {A B} (m : M A) (f : A -> M B) :
  logs P m -> (forall a, logs P (f a)) -> logs P (bind m f).
Proof.
  intros Hm Hf w r w' l H.
  destruct (bind_inv _ _ _ _ _ _ H)
    as [(a & w1 & l1 & l2 & H1 & H2 & ->) | (e & H1 & _)].
  - apply Forall_app. split.
    + exact (Hm _ _ _ _ H1).
    + exact (Hf _ _ _ _ _ H2).
  - exact (Hm _ _ _ _ H1).
Qed.

Lemma logs_for_each P {A S} (body : S -> A -> M S) (xs : list A) :
  (forall s x, logs P (body s x)) -> forall s, logs P (for_each body xs s).
Proof.
  intro Hb. induction xs as [ | x xs IH]; intro s; simpl.
  - apply logs_ret.
  - apply logs_bind; [apply Hb | exact IH].
Qed.

Lemma logs_np_vstack P (arrays : list Array) : logs P (np_vstack arrays).
Proof.
  destruct arrays; simpl; [apply logs_raise | apply logs_ret].
Qed.

Lemma logs_weaken (P Q : Call -> Prop) {A} (m : M A) :
  (forall c, P c -> Q c) -> logs P m -> logs Q m.
Proof.
  intros PQ Hm w r w' l H.
  apply (Forall_impl Q PQ). exact (Hm _ _ _ _ H).
Qed.

(** [print_json] prints exactly when [json.dumps] returns. *)
Lemma print_json_inv (d : list (string * Json)) (o : Output) w r w1 l :
  print_json d o w = (r, w1, l) ->
  w1 = w
  /\ ((exists text,
          json_dumps d = Ok text /\ r = Ok tt /\ l = [CallPrint o])
      \/ (exists e, json_dumps d = Err e /\ r = Err e /\ l = [])).
Proof.
  unfold print_json, bind, lift, print.
  destruct (json_dumps d) as [text | e]; intro H; injection H as <- <- <-.
  - split; [reflexivity | ]. left. exists text. auto.
  - split; [reflexivity | ]. right. exists e. auto.
Qed.

Lemma logs_print_json (P : Call -> Prop) d o :
  ((exists text, json_dumps d = Ok text) -> P (CallPrint o)) ->
  logs P (print_json d o).
Proof.
  intros Hc w r w' l H.
  destruct (print_json_inv _ _ _ _ _ _ H)
    as (_ & [(text & D & _ & ->) | (e & _ & _ & ->)]).
  - constructor; [apply Hc; exists text; exact D | constructor].
  - constructor.
Qed.

Lemma logs_print_train_record (P : Call -> Prop) epoch train_loss :
  ((exists time text,
       json_dumps (train_record epoch time train_loss) = Ok text) ->
   P (CallPrint (PrintTrain epoch train_loss))) ->
  logs P (print_train_record epoch train_loss).
Proof.
  intros Hc w r w' l H. unfold print_train_record in H.
  refine (logs_print_json P _ _ _ w r w' l H).
  intros (text & D). apply Hc. exists (elapsed w), text. exact D.
Qed.

Lemma run_block_inv (x : Res unit * RunState) w r w1 l :
  run_block x w = (r, w1, l) ->
  w1 = w /\ l = []
  /\ ((fst x = Ok tt /\ r = Ok (snd x))
      \/ (exists e, fst x = Err e /\ r = Err e)).
Proof.
  unfold run_block, ret, raise. destruct (fst x) as [[] | e];
    intro H; injection H as <- <- <-.
  - auto.
  - split; [reflexivity | ]. split; [reflexivity | ].
    right. exists e. auto.
Qed.

Lemma logs_run_block P (x : Res unit * RunState) : logs P (run_block x).
Proof.
  intros w r w' l H.
  destruct (run_block_inv _ _ _ _ _ H) as (_ & -> & _). constructor.
Qed.

(** The items of a dict that [json.dumps] writes are written one by
    one: it returns on the first items of a dict it returns on. *)
Lemma json_items_app (d1 d2 : list (string * Json)) texts :
  json_items (d1 ++ d2) = Ok texts ->
  exists t1 t2,
    json_items d1 = Ok t1 /\ json_items d2 = Ok t2 /\ texts = t1 ++ t2.
Proof.
  revert texts. induction d1 as [ | [k v] d1 IH]; intros texts H.
  - exists [], texts. auto.
  - simpl in H |- *. destruct (json_value v) as [t | e]; [ | discriminate H].
    destruct (json_items (d1 ++ d2)) as [ts | e] eqn:E; [ | discriminate H].
    injection H as <-.
    destruct (IH ts eq_refl) as (t1 & t2 & E1 & E2 & ->).
    rewrite E1. exists ((k, t) :: t1), t2. auto.
Qed.

Lemma json_dumps_app (d1 d2 : list (string * Json)) text :
  json_dumps (d1 ++ d2) = Ok text ->
  exists text1, json_dumps d1 = Ok text1.
Proof.
  unfold json_dumps.
  destruct (json_items (d1 ++ d2)) as [ts | e] eqn:E; [ | discriminate].
  intros _. destruct (json_items_app _ _ _ E) as (t1 & t2 & -> & _).
  eexists. reflexivity.
Qed.

(** A float that [json.dumps] wrote is finite. *)
Lemma json_dumps_finite (d : list (string * Json)) text k x :
  json_dumps d = Ok text -> In (k, JFloat x) d -> is_finite x = true.
Proof.
  unfold json_dumps.
  destruct (json_items d) as [ts | e] eqn:E; [ | discriminate].
  intros _. revert ts E. induction d as [ | [k0 v] d IH]; intros ts E I.
  - destruct I.
  - simpl in E. destruct (json_value v) as [t | e] eqn:V; [ | discriminate E].
    destruct (json_items d) as [ts1 | e] eqn:E1; [ | discriminate E].
    destruct I as [I | I].
    + injection I as _ ->. simpl in V.
      destruct (is_finite x); [reflexivity | discriminate V].
    + exact (IH ts1 eq_refl I).
Qed.

(** A float that is not finite stops [json.dumps], with
    [OverflowError] when only ints that can be written come before. *)
Lemma json_dumps_int_float (k1 k2 : string) (z : Z) (x : float) rest t :
  json_int z = Ok t -> is_finite x = false ->
  json_dumps ((k1, JInt z) :: (k2, JFloat x) :: rest) = Err OverflowError.
Proof.
  intros Z0 F. unfold json_dumps. simpl. rewrite Z0, F. reflexivity.
Qed.

Lemma printable_snapshot e loss vm tm t :
  Printable (e, loss, vm, tm, t) ->
  exists text, json_dumps (snapshot e loss vm tm) = Ok text.
Proof.
  intros (text & D). unfold eval_record in D.
  exact (json_dumps_app _ _ _ D).
Qed.

Lemma printable_finite (r : EvalRecord) : Printable r -> finite_loss r.
Proof.
  destruct r as [[[[e loss] vm] tm] t]. intros (text & D).
  apply (json_dumps_finite _ _ "val_loss"%string loss D).
  unfold eval_record, snapshot. simpl. auto.
Qed.

End MonadFacts.


(** ** Facts on [evaluate] *)

Section EvaluateFacts.

Context {C : Collaborators}.

Lemma evaluate_batch_logs acc b :
  logs (fun c => is_evaluate_call c = true) (evaluate_batch acc b).
Proof.
  destruct acc as [[loss preds] acts], b as [[ids targets] p].
  unfold evaluate_batch.
  apply logs_bind; [apply logs_call; reflexivity | ].
  intros [pred wts].
  apply logs_bind; [apply logs_call; reflexivity | ].
  intro l. apply logs_ret.
Qed.

Lemma evaluate_logs batch_size mode :
  logs (fun c => is_evaluate_call c = true) (evaluate batch_size mode).
Proof.
  unfold evaluate.
  assert (G : forall m, m <> train ->
    logs (fun c => is_evaluate_call c = true)
      (bind (call (CallIterate m false batch_size)
                  (problem_iterate m false batch_size))
         (fun batches =>
            bind (for_each evaluate_batch batches (zero, [], []))
              (fun x => let '(loss, preds, acts) := x in
                 bind (np_vstack acts) (fun y_true =>
                 bind (np_vstack preds) (fun y_pred =>
                 bind (call (CallMetricFn y_true y_pred)
                            (problem_metric_fn y_true y_pred))
                   (fun metric => ret (loss, metric)))))))).
  { intros m _.
    apply logs_bind; [apply logs_call; reflexivity | ].
    intro batches.
    apply logs_bind.
    - apply logs_for_each. intros s x. apply evaluate_batch_logs.
    - intros [[loss preds] acts].
      apply logs_bind; [apply logs_np_vstack | ]. intro y_true.
      apply logs_bind; [apply logs_np_vstack | ]. intro y_pred.
      apply logs_bind; [apply logs_call; reflexivity | ].
      intro metric. apply logs_ret. }
  destruct mode.
  - apply logs_raise.
  - apply G. discriminate.
  - apply G. discriminate.
Qed.

(** The loop of [evaluate], when no call fails: one model call and
    one loss per batch, in the order of the batches. *)
Lemma evaluate_loop_ok (batches : list Batch) :
  forall loss0 preds0 acts0 w loss preds acts w1 l,
    for_each evaluate_batch batches (loss0, preds0, acts0) w
    = (Ok (loss, preds, acts), w1, l) ->
    exists (ps : list Preds) (ls : list Loss),
      length ps = length batches
      /\ length ls = length batches
      /\ preds = preds0 ++ map to_numpy_preds ps
      /\ acts = acts0 ++ map (fun b => to_numpy_targets (batch_targets b))
                            batches
      /\ loss = fold_left add (map item ls) loss0
      /\ l = flat_map batch_calls (combine batches ps)
      /\ pass_results batches w ps ls w1.
Proof.
  induction batches as [ | b rest IH];
    intros loss0 preds0 acts0 w loss preds acts w1 l H.
  - simpl in H. injection H as <- <- <- <- <-.
    exists [], []. simpl. rewrite !app_nil_r. auto 7.
  - simpl in H. apply bind_ok in H.
    destruct H as ([[loss1 preds1] acts1] & w2 & l1 & l2 & H1 & H2 & ->).
    destruct b as [[ids targets] p]. unfold evaluate_batch in H1.
    apply bind_ok in H1.
    destruct H1 as ([pred wts] & w3 & l3 & l4 & M1 & H1 & ->).
    apply call_inv in M1. destruct M1 as [M1 ->].
    apply bind_ok in H1.
    destruct H1 as (lo & w4 & l5 & l6 & M2 & H1 & ->).
    apply call_inv in M2. destruct M2 as [M2 ->].
    injection H1 as <- <- <- <- <-.
    apply IH in H2.
    destruct H2 as (ps & ls & Lp & Ll & -> & -> & -> & -> & R).
    exists (pred :: ps), (lo :: ls).
    split; [simpl; congruence | ].
    split; [simpl; congruence | ].
    split; [simpl; rewrite <- !app_assoc; reflexivity | ].
    split; [simpl; rewrite <- !app_assoc; reflexivity | ].
    split; [reflexivity | ].
    split; [reflexivity | ].
    exists wts, w3, w4. auto.
Qed.

End EvaluateFacts.

Section EvaluateTheorem.

Context {C : Collaborators}.
Variable args : Args.

Lemma evaluate_call_not_training (c : Call) :
  is_evaluate_call c = true -> is_training_call c = false.
Proof.
  destruct c as [m s b | ids t | | | p t | l | | | lr | x | a b e | y1 y2 | o];
    simpl; intro H; try reflexivity; try discriminate H.
  destruct t; [discriminate H | reflexivity].
Qed.

(** The loop of [evaluate] returns when the model and the loss
    function do. *)
Lemma evaluate_loop_returns (batches : list Batch) :
  (forall ids w, succeeds (model ids false w)) ->
  (forall p t w, succeeds (problem_loss_fn p t w)) ->
  forall acc w, exists acc1 w1 l,
    for_each evaluate_batch batches acc w = (Ok acc1, w1, l).
Proof.
  intros Hm Hl. induction batches as [ | b rest IH]; intros acc w.
  - exists acc, w, []. reflexivity.
  - assert (B : exists acc2 w2 l2,
               evaluate_batch acc b w = (Ok acc2, w2, l2)).
    { destruct acc as [[loss preds] acts], b as [[ids targets] p].
      unfold evaluate_batch, bind, call.
      destruct (Hm ids w) as ([pred wts] & w2 & ->).
      destruct (Hl pred (squeeze targets) w2) as (lo & w3 & ->).
      unfold ret. eexists _, _, _. reflexivity. }
    destruct B as (acc2 & w2 & l2 & B).
    destruct (IH acc2 w2) as (acc1 & w1 & l & E).
    exists acc1, w1, (l2 ++ l).
    simpl. apply (bind_eq_ok _ _ _ _ _ _ _ _ _ B E).
Qed.

Lemma evaluation_round_logs (epoch : Z) (st : RunState) :
  forall w r w1 log,
    evaluation_round args epoch st w = (r, w1, log) ->
    exists rest,
      log = CallModelEval :: rest
      /\ Forall (fun c => is_training_call c = false) rest.
Proof.
  intros w r w1 log H. unfold evaluation_round in H.
  destruct (bind_inv _ _ _ _ _ _ H)
    as [(a & w2 & l1 & l2 & H1 & H2 & ->) | (e & H1 & _)].
  - apply call_inv in H1. destruct H1 as [_ ->].
    exists l2. split; [reflexivity | ].
    cbv beta in H2.
    match type of H2 with
    | ?m w2 = _ =>
        assert (L : logs (fun c => is_training_call c = false) m)
    end.
    { apply logs_bind.
      - eapply logs_weaken; [ | apply evaluate_logs].
        exact evaluate_call_not_training.
      - intros [loss vm]. apply logs_bind.
        + eapply logs_weaken; [ | apply evaluate_logs].
          exact evaluate_call_not_training.
        + intros [l0 tm]. apply logs_bind; [apply logs_run_block | ].
          intro st1. apply logs_bind.
          * apply logs_print_json. intros _. reflexivity.
          * intro. apply logs_ret. }
    exact (L _ _ _ _ H2).
  - apply call_inv in H1. destruct H1 as [_ ->].
    exists []. split; [reflexivity | constructor].
Qed.

(** C7.  An evaluation pass calls [problem.iterate] for its split
    with [shuffle=False], calls the model with [train=False] only,
    and makes no call of a gradient step ([zero_grad], [backward],
    [step]), of [set_lr] or of [model.train()].  When it returns, the
    model was called on every batch in order and the loss function on
    its predictions and the squeezed targets of the batch, each call
    in the world the one before left; the pass returns the sum of
    these losses, added in order from zero, and the value of
    [problem.metric_fn], called once, on the stacked targets and the
    stacked predictions of all the batches.
    It returns as soon as the split has a batch and the collaborators
    return; on a split with no batch [np.vstack] raises.  In the main
    loop a round calls [model.eval()] first and
    nothing afterwards puts the model back in training mode. *)
Theorem evaluate_pass :
  forall batch_size mode w r w1 log,
    evaluate batch_size mode w = (r, w1, log) ->
    Forall (fun c => is_evaluate_call c = true) log
    /\ Forall (fun c => is_training_call c = false) log
    /\ (forall loss metric,
           r = Ok (loss, metric) ->
           exists batches w0 ps ls w2,
             problem_iterate mode false batch_size w = (Ok batches, w0)
             /\ batches <> []
             /\ pass_results batches w0 ps ls w2
             /\ length ps = length batches
             /\ length ls = length batches
             /\ loss = fold_left add (map item ls) zero
             /\ problem_metric_fn
                  (concat (map (fun b => to_numpy_targets (batch_targets b))
                               batches))
                  (concat (map to_numpy_preds ps)) w2
                = (Ok metric, w1)
             /\ log = CallIterate mode false batch_size
                        :: flat_map batch_calls (combine batches ps)
                        ++ [CallMetricFn
                              (concat (map (fun b =>
                                 to_numpy_targets (batch_targets b)) batches))
                              (concat (map to_numpy_preds ps))])
    /\ (mode <> train ->
        (forall ids w, succeeds (model ids false w)) ->
        (forall p t w, succeeds (problem_loss_fn p t w)) ->
        (forall a p w, succeeds (problem_metric_fn a p w)) ->
        forall batches w0,
          problem_iterate mode false batch_size w = (Ok batches, w0) ->
          batches <> [] ->
          exists loss metric, r = Ok (loss, metric))
    /\ (mode <> train ->
        forall w0,
          problem_iterate mode false batch_size w = (Ok [], w0) ->
          r = Err ValueError)
    /\ (forall epoch st w r w1 log,
           evaluation_round args epoch st w = (r, w1, log) ->
           exists rest,
             log = CallModelEval :: rest
             /\ Forall (fun c => is_training_call c = false) rest).
Proof.
  intros batch_size mode w r w1 log H.
  split; [exact (evaluate_logs _ _ _ _ _ _ H) | ].
  split.
  { apply (Forall_impl _ evaluate_call_not_training).
    exact (evaluate_logs _ _ _ _ _ _ H). }
  split; [ | split; [ | split;
                        [ | exact (fun e st => evaluation_round_logs e st)]]].
  3:{ intros Hmode w0 Hit.
      destruct mode; [contradiction | | ];
        unfold evaluate, bind, call in H; rewrite Hit in H; simpl in H;
        injection H as <- _ _; reflexivity. }
  - intros loss metric ->.
    assert (G : exists m, mode = m /\ m <> train).
    { destruct mode; [discriminate H | | ];
        eexists; split; try reflexivity; discriminate. }
    assert (E : evaluate batch_size mode
      = bind (call (CallIterate mode false batch_size)
                   (problem_iterate mode false batch_size))
          (fun batches =>
             bind (for_each evaluate_batch batches (zero, [], []))
               (fun x => let '(loss, preds, acts) := x in
                  bind (np_vstack acts) (fun y_true =>
                  bind (np_vstack preds) (fun y_pred =>
                  bind (call (CallMetricFn y_true y_pred)
                             (problem_metric_fn y_true y_pred))
                    (fun metric => ret (loss, metric))))))).
    { destruct G as (m & -> & Hm). destruct m; [contradiction | | ];
        reflexivity. }
    rewrite E in H. clear E G.
    apply bind_ok in H.
    destruct H as (batches & w0 & l1 & l2 & H1 & H2 & ->).
    apply call_inv in H1. destruct H1 as [H1 ->].
    apply bind_ok in H2.
    destruct H2 as ([[loss1 preds] acts] & w2 & l3 & l4 & H2 & H3 & ->).
    apply evaluate_loop_ok in H2.
    destruct H2 as (ps & ls & Lp & Ll & -> & -> & -> & -> & R).
    simpl in H3.
    destruct batches as [ | b0 rest].
    { simpl in H3. discriminate H3. }
    destruct ps as [ | p0 ps]; [discriminate Lp | ].
    cbn [map np_vstack] in H3.
    apply bind_ok in H3.
    destruct H3 as (y_true & w3 & l5 & l6 & V1 & H3 & ->).
    injection V1 as <- <- <-.
    apply bind_ok in H3.
    destruct H3 as (y_pred & w4 & l7 & l8 & V2 & H3 & ->).
    injection V2 as <- <- <-.
    apply bind_ok in H3.
    destruct H3 as (mt & w5 & l9 & l10 & V3 & H3 & ->).
    apply call_inv in V3. destruct V3 as [V3 ->].
    injection H3 as <- <- <- <-.
    exists (b0 :: rest), w0, (p0 :: ps), ls, w2.
    split; [exact H1 | ].
    split; [discriminate | ].
    split; [exact R | ].
    split; [exact Lp | ].
    split; [exact Ll | ].
    split; [reflexivity | ].
    split; [exact V3 | ].
    simpl. rewrite ?app_nil_r. reflexivity.
  - intros Hmode Hm Hl Hf batches w0 Hit Hne.
    assert (E : evaluate batch_size mode
      = bind (call (CallIterate mode false batch_size)
                   (problem_iterate mode false batch_size))
          (fun batches =>
             bind (for_each evaluate_batch batches (zero, [], []))
               (fun x => let '(loss, preds, acts) := x in
                  bind (np_vstack acts) (fun y_true =>
                  bind (np_vstack preds) (fun y_pred =>
                  bind (call (CallMetricFn y_true y_pred)
                             (problem_metric_fn y_true y_pred))
                    (fun metric => ret (loss, metric))))))).
    { destruct mode; [contradiction | | ]; reflexivity. }
    rewrite E in H. clear E.
    unfold bind at 1 in H. unfold call at 1 in H. rewrite Hit in H.
    destruct (evaluate_loop_returns batches Hm Hl (zero, [], []) w0)
      as ([[loss preds] acts] & w2 & l & Hloop).
    unfold bind at 1 in H. rewrite Hloop in H.
    destruct (evaluate_loop_ok _ _ _ _ _ _ _ _ _ _ Hloop)
      as (ps & ls & Lp & Ll & -> & -> & _ & _).
    destruct batches as [ | b0 rest]; [contradiction | ].
    destruct ps as [ | p0 ps]; [discriminate Lp | ].
    cbn [map np_vstack app] in H.
    unfold bind at 1 in H. unfold ret at 1 in H.
    unfold bind at 1 in H. unfold ret at 1 in H.
    unfold bind at 1 in H. unfold call at 1 in H.
    match type of H with
    | context [problem_metric_fn ?a ?p ?w] =>
        destruct (Hf a p w) as (mt & w5 & Hmt)
    end.
    rewrite Hmt in H. unfold ret in H.
    injection H as <- _ _. eexists _, _. reflexivity.
Qed.

End EvaluateTheorem.

(** ** Facts on one epoch *)

Section EpochFacts.

Context {C : Collaborators}.
Variable args : Args.

Lemma eval_records_app (l1 l2 : list Call) :
  eval_records (l1 ++ l2) = eval_records l1 ++ eval_records l2.
Proof.
  induction l1 as [ | c l1 IH]; [reflexivity | ].
  destruct c as [ | | | | | | | | | | | | o]; simpl; try exact IH.
  destruct o; simpl; try exact IH. rewrite IH. reflexivity.
Qed.

Lemma eval_records_none (l : list Call) :
  Forall (fun c => forall e lo vm tm t,
              c <> CallPrint (PrintEval e lo vm tm t)) l ->
  eval_records l = [].
Proof.
  induction 1 as [ | c l Hc _ IH]; [reflexivity | ].
  destruct c as [ | | | | | | | | | | | | o]; simpl; try exact IH.
  destruct o; simpl; try exact IH.
  exfalso. eapply Hc. reflexivity.
Qed.

Lemma not_evaluation_call_not_record (c : Call) :
  is_evaluation_call c = false ->
  forall e lo vm tm t, c <> CallPrint (PrintEval e lo vm tm t).
Proof. intros H e lo vm tm t ->. discriminate H. Qed.

Lemma evaluate_call_not_record (c : Call) :
  is_evaluate_call c = true ->
  forall e lo vm tm t, c <> CallPrint (PrintEval e lo vm tm t).
Proof. intros H e lo vm tm t ->. discriminate H. Qed.

Lemma epochs_trained_app (l1 l2 : list Call) :
  epochs_trained (l1 ++ l2) = (epochs_trained l1 + epochs_trained l2)%nat.
Proof.
  unfold epochs_trained. rewrite filter_app, length_app. reflexivity.
Qed.

Lemma epochs_trained_none (l : list Call) :
  Forall (fun c => is_model_train c = false) l -> epochs_trained l = O.
Proof.
  unfold epochs_trained.
  induction 1 as [ | c l Hc _ IH]; [reflexivity | ].
  simpl. rewrite Hc. exact IH.
Qed.

Lemma evaluate_call_quiet (st : RunState) (c : Call) :
  is_evaluate_call c = true ->
  is_model_train c = false /\ lr_at st c
  /\ (forall o, c <> CallPrint o).
Proof.
  destruct c; simpl; intro H; try discriminate H;
    repeat split; try exact I; discriminate.
Qed.

Lemma set_batch_lr_logs epoch st p :
  logs (TrainCall st) (set_batch_lr args epoch st p).
Proof.
  unfold set_batch_lr. destruct (is_cosine args).
  - destruct (cyclic st) as [c | ] eqn:E; [ | apply logs_raise].
    apply logs_bind.
    { apply logs_call. repeat split; try reflexivity.
      exists c. auto. }
    intro lr. apply logs_bind.
    { apply logs_call. repeat split; reflexivity. }
    intros _. apply logs_print. repeat split; reflexivity.
  - unfold set_progress. apply logs_bind.
    { apply logs_call. repeat split; reflexivity. }
    intro lr. apply logs_call. repeat split; reflexivity.
Qed.

Lemma train_step_logs st ids targets :
  logs (TrainCall st) (train_step ids targets).
Proof.
  unfold train_step.
  apply logs_bind; [apply logs_call; repeat split; reflexivity | ].
  intros _.
  apply logs_bind; [apply logs_call; repeat split; reflexivity | ].
  intros [preds wts].
  apply logs_bind; [apply logs_call; repeat split; reflexivity | ].
  intro loss.
  apply logs_bind; [apply logs_call; repeat split; reflexivity | ].
  intros _.
  apply logs_bind; [apply logs_call; repeat split; reflexivity | ].
  intros _. apply logs_ret.
Qed.

Lemma train_batch_logs epoch st train_loss b :
  logs (TrainCall st) (train_batch args epoch st train_loss b).
Proof.
  destruct b as [[ids targets] p]. unfold train_batch.
  apply logs_bind; [apply set_batch_lr_logs | ]. intros _.
  apply logs_bind; [apply train_step_logs | ]. intros [loss preds].
  apply logs_bind; [apply logs_call; repeat split; reflexivity | ].
  intros _. apply logs_ret.
Qed.

Lemma update_cyclic_logs P st : logs P (update_cyclic args st).
Proof.
  unfold update_cyclic. destruct (is_cosine args); [ | apply logs_ret].
  destruct (cyclic st); [ | apply logs_raise].
  apply logs_bind; [apply logs_lift | ]. intro. apply logs_ret.
Qed.

Lemma update_cyclic_ok st w st1 w1 l :
  update_cyclic args st w = (Ok st1, w1, l) ->
  CyclicStep args st st1 /\ Unchanged st st1 /\ w1 = w /\ l = [].
Proof.
  unfold update_cyclic, CyclicStep. destruct (is_cosine args).
  - destruct (cyclic st) as [c | ]; [ | discriminate].
    unfold bind, lift, ret.
    destruct (cosine_update c) as [c1 | e] eqn:E; [ | discriminate].
    intro H. injection H as <- <- <-.
    split; [exists c, c1; auto | ].
    repeat split; reflexivity.
  - intro H. injection H as <- <- <-.
    repeat split; reflexivity.
Qed.

(** The training part of an epoch: [model.train()], then calls of
    the training part only. *)
Lemma train_epoch_log epoch st w r w1 l :
  train_epoch args epoch st w = (r, w1, l) ->
  exists rest, l = CallModelTrain :: rest /\ Forall (TrainCall st) rest.
Proof.
  unfold train_epoch. intro H.
  destruct (bind_inv _ _ _ _ _ _ H)
    as [(a & w2 & l1 & l2 & H1 & H2 & ->) | (e & H1 & _)];
    apply call_inv in H1; destruct H1 as [_ ->].
  - exists l2. split; [reflexivity | ].
    cbv beta in H2.
    match type of H2 with
    | ?m w2 = _ => assert (L : logs (TrainCall st) m)
    end.
    { apply logs_bind; [apply logs_call; repeat split; reflexivity | ].
      intro batches. apply logs_bind.
      { apply logs_for_each. intros s x. apply train_batch_logs. }
      intro tl. apply logs_bind.
      { apply logs_print_train_record. intros _. repeat split; reflexivity. }
      intros _. apply update_cyclic_logs. }
    exact (L _ _ _ _ H2).
  - exists []. split; [reflexivity | constructor].
Qed.

Lemma train_epoch_ok epoch st w st1 w1 l :
  train_epoch args epoch st w = (Ok st1, w1, l) ->
  CyclicStep args st st1 /\ Unchanged st st1.
Proof.
  unfold train_epoch. intro H.
  apply bind_ok in H. destruct H as (a & w2 & l1 & l2 & _ & H & _).
  apply bind_ok in H. destruct H as (bs & w3 & l3 & l4 & _ & H & _).
  apply bind_ok in H. destruct H as (tl & w4 & l5 & l6 & _ & H & _).
  apply bind_ok in H. destruct H as (u & w5 & l7 & l8 & _ & H & _).
  apply update_cyclic_ok in H. destruct H as (H1 & H2 & _). auto.
Qed.

Lemma evaluate_ok_head batch_size mode w x w1 log :
  evaluate batch_size mode w = (Ok x, w1, log) ->
  exists rest, log = CallIterate mode false batch_size :: rest.
Proof.
  intro H. destruct mode; [discriminate H | | ];
    apply bind_ok in H;
    destruct H as (bs & w2 & l1 & l2 & H1 & _ & ->);
    apply call_inv in H1; destruct H1 as [_ ->];
    eexists; reflexivity.
Qed.

Lemma update_best_unchanged epoch loss vm tm st st1 :
  Unchanged st st1 ->
  Unchanged (update_best epoch loss vm tm st)
            (update_best epoch loss vm tm st1)
  /\ improved loss vm st1 = improved loss vm st.
Proof.
  intros (H1 & H2 & H3 & H4).
  assert (E : improved loss vm st1 = improved loss vm st).
  { unfold improved. rewrite H2, H3. reflexivity. }
  split; [ | exact E].
  unfold update_best, improvement_check. rewrite E.
  destruct (improved loss vm st).
  - unfold replace_best.
    destruct (json_dumps (snapshot epoch loss vm tm));
      unfold Unchanged; simpl; auto.
  - unfold Unchanged. simpl. rewrite H1, H2, H3, H4. auto.
Qed.

(** The improvement check raises what [json.dumps] raises on the
    snapshot of an improving round, and nothing else. *)
Lemma improvement_check_cases epoch loss vm tm st :
  (improved loss vm st = true
   /\ exists text,
        json_dumps (snapshot epoch loss vm tm) = Ok text
        /\ improvement_check epoch loss vm tm st
           = (Ok tt,
              {| tolerance := 0;
                 best_val_loss := loss;
                 best_val_acc := accuracy vm;
                 best_result := Some text;
                 cyclic := cyclic st |}))
  \/ (improved loss vm st = true
      /\ exists e,
           json_dumps (snapshot epoch loss vm tm) = Err e
           /\ improvement_check epoch loss vm tm st
              = (Err e,
                 {| tolerance := 0;
                    best_val_loss := loss;
                    best_val_acc := accuracy vm;
                    best_result := best_result st;
                    cyclic := cyclic st |}))
  \/ (improved loss vm st = false
      /\ improvement_check epoch loss vm tm st = (Ok tt, keep_best st)).
Proof.
  unfold improvement_check, replace_best.
  destruct (improved loss vm st); [ | auto].
  destruct (json_dumps (snapshot epoch loss vm tm)) as [text | e].
  - left. split; [reflexivity | ]. exists text. auto.
  - right. left. split; [reflexivity | ]. exists e. auto.
Qed.

Lemma update_best_tolerance epoch loss vm tm st :
  tolerance (update_best epoch loss vm tm st)
  = if improved loss vm st then 0 else tolerance st + 1.
Proof.
  unfold update_best.
  destruct (improvement_check_cases epoch loss vm tm st)
    as [(I & text & _ & ->) | [(I & e & _ & ->) | (I & ->)]];
    rewrite I; reflexivity.
Qed.

Lemma improvement_check_unchanged epoch loss vm tm st st1 :
  Unchanged st st1 ->
  fst (improvement_check epoch loss vm tm st1)
  = fst (improvement_check epoch loss vm tm st).
Proof.
  intros (H1 & H2 & H3 & H4).
  unfold improvement_check, improved. rewrite H2, H3.
  destruct (gt (accuracy vm) (best_val_acc st)
            || eq (accuracy vm) (best_val_acc st)
               && lt loss (best_val_loss st)); [ | reflexivity].
  unfold replace_best.
  destruct (json_dumps (snapshot epoch loss vm tm)); reflexivity.
Qed.

(** The end of an evaluation round: the improvement check, then the
    record, each stopping the round when [json.dumps] raises. *)
Lemma round_tail_inv epoch loss vm tm st w r w1 l :
  bind (run_block (improvement_check epoch loss vm tm st))
       (fun st1 =>
          bind (print_json
                  (eval_record epoch loss vm tm (tolerance st1))
                  (PrintEval epoch loss vm tm (tolerance st1)))
               (fun _ => ret st1)) w
  = (r, w1, l) ->
  w1 = w
  /\ ((r = Ok (update_best epoch loss vm tm st)
       /\ fst (improvement_check epoch loss vm tm st) = Ok tt
       /\ Printable (epoch, loss, vm, tm,
                     tolerance (update_best epoch loss vm tm st))
       /\ l = [CallPrint
                 (PrintEval epoch loss vm tm
                    (tolerance (update_best epoch loss vm tm st)))])
      \/ (exists e,
             r = Err e /\ l = []
             /\ (fst (improvement_check epoch loss vm tm st) = Err e
                 \/ (fst (improvement_check epoch loss vm tm st) = Ok tt
                     /\ json_dumps
                          (eval_record epoch loss vm tm
                             (tolerance (update_best epoch loss vm tm st)))
                        = Err e)))).
Proof.
  intro H.
  destruct (bind_inv _ _ _ _ _ _ H)
    as [(st1 & w2 & l1 & l2 & B & H2 & ->) | (e & B & ->)].
  - destruct (run_block_inv _ _ _ _ _ B)
      as (-> & -> & [(F & E) | (e & _ & E)]); [ | discriminate E].
    injection E as ->.
    change (snd (improvement_check epoch loss vm tm st))
      with (update_best epoch loss vm tm st) in *.
    cbv beta in H2.
    destruct (bind_inv _ _ _ _ _ _ H2)
      as [([] & w3 & l3 & l4 & P & H3 & ->) | (e & P & ->)].
    + destruct (print_json_inv _ _ _ _ _ _ P)
        as (-> & [(text & D & _ & ->) | (e & _ & E & _)]);
        [ | discriminate E].
      unfold ret in H3. cbv beta in H3. injection H3 as <- <- <-.
      split; [reflexivity | ]. left.
      split; [reflexivity | ]. split; [exact F | ].
      split; [exists text; exact D | reflexivity].
    + destruct (print_json_inv _ _ _ _ _ _ P)
        as (-> & [(text & _ & E & _) | (e0 & D & E & ->)]);
        [discriminate E | ].
      injection E as <-.
      split; [reflexivity | ]. right. exists e.
      split; [reflexivity | ]. split; [reflexivity | ].
      right. split; [exact F | exact D].
  - destruct (run_block_inv _ _ _ _ _ B)
      as (-> & -> & [(_ & E) | (e0 & F & E)]); [discriminate E | ].
    injection E as <-.
    split; [reflexivity | ]. right. exists e.
    split; [reflexivity | ]. split; [reflexivity | ].
    left. exact F.
Qed.

(** One evaluation round. *)
Lemma evaluation_round_spec epoch st w r w1 l :
  evaluation_round args epoch st w = (r, w1, l) ->
  Forall (fun c => is_model_train c = false
                   /\ forall st0 : RunState, lr_at st0 c) l
  /\ match r with
     | Err _ => eval_records l = []
     | Ok st1 =>
         exists loss vm tm,
           st1 = update_best epoch loss vm tm st
           /\ eval_records l = [(epoch, loss, vm, tm, tolerance st1)]
           /\ In CallModelEval l
           /\ In (CallIterate val false (args_batch_size args)) l
           /\ In (CallIterate test false (args_batch_size args)) l
     end.
Proof.
  intro H.
  assert (Q : forall c, is_evaluate_call c = true ->
              is_model_train c = false
              /\ forall st0 : RunState, lr_at st0 c).
  { intros c Hc. split.
    - exact (proj1 (evaluate_call_quiet st c Hc)).
    - intro st0. exact (proj1 (proj2 (evaluate_call_quiet st0 c Hc))). }
  unfold evaluation_round in H.
  destruct (bind_inv _ _ _ _ _ _ H)
    as [(a & w2 & l1 & l2 & H1 & H2 & ->) | (e & H1 & ->)];
    apply call_inv in H1; destruct H1 as [_ ->];
    [ | split; [repeat constructor | reflexivity]].
  clear H.
  destruct (bind_inv _ _ _ _ _ _ H2)
    as [([loss vm] & w3 & l3 & l4 & V & H3 & ->) | (e & V & ->)].
  2:{ pose proof (evaluate_logs _ _ _ _ _ _ V) as F. split.
      - constructor; [repeat split | exact (Forall_impl _ Q F)].
      - simpl. apply eval_records_none.
        exact (Forall_impl _ evaluate_call_not_record F). }
  pose proof (evaluate_logs _ _ _ _ _ _ V) as F3.
  destruct (bind_inv _ _ _ _ _ _ H3)
    as [([lo tm] & w4 & l5 & l6 & T & H4 & ->) | (e & T & ->)].
  2:{ pose proof (evaluate_logs _ _ _ _ _ _ T) as F. split.
      - constructor; [repeat split | ].
        apply Forall_app.
        split; [exact (Forall_impl _ Q F3) | exact (Forall_impl _ Q F)].
      - simpl. rewrite eval_records_app.
        rewrite (eval_records_none l3), (eval_records_none l4);
          [reflexivity | | ].
        + exact (Forall_impl _ evaluate_call_not_record F).
        + exact (Forall_impl _ evaluate_call_not_record F3). }
  pose proof (evaluate_logs _ _ _ _ _ _ T) as F5.
  cbv beta iota in H4.
  destruct (round_tail_inv _ _ _ _ _ _ _ _ _ H4)
    as (-> & [(-> & _ & _ & ->) | (e & -> & -> & _)]).
  2:{ split.
      - constructor; [repeat split | ].
        apply Forall_app. split; [exact (Forall_impl _ Q F3) | ].
        apply Forall_app. split; [exact (Forall_impl _ Q F5) | constructor].
      - simpl. rewrite !eval_records_app.
        rewrite (eval_records_none l3), (eval_records_none l5);
          [reflexivity | | ].
        + exact (Forall_impl _ evaluate_call_not_record F5).
        + exact (Forall_impl _ evaluate_call_not_record F3). }
  split.
  - constructor; [repeat split | ].
    apply Forall_app. split; [exact (Forall_impl _ Q F3) | ].
    apply Forall_app. split; [exact (Forall_impl _ Q F5) | ].
    repeat constructor.
  - exists loss, vm, tm. split; [reflexivity | ].
    apply evaluate_ok_head in V. destruct V as (rv & ->).
    apply evaluate_ok_head in T. destruct T as (rt & ->).
    split.
    + rewrite !eval_records_app.
      rewrite (eval_records_none (_ :: rv)), (eval_records_none (_ :: rt));
        [reflexivity | | ].
      * exact (Forall_impl _ evaluate_call_not_record F5).
      * exact (Forall_impl _ evaluate_call_not_record F3).
    + simpl. split; [left; reflexivity | ].
      split; right.
      * left. reflexivity.
      * right. apply in_or_app. right. left. reflexivity.
Qed.

Lemma train_log_facts st (rest : list Call) :
  Forall (TrainCall st) rest ->
  epochs_trained rest = O
  /\ Forall (lr_at st) rest
  /\ Forall (fun c => is_evaluation_call c = false) rest
  /\ eval_records rest = [].
Proof.
  intro F.
  assert (F1 : Forall (fun c => is_evaluation_call c = false) rest).
  { apply (Forall_impl _ (fun c (H : TrainCall st c) => proj1 H) F). }
  split.
  { apply epochs_trained_none.
    apply (Forall_impl _ (fun c (H : TrainCall st c) => proj1 (proj2 H)) F). }
  split.
  { apply (Forall_impl _ (fun c (H : TrainCall st c) => proj2 (proj2 H)) F). }
  split; [exact F1 | ].
  apply eval_records_none.
  exact (Forall_impl _ not_evaluation_call_not_record F1).
Qed.

Lemma update_best_cyclic epoch loss vm tm st :
  cyclic (update_best epoch loss vm tm st) = cyclic st.
Proof.
  unfold update_best.
  destruct (improvement_check_cases epoch loss vm tm st)
    as [(_ & text & _ & ->) | [(_ & e & _ & ->) | (_ & ->)]]; reflexivity.
Qed.

Lemma CyclicStep_cyclic st st1 st2 :
  CyclicStep args st st1 -> cyclic st2 = cyclic st1 ->
  CyclicStep args st st2.
Proof.
  unfold CyclicStep. intros H E. destruct (is_cosine args).
  - destruct H as (c & c1 & H1 & H2 & H3). exists c, c1.
    rewrite E. auto.
  - rewrite E. exact H.
Qed.

(** One epoch: what it logs and how it leaves the state. *)
Lemma epoch_body_spec epoch st w r w1 l :
  epoch_body args epoch st w = (r, w1, l) ->
  epochs_trained l = 1%nat
  /\ Forall (lr_at st) l
  /\ match r with
     | Err _ => eval_records l = []
     | Ok st1 =>
         CyclicStep args st st1
         /\ args_log_interval args <> 0
         /\ ((epoch mod args_log_interval args <> 0
              /\ Forall (fun c => is_evaluation_call c = false) l
              /\ Unchanged st st1)
             \/ (epoch mod args_log_interval args = 0
                 /\ exists loss vm tm,
                      eval_records l
                      = [(epoch, loss, vm, tm, tolerance st1)]
                      /\ Unchanged (update_best epoch loss vm tm st) st1
                      /\ In CallModelEval l
                      /\ In (CallIterate val false (args_batch_size args)) l
                      /\ In (CallIterate test false (args_batch_size args))
                            l))
     end.
Proof.
  unfold epoch_body. intro H.
  destruct (bind_inv _ _ _ _ _ _ H)
    as [(st1 & w2 & l1 & l2 & H1 & H2 & ->) | (e & H1 & ->)]; clear H.
  2:{ destruct (train_epoch_log _ _ _ _ _ _ H1) as (rest & -> & F).
      destruct (train_log_facts _ _ F) as (T0 & L & _ & R).
      split; [ | split].
      - change (CallModelTrain :: rest) with ([CallModelTrain] ++ rest).
        rewrite epochs_trained_app, T0. reflexivity.
      - constructor; [exact I | exact L].
      - exact R. }
  destruct (train_epoch_log _ _ _ _ _ _ H1) as (rest & -> & F).
  destruct (train_log_facts _ _ F) as (T0 & L & NE & R).
  destruct (train_epoch_ok _ _ _ _ _ _ H1) as (CS & U).
  assert (T1 : epochs_trained (CallModelTrain :: rest) = 1%nat).
  { change (CallModelTrain :: rest) with ([CallModelTrain] ++ rest).
    rewrite epochs_trained_app, T0. reflexivity. }
  assert (L1 : Forall (lr_at st) (CallModelTrain :: rest)).
  { constructor; [exact I | exact L]. }
  unfold py_mod in H2.
  destruct (Z.eqb_spec (args_log_interval args) 0) as [Z0 | NZ].
  { unfold bind, lift in H2. injection H2 as <- <- <-.
    rewrite app_nil_r. auto. }
  unfold bind at 1 in H2. unfold lift at 1 in H2.
  destruct (Z.eqb_spec (epoch mod args_log_interval args) 0) as [G | G].
  - destruct (evaluation_round args epoch st1 w2) as [[r2 w3] l3] eqn:E.
    injection H2 as <- <- <-. change ([] ++ l3) with l3.
    destruct (evaluation_round_spec _ _ _ _ _ _ E) as (Q & S).
    split; [ | split].
    + rewrite epochs_trained_app, T1, epochs_trained_none; [reflexivity | ].
      exact (Forall_impl _ (fun c H => proj1 H) Q).
    + apply Forall_app. split; [exact L1 | ].
      exact (Forall_impl _ (fun c H => proj2 H st) Q).
    + destruct r2 as [st2 | e].
      * destruct S as (loss & vm & tm & -> & S1 & S2 & S3 & S4).
        split.
        { apply (CyclicStep_cyclic _ _ _ CS). apply update_best_cyclic. }
        split; [exact NZ | ].
        right. split; [exact G | ].
        exists loss, vm, tm.
        split.
        { rewrite eval_records_app, S1. simpl. rewrite R. reflexivity. }
        split.
        { exact (proj1 (update_best_unchanged epoch loss vm tm st st1 U)). }
        repeat split; apply in_or_app; right; assumption.
      * rewrite eval_records_app, S. simpl. rewrite R. reflexivity.
  - unfold ret in H2. injection H2 as <- <- <-. rewrite !app_nil_r.
    split; [exact T1 | ]. split; [exact L1 | ].
    split; [exact CS | ]. split; [exact NZ | ].
    left. split; [exact G | ]. split; [ | exact U].
    constructor; [reflexivity | exact NE].
Qed.

End EpochFacts.

(** ** What is printed was written by [json.dumps] *)

Section DumpedFacts.

Context {C : Collaborators}.
Variable args : Args.

Lemma evaluate_call_dumped (c : Call) :
  is_evaluate_call c = true -> Dumped c.
Proof. destruct c; simpl; intro H; try exact I; discriminate H. Qed.

Lemma train_batch_dumped epoch st s b :
  logs Dumped (train_batch args epoch st s b).
Proof.
  destruct b as [[ids targets] p]. unfold train_batch.
  apply logs_bind.
  { unfold set_batch_lr. destruct (is_cosine args).
    - destruct (cyclic st); [ | apply logs_raise].
      apply logs_bind; [apply logs_call; exact I | ]. intro lr.
      apply logs_bind; [apply logs_call; exact I | ]. intros _.
      apply logs_print. exact I.
    - unfold set_progress.
      apply logs_bind; [apply logs_call; exact I | ].
      intro lr. apply logs_call. exact I. }
  intros _. apply logs_bind.
  { unfold train_step.
    apply logs_bind; [apply logs_call; exact I | ]. intros _.
    apply logs_bind; [apply logs_call; exact I | ]. intros [pr wt].
    apply logs_bind; [apply logs_call; exact I | ]. intro lo.
    apply logs_bind; [apply logs_call; exact I | ]. intros _.
    apply logs_bind; [apply logs_call; exact I | ]. intros _.
    apply logs_ret. }
  intros [lo pr].
  apply logs_bind; [apply logs_call; exact I | ]. intros _.
  apply logs_ret.
Qed.

Lemma train_epoch_dumped epoch st :
  logs Dumped (train_epoch args epoch st).
Proof.
  unfold train_epoch.
  apply logs_bind; [apply logs_call; exact I | ]. intros _.
  apply logs_bind; [apply logs_call; exact I | ].
  intro batches. apply logs_bind.
  { apply logs_for_each. intros s x. apply train_batch_dumped. }
  intro tl. apply logs_bind.
  { apply logs_print_train_record. intro D. exact D. }
  intros _. apply update_cyclic_logs.
Qed.

Lemma evaluation_round_dumped epoch st :
  logs Dumped (evaluation_round args epoch st).
Proof.
  unfold evaluation_round.
  apply logs_bind; [apply logs_call; exact I | ]. intros _.
  apply logs_bind.
  { eapply logs_weaken; [ | apply evaluate_logs].
    exact evaluate_call_dumped. }
  intros [lo vm]. apply logs_bind.
  { eapply logs_weaken; [ | apply evaluate_logs].
    exact evaluate_call_dumped. }
  intros [l0 tm].
  apply logs_bind; [apply logs_run_block | ]. intro st1.
  apply logs_bind; [apply logs_print_json; intro D; exact D | ].
  intros _. apply logs_ret.
Qed.

Lemma epoch_body_dumped epoch st :
  logs Dumped (epoch_body args epoch st).
Proof.
  unfold epoch_body.
  apply logs_bind; [apply train_epoch_dumped | ]. intro st1.
  apply logs_bind; [apply logs_lift | ]. intro r.
  destruct (r =? 0); [apply evaluation_round_dumped | apply logs_ret].
Qed.

Lemma epoch_loop_dumped (epochs : list Z) :
  forall st, logs Dumped (epoch_loop args epochs st).
Proof.
  induction epochs as [ | e rest IH]; intro st; cbn [epoch_loop].
  - apply logs_ret.
  - destruct (tolerance st >? args_tolerance args); [apply logs_ret | ].
    apply logs_bind; [apply epoch_body_dumped | exact IH].
Qed.

Lemma dumped_printable (l : list Call) :
  Forall Dumped l -> Forall Printable (eval_records l).
Proof.
  induction 1 as [ | c l Hc _ IH]; [constructor | ].
  destruct c as [ | | | | | | | | | | | | o]; simpl; try exact IH.
  destruct o; simpl; try exact IH.
  constructor; [exact Hc | exact IH].
Qed.

Lemma dumped_train_finite (l : list Call) :
  Forall Dumped l ->
  Forall (fun x => is_finite (snd x) = true) (train_records l).
Proof.
  induction 1 as [ | c l Hc _ IH]; [constructor | ].
  destruct c as [ | | | | | | | | | | | | o]; simpl; try exact IH.
  destruct o; simpl; try exact IH.
  constructor; [ | exact IH].
  destruct Hc as (time & text & D). simpl.
  apply (json_dumps_finite _ _ "train_loss"%string _ D).
  unfold train_record. simpl. auto.
Qed.

End DumpedFacts.

(** ** Facts on replaying evaluation rounds *)

Section ReplayFacts.

Context {C : Collaborators}.

Lemma Unchanged_refl (st : RunState) : Unchanged st st.
Proof. unfold Unchanged. auto. Qed.

Lemma Unchanged_sym (a b : RunState) : Unchanged a b -> Unchanged b a.
Proof. unfold Unchanged. intros (H1 & H2 & H3 & H4). auto. Qed.

Lemma Unchanged_trans (a b c : RunState) :
  Unchanged a b -> Unchanged b c -> Unchanged a c.
Proof.
  unfold Unchanged. intros (H1 & H2 & H3 & H4) (G1 & G2 & G3 & G4).
  rewrite G1, G2, G3, G4. auto.
Qed.

Lemma apply_round_unchanged (r : EvalRecord) (a b : RunState) :
  Unchanged a b ->
  Unchanged (apply_round a r) (apply_round b r)
  /\ record_improves r b = record_improves r a.
Proof.
  destruct r as [[[[e l] vm] tm] t]. simpl.
  apply update_best_unchanged.
Qed.

Lemma replay_app (rs1 rs2 : list EvalRecord) (st : RunState) :
  replay (rs1 ++ rs2) st = replay rs2 (replay rs1 st).
Proof. unfold replay. apply fold_left_app. Qed.

Lemma replay_unchanged (rs : list EvalRecord) :
  forall a b, Unchanged a b -> Unchanged (replay rs a) (replay rs b).
Proof.
  induction rs as [ | r rs IH]; intros a b U; [exact U | ].
  simpl. apply IH. apply apply_round_unchanged. exact U.
Qed.

Lemma rounds_since_improvement_unchanged (rs : list EvalRecord) :
  forall a b n,
    Unchanged a b ->
    rounds_since_improvement rs b n = rounds_since_improvement rs a n.
Proof.
  induction rs as [ | r rs IH]; intros a b n U; [reflexivity | ].
  simpl. destruct (apply_round_unchanged r a b U) as (U1 & ->).
  apply IH. exact U1.
Qed.

Lemma update_best_cases epoch loss vm tm st :
  (improved loss vm st = true
   /\ update_best epoch loss vm tm st
      = snd (replace_best epoch loss vm tm st))
  \/ (improved loss vm st = false
      /\ update_best epoch loss vm tm st = keep_best st).
Proof.
  unfold update_best, improvement_check.
  destruct (improved loss vm st); auto.
Qed.

Lemma replace_best_values epoch loss vm tm st :
  best_val_acc (snd (replace_best epoch loss vm tm st)) = accuracy vm
  /\ best_val_loss (snd (replace_best epoch loss vm tm st)) = loss
  /\ tolerance (snd (replace_best epoch loss vm tm st)) = 0.
Proof.
  unfold replace_best.
  destruct (json_dumps (snapshot epoch loss vm tm)); simpl; auto.
Qed.

Lemma improved_iff loss vm st :
  improved loss vm st = true <-> Improves loss vm st.
Proof.
  unfold improved, Improves.
  rewrite orb_true_iff, andb_true_iff, gt_iff, eq_iff, lt_iff.
  reflexivity.
Qed.

Lemma improved_false_iff loss vm st :
  improved loss vm st = false <-> ~ Improves loss vm st.
Proof.
  split.
  - intros H I. apply improved_iff in I. congruence.
  - intro H. destruct (improved loss vm st) eqn:E; [ | reflexivity].
    exfalso. apply H. apply improved_iff. exact E.
Qed.

Lemma replay_keeps_some (rs : list EvalRecord) :
  forall st, best_result st <> None -> best_result (replay rs st) <> None.
Proof.
  induction rs as [ | r rs IH]; intros st H; [exact H | ].
  simpl. apply IH. destruct r as [[[[e l] vm] tm] t]. simpl.
  destruct (update_best_cases e l vm tm st) as [[_ ->] | [_ ->]];
    [ | exact H].
  unfold replace_best.
  destruct (json_dumps (snapshot e l vm tm)); simpl;
    [discriminate | exact H].
Qed.

Lemma keep_best_unchanged_improves (r : EvalRecord) (st : RunState) :
  record_improves r (keep_best st) = record_improves r st.
Proof. destruct r as [[[[e l] vm] tm] t]. reflexivity. Qed.

(** With no best result yet, there is none after the printed rounds
    [rs] exactly when no round of [rs] improves on what [st] holds. *)
Lemma replay_none_iff (rs : list EvalRecord) :
  forall st,
    Forall Printable rs ->
    best_result st = None ->
    (best_result (replay rs st) = None
     <-> Forall (fun r => record_improves r st = false) rs).
Proof.
  induction rs as [ | r rs IH]; intros st P H.
  - simpl. split; [constructor | intros _; exact H].
  - apply Forall_cons_iff in P. destruct P as [P1 P2].
    simpl replay. destruct r as [[[[e l] vm] tm] t].
    simpl apply_round.
    destruct (update_best_cases e l vm tm st) as [[I ->] | [I ->]].
    + destruct (printable_snapshot _ _ _ _ _ P1) as (text & D).
      split.
      * intro G. exfalso.
        apply (replay_keeps_some rs (snd (replace_best e l vm tm st)));
          [ | exact G].
        unfold replace_best. rewrite D. simpl. discriminate.
      * intro G. inversion G as [ | ? ? G1 _]. simpl in G1.
        rewrite I in G1. discriminate G1.
    + rewrite (IH (keep_best st) P2 H). split.
      * intro G. constructor; [exact I | ].
        apply (Forall_impl _ (fun r H => eq_trans
                 (eq_sym (keep_best_unchanged_improves r st)) H) G).
      * intro G. inversion G as [ | ? ? _ G2].
        apply (Forall_impl _ (fun r H => eq_trans
                 (keep_best_unchanged_improves r st) H) G2).
Qed.

(** Rounds that do not improve only count. *)
Lemma replay_non_improving (rs : list EvalRecord) :
  forall st,
    Forall (fun r => record_improves r st = false) rs ->
    best_result (replay rs st) = best_result st
    /\ best_val_acc (replay rs st) = best_val_acc st
    /\ best_val_loss (replay rs st) = best_val_loss st
    /\ tolerance (replay rs st) = tolerance st + Z.of_nat (length rs).
Proof.
  induction rs as [ | r rs IH]; intros st F.
  - simpl. repeat split; lia.
  - inversion F as [ | ? ? F1 F2]. subst.
    simpl replay. destruct r as [[[[e l] vm] tm] t].
    simpl in F1. simpl apply_round.
    unfold update_best, improvement_check. rewrite F1. cbn [snd].
    destruct (IH (keep_best st)) as (H1 & H2 & H3 & H4).
    { apply (Forall_impl _ (fun r H => eq_trans
               (keep_best_unchanged_improves r st) H) F2). }
    rewrite H1, H2, H3, H4. simpl. repeat split; try reflexivity.
    rewrite Zpos_P_of_succ_nat. lia.
Qed.

End ReplayFacts.

(** ** Facts on the epoch loop *)

Section LoopFacts.

Context {C : Collaborators}.
Variable args : Args.

Lemma epoch_loop_cons epoch rest st w r w1 l :
  epoch_loop args (epoch :: rest) st w = (r, w1, l) ->
  (tolerance st > args_tolerance args /\ r = Ok st /\ w1 = w /\ l = [])
  \/ (tolerance st <= args_tolerance args
      /\ ((exists x, epoch_body args epoch st w = (Err x, w1, l)
                     /\ r = Err x)
          \/ (exists st1 w2 l1 l2,
                 epoch_body args epoch st w = (Ok st1, w2, l1)
                 /\ epoch_loop args rest st1 w2 = (r, w1, l2)
                 /\ l = l1 ++ l2))).
Proof.
  cbn [epoch_loop].
  destruct (Z.gtb_spec (tolerance st) (args_tolerance args)) as [G | G].
  - intro H. injection H as <- <- <-. left. split; [lia | auto].
  - intro H. right. split; [lia | ].
    destruct (bind_inv _ _ _ _ _ _ H)
      as [(st1 & w2 & l1 & l2 & H1 & H2 & ->) | (e & H1 & ->)].
    + right. exists st1, w2, l1, l2. auto.
    + left. exists e. auto.
Qed.

(** The loop trains at most one epoch per element of the range. *)
Lemma epoch_loop_epochs_trained (epochs : list Z) :
  forall st w r w1 l,
    epoch_loop args epochs st w = (r, w1, l) ->
    (epochs_trained l <= length epochs)%nat.
Proof.
  induction epochs as [ | e rest IH]; intros st w r w1 l H.
  - simpl in H. injection H as <- <- <-. apply Nat.le_refl.
  - destruct (epoch_loop_cons _ _ _ _ _ _ _ H)
      as [(_ & _ & _ & ->)
         | (_ & [(x & B & _) | (st1 & w2 & l1 & l2 & B & L & ->)])].
    + apply Nat.le_0_l.
    + rewrite (proj1 (epoch_body_spec _ _ _ _ _ _ _ B)). simpl. lia.
    + rewrite epochs_trained_app.
      rewrite (proj1 (epoch_body_spec _ _ _ _ _ _ _ B)).
      specialize (IH _ _ _ _ _ L). simpl. lia.
Qed.

(** The state an epoch leaves, relative to the rounds it printed. *)
Lemma epoch_body_replay epoch st w st1 w1 l :
  epoch_body args epoch st w = (Ok st1, w1, l) ->
  Unchanged (replay (eval_records l) st) st1
  /\ (eval_records l = []
      \/ exists loss vm tm,
           eval_records l = [(epoch, loss, vm, tm, tolerance st1)]).
Proof.
  intro B.
  destruct (epoch_body_spec _ _ _ _ _ _ _ B)
    as (_ & _ & _ & _ & [(_ & F & U) | (_ & loss & vm & tm & R & U & _)]).
  - rewrite (eval_records_none l
               (Forall_impl _ not_evaluation_call_not_record F)).
    split; [exact U | left; reflexivity].
  - rewrite R. split; [exact U | right; exists loss, vm, tm; reflexivity].
Qed.

(** The state the loop leaves is the replay of the rounds it printed. *)
Lemma epoch_loop_replay (epochs : list Z) :
  forall st w st1 w1 l,
    epoch_loop args epochs st w = (Ok st1, w1, l) ->
    Unchanged (replay (eval_records l) st) st1.
Proof.
  induction epochs as [ | e rest IH]; intros st w st1 w1 l H.
  - simpl in H. injection H as <- <- <-. apply Unchanged_refl.
  - destruct (epoch_loop_cons _ _ _ _ _ _ _ H)
      as [(_ & E & _ & ->)
         | (_ & [(x & _ & E) | (st2 & w2 & l1 & l2 & B & L & ->)])].
    + injection E as <-. apply Unchanged_refl.
    + discriminate E.
    + rewrite eval_records_app, replay_app.
      apply (Unchanged_trans _ (replay (eval_records l2) st2)).
      * apply replay_unchanged.
        exact (proj1 (epoch_body_replay _ _ _ _ _ _ B)).
      * exact (IH _ _ _ _ _ L).
Qed.

(** The count of the rounds since the last improvement is the
    tolerance count, and the check at the start of an epoch bounds
    it. *)
Lemma epoch_loop_rounds (epochs : list Z) :
  forall st n w r w1 l,
    tolerance st = Z.of_nat n ->
    epoch_loop args epochs st w = (r, w1, l) ->
    (rounds_since_improvement (eval_records l) st n
     <= Nat.max n (Z.to_nat (args_tolerance args + 1)))%nat
    /\ (forall st1, r = Ok st1 ->
          tolerance st1
          = Z.of_nat (rounds_since_improvement (eval_records l) st n)).
Proof.
  induction epochs as [ | e rest IH]; intros st n w r w1 l T H.
  - simpl in H. injection H as <- <- <-. simpl.
    split; [lia | intros st1 E; injection E as <-; exact T].
  - destruct (epoch_loop_cons _ _ _ _ _ _ _ H)
      as [(_ & E & _ & ->)
         | (G & [(x & B & E) | (st2 & w2 & l1 & l2 & B & L & ->)])].
    + simpl. split; [lia | intros st1 E1; congruence].
    + pose proof (epoch_body_spec _ _ _ _ _ _ _ B) as (_ & _ & R).
      simpl in R. rewrite R. simpl.
      split; [lia | intros st1 E1; congruence].
    + rewrite eval_records_app.
      destruct (epoch_body_spec _ _ _ _ _ _ _ B)
        as (_ & _ & _ & _
            & [(_ & F & U) | (_ & loss & vm & tm & R & U & _)]).
      * rewrite (eval_records_none l1
                   (Forall_impl _ not_evaluation_call_not_record F)).
        simpl app.
        rewrite <- (rounds_since_improvement_unchanged _ st st2 n U).
        apply (IH st2 n w2 r w1 l2); [ | exact L].
        destruct U as (_ & _ & _ & ->). exact T.
      * rewrite R. simpl app. simpl rounds_since_improvement.
        set (n1 := if improved loss vm st then O else S n).
        assert (T2 : tolerance st2 = Z.of_nat n1).
        { destruct U as (_ & _ & _ & ->). rewrite update_best_tolerance.
          unfold n1. destruct (improved loss vm st); [reflexivity | ].
          rewrite T. lia. }
        rewrite <- (rounds_since_improvement_unchanged _ _ st2 n1 U).
        destruct (IH st2 n1 w2 r w1 l2 T2 L) as (I1 & I2).
        split; [ | exact I2].
        assert (n1 <= S n)%nat by (unfold n1; destruct (improved loss vm st); lia).
        lia.
Qed.

Lemma cosine_update_inv (c c1 : Cyclic) :
  0 <= Tcur c <= Ti c -> 1 <= Ti c -> mult c = 2 ->
  cosine_update c = Ok c1 ->
  0 <= Tcur c1 <= Ti c1 /\ 1 <= Ti c1 /\ mult c1 = 2.
Proof.
  intros H1 H2 H3 H. rewrite cosine_update_spec in H by lia.
  injection H as <-.
  destruct (Z.eqb_spec (Tcur c mod Ti c) 0) as [E | E];
    destruct (Z.gtb_spec (Tcur c) 0) as [G | G];
    unfold restart, advance; simpl; rewrite ?H3.
  - lia.
  - lia.
  - destruct (Z.eq_dec (Tcur c) (Ti c)) as [Q | Q]; [ | lia].
    exfalso. apply E. rewrite Q. apply Z.mod_same. lia.
  - lia.
Qed.

Lemma cyclic_after_inv (n : nat) :
  forall c,
    0 <= Tcur c <= Ti c -> 1 <= Ti c -> mult c = 2 ->
    exists c1,
      cyclic_after n c = Ok c1
      /\ 0 <= Tcur c1 <= Ti c1 /\ 1 <= Ti c1 /\ mult c1 = 2.
Proof.
  induction n as [ | n IH]; intros c H1 H2 H3.
  - exists c. simpl. auto.
  - simpl. destruct (cosine_update c) as [c1 | e] eqn:E.
    + destruct (cosine_update_inv c c1 H1 H2 H3 E) as (G1 & G2 & G3).
      exact (IH c1 G1 G2 G3).
    + rewrite cosine_update_spec in E by lia. discriminate E.
Qed.

Lemma CyclicStep_inv (st st1 : RunState) :
  CyclicInv st -> CyclicStep args st st1 -> CyclicInv st1.
Proof.
  unfold CyclicInv, CyclicStep. destruct (is_cosine args).
  - intros I (c & c1 & E & U & E1). rewrite E in I. rewrite E1.
    destruct I as (I1 & I2 & I3).
    exact (cosine_update_inv c c1 I1 I2 I3 U).
  - intros I ->. exact I.
Qed.

Lemma lr_at_position (st : RunState) (c : Call) :
  CyclicInv st -> lr_at st c -> position_in_period c.
Proof.
  unfold CyclicInv. destruct c; simpl; auto.
  intros I (c0 & E & -> & ->). rewrite E in I. tauto.
Qed.

(** Every epoch of the loop is trained at a position within its
    period, the end included. *)
Lemma epoch_loop_positions (epochs : list Z) :
  forall st w r w1 l,
    CyclicInv st ->
    epoch_loop args epochs st w = (r, w1, l) ->
    Forall position_in_period l.
Proof.
  induction epochs as [ | e rest IH]; intros st w r w1 l I H.
  - simpl in H. injection H as <- <- <-. constructor.
  - destruct (epoch_loop_cons _ _ _ _ _ _ _ H)
      as [(_ & _ & _ & ->)
         | (_ & [(x & B & _) | (st2 & w2 & l1 & l2 & B & L & ->)])].
    + constructor.
    + destruct (epoch_body_spec _ _ _ _ _ _ _ B) as (_ & F & _).
      exact (Forall_impl _ (fun c => lr_at_position st c I) F).
    + destruct (epoch_body_spec _ _ _ _ _ _ _ B) as (_ & F & CS & _).
      apply Forall_app. split.
      * exact (Forall_impl _ (fun c => lr_at_position st c I) F).
      * apply (IH st2 w2 r w1 l2); [ | exact L].
        exact (CyclicStep_inv st st2 I CS).
Qed.

(** Under the cosine schedule the period state that a loop leaves is
    the one that as many updates as epochs trained give. *)
Lemma epoch_loop_cyclic (epochs : list Z) :
  is_cosine args = true ->
  forall st n c w st1 w1 l,
    cyclic st = Some c ->
    cyclic_after n cyclic_init = Ok c ->
    epoch_loop args epochs st w = (Ok st1, w1, l) ->
    exists c1,
      cyclic st1 = Some c1
      /\ cyclic_after (n + epochs_trained l) cyclic_init = Ok c1.
Proof.
  intro Cos.
  induction epochs as [ | e rest IH]; intros st n c w st1 w1 l S A H.
  - simpl in H. injection H as <- <- <-. exists c.
    change (epochs_trained []) with O. rewrite Nat.add_0_r. auto.
  - destruct (epoch_loop_cons _ _ _ _ _ _ _ H)
      as [(_ & E & _ & ->)
         | (_ & [(x & _ & E) | (st2 & w2 & l1 & l2 & B & L & ->)])].
    + injection E as <-. exists c.
      change (epochs_trained []) with O. rewrite Nat.add_0_r. auto.
    + discriminate E.
    + destruct (epoch_body_spec _ _ _ _ _ _ _ B) as (K & _ & CS & _).
      unfold CyclicStep in CS. rewrite Cos in CS.
      destruct CS as (c0 & c1 & E0 & U & E1).
      rewrite S in E0. injection E0 as <-.
      assert (A1 : cyclic_after (n + 1) cyclic_init = Ok c1).
      { rewrite (cyclic_after_add n 1 _ _ A). simpl. rewrite U.
        reflexivity. }
      destruct (IH st2 (n + 1)%nat c1 w2 st1 w1 l2 E1 A1 L)
        as (c2 & S2 & A2).
      exists c2. split; [exact S2 | ].
      rewrite epochs_trained_app, K.
      replace (n + (1 + epochs_trained l2))%nat
        with (n + 1 + epochs_trained l2)%nat by lia.
      exact A2.
Qed.

Lemma lr_at_period_end (st : RunState) (k : nat) (c : Call) :
  cyclic st = Some (mkCyclic (Z.of_nat (2 ^ k)) 2 (Z.of_nat (2 ^ k))) ->
  lr_at st c -> at_period_end k c.
Proof.
  intro S. destruct c; simpl; auto.
  intros (c0 & E & -> & ->). rewrite S in E. injection E as <-.
  simpl. auto.
Qed.

Lemma lr_positions_below (l : list Call) :
  Forall position_below_period l ->
  Forall (fun p => 0 <= fst p < snd p) (lr_positions l).
Proof.
  induction 1 as [ | c l Hc _ IH]; [constructor | ].
  destruct c; simpl; try exact IH.
  constructor; [exact Hc | exact IH].
Qed.

Lemma init_state_CyclicInv : CyclicInv (init_state args).
Proof.
  unfold CyclicInv, init_state. simpl.
  destruct (is_cosine args); simpl; [lia | exact I].
Qed.

End LoopFacts.

(** ** The properties of the training controller *)

Section Properties.

Context {C : Collaborators}.
Variable args : Args.

Lemma range_length (n : Z) : length (range n) = Z.to_nat n.
Proof. unfold range. rewrite length_map, length_seq. reflexivity. Qed.

Lemma unchanged_update_best epoch loss vm tm st st1 :
  (exists text, json_dumps (snapshot epoch loss vm tm) = Ok text) ->
  Unchanged (update_best epoch loss vm tm st) st1 ->
  (Improves loss vm st /\ Replaced epoch loss vm tm st1)
  \/ (~ Improves loss vm st /\ Kept st st1).
Proof.
  intros (text & D) (U1 & U2 & U3 & U4).
  destruct (update_best_cases epoch loss vm tm st) as [[I E] | [I E]];
    rewrite E in U1, U2, U3, U4.
  - unfold replace_best in U1, U2, U3, U4.
    rewrite D in U1, U2, U3, U4. simpl in U1, U2, U3, U4.
    left. split; [apply improved_iff; exact I | ].
    unfold Replaced, Written. split; [exists text; auto | auto].
  - simpl in U1, U2, U3, U4.
    right. split; [apply improved_false_iff; exact I | ].
    unfold Kept. auto.
Qed.

(** A round that completes, call by call. *)
Lemma evaluation_round_ok epoch st w st1 w1 l :
  evaluation_round args epoch st w = (Ok st1, w1, l) ->
  exists wa loss vm wb lv lt tm ltest,
    model_eval w = (Ok tt, wa)
    /\ evaluate (args_batch_size args) val wa = (Ok (loss, vm), wb, lv)
    /\ evaluate (args_batch_size args) test wb = (Ok (lt, tm), w1, ltest)
    /\ improvement_check epoch loss vm tm st = (Ok tt, st1)
    /\ Printable (epoch, loss, vm, tm, tolerance st1)
    /\ l = CallModelEval
           :: lv ++ ltest
           ++ [CallPrint (PrintEval epoch loss vm tm (tolerance st1))].
Proof.
  unfold evaluation_round. intro H.
  apply bind_ok in H. destruct H as ([] & wa & l1 & l2 & H1 & H & ->).
  apply call_inv in H1. destruct H1 as [H1 ->].
  apply bind_ok in H. destruct H as ([loss vm] & wb & lv & l3 & V & H & ->).
  cbv beta iota in H.
  apply bind_ok in H. destruct H as ([lt tm] & wc & ltest & l4 & T & H & ->).
  cbv beta iota in H.
  destruct (round_tail_inv _ _ _ _ _ _ _ _ _ H)
    as (-> & [(E & F & P & ->) | (e & E & _)]); [ | discriminate E].
  injection E as ->.
  exists wa, loss, vm, wb, lv, lt, tm, ltest.
  split; [exact H1 | ]. split; [exact V | ]. split; [exact T | ].
  split; [ | split; [exact P | reflexivity]].
  unfold update_best.
  destruct (improvement_check epoch loss vm tm st) as [r0 s0].
  simpl in F |- *. rewrite F. reflexivity.
Qed.

(** C1.  The improvement check is a lexicographic comparison on two
    keys: the new result replaces the best one when its accuracy is
    greater than the best accuracy, or equal to it with a validation
    loss smaller than the best loss, and in no other case.  When it
    replaces, the best result becomes the text that [json.dumps]
    returns on the snapshot of the round, and the count is reset; a
    greater accuracy replaces whatever the losses are; an equal
    accuracy with an equal loss does not replace.  The check raises
    only what [json.dumps] raises on the snapshot of a round that
    improves: the round then stops with that exception, prints no
    record, and the best result is not replaced, the count and the
    best accuracy and loss being assigned already.  In a round that
    completes, the loss and the accuracy compared are those of the
    pass over the validation split, made first, the test metric is
    that of the pass over the test split, and the state left is the
    one the check gives. *)
Theorem best_result_replacement :
  (forall epoch loss vm tm st,
      (Improves loss vm st ->
       forall text,
         json_dumps (snapshot epoch loss vm tm) = Ok text ->
         fst (improvement_check epoch loss vm tm st) = Ok tt
         /\ Replaced epoch loss vm tm
              (snd (improvement_check epoch loss vm tm st)))
      /\ (Improves loss vm st ->
          forall e,
            json_dumps (snapshot epoch loss vm tm) = Err e ->
            fst (improvement_check epoch loss vm tm st) = Err e
            /\ best_result (snd (improvement_check epoch loss vm tm st))
               = best_result st
            /\ best_val_acc (snd (improvement_check epoch loss vm tm st))
               = accuracy vm
            /\ best_val_loss (snd (improvement_check epoch loss vm tm st))
               = loss
            /\ tolerance (snd (improvement_check epoch loss vm tm st)) = 0)
      /\ (~ Improves loss vm st ->
          fst (improvement_check epoch loss vm tm st) = Ok tt
          /\ Kept st (snd (improvement_check epoch loss vm tm st)))
      /\ (Gt (accuracy vm) (best_val_acc st) ->
          forall text,
            json_dumps (snapshot epoch loss vm tm) = Ok text ->
            Replaced epoch loss vm tm
              (snd (improvement_check epoch loss vm tm st)))
      /\ (Eq (accuracy vm) (best_val_acc st) ->
          Eq loss (best_val_loss st) ->
          Kept st (snd (improvement_check epoch loss vm tm st)))
      /\ (0 <= tolerance st ->
          fst (improvement_check epoch loss vm tm st) = Ok tt ->
          (Replaced epoch loss vm tm
             (snd (improvement_check epoch loss vm tm st))
           <-> Improves loss vm st)))
  /\ (forall epoch st w st1 w1 l,
         evaluation_round args epoch st w = (Ok st1, w1, l) ->
         exists wa loss vm wb lv lt tm ltest,
           model_eval w = (Ok tt, wa)
           /\ evaluate (args_batch_size args) val wa
              = (Ok (loss, vm), wb, lv)
           /\ evaluate (args_batch_size args) test wb
              = (Ok (lt, tm), w1, ltest)
           /\ improvement_check epoch loss vm tm st = (Ok tt, st1)
           /\ ((Improves loss vm st /\ Replaced epoch loss vm tm st1)
               \/ (~ Improves loss vm st /\ Kept st st1))
           /\ l = CallModelEval
                  :: lv ++ ltest
                  ++ [CallPrint
                        (PrintEval epoch loss vm tm (tolerance st1))])
  /\ (forall epoch st w wa loss vm wb lv lt tm wc ltest e,
         model_eval w = (Ok tt, wa) ->
         evaluate (args_batch_size args) val wa = (Ok (loss, vm), wb, lv) ->
         evaluate (args_batch_size args) test wb
         = (Ok (lt, tm), wc, ltest) ->
         Improves loss vm st ->
         json_dumps (snapshot epoch loss vm tm) = Err e ->
         evaluation_round args epoch st w
         = (Err e, wc, CallModelEval :: lv ++ ltest)).
Proof.
  assert (Y : forall epoch loss vm tm st,
             Improves loss vm st ->
             forall text,
               json_dumps (snapshot epoch loss vm tm) = Ok text ->
               fst (improvement_check epoch loss vm tm st) = Ok tt
               /\ Replaced epoch loss vm tm
                    (snd (improvement_check epoch loss vm tm st))).
  { intros epoch loss vm tm st I text D. apply improved_iff in I.
    unfold improvement_check, replace_best. rewrite I, D. simpl.
    split; [reflexivity | ].
    unfold Replaced, Written. simpl. split; [exists text; auto | auto]. }
  assert (F : forall epoch loss vm tm st,
             Improves loss vm st ->
             forall e,
               json_dumps (snapshot epoch loss vm tm) = Err e ->
               fst (improvement_check epoch loss vm tm st) = Err e
               /\ best_result (snd (improvement_check epoch loss vm tm st))
                  = best_result st
               /\ best_val_acc (snd (improvement_check epoch loss vm tm st))
                  = accuracy vm
               /\ best_val_loss (snd (improvement_check epoch loss vm tm st))
                  = loss
               /\ tolerance (snd (improvement_check epoch loss vm tm st))
                  = 0).
  { intros epoch loss vm tm st I e D. apply improved_iff in I.
    unfold improvement_check, replace_best. rewrite I, D. simpl. auto. }
  assert (N : forall epoch loss vm tm st,
             ~ Improves loss vm st ->
             fst (improvement_check epoch loss vm tm st) = Ok tt
             /\ Kept st (snd (improvement_check epoch loss vm tm st))).
  { intros epoch loss vm tm st I. apply improved_false_iff in I.
    unfold improvement_check. rewrite I. simpl.
    unfold Kept. simpl. auto. }
  split; [ | split].
  - intros epoch loss vm tm st.
    split; [exact (Y epoch loss vm tm st) | ].
    split; [exact (F epoch loss vm tm st) | ].
    split; [exact (N epoch loss vm tm st) | ].
    split.
    { intros G text D.
      exact (proj2 (Y epoch loss vm tm st (or_introl G) text D)). }
    split.
    { intros E1 E2. apply (N epoch loss vm tm st).
      intros [G | [_ L]].
      - exact (Eq_not_Gt _ _ E1 G).
      - exact (Eq_not_Lt _ _ E2 L). }
    intros T K. split.
    + intros (_ & _ & _ & R0).
      destruct (improved loss vm st) eqn:I; [apply improved_iff; exact I | ].
      exfalso. apply improved_false_iff in I.
      destruct (N epoch loss vm tm st I) as (_ & _ & _ & _ & K4).
      rewrite K4 in R0. lia.
    + intro I.
      destruct (json_dumps (snapshot epoch loss vm tm)) as [text | e] eqn:D.
      * exact (proj2 (Y epoch loss vm tm st I text D)).
      * destruct (F epoch loss vm tm st I e D) as (F1 & _).
        rewrite F1 in K. discriminate K.
  - intros epoch st w st1 w1 l H.
    destruct (evaluation_round_ok _ _ _ _ _ _ H)
      as (wa & loss & vm & wb & lv & lt & tm & ltest
          & H1 & V & T & K & P & L).
    exists wa, loss, vm, wb, lv, lt, tm, ltest.
    split; [exact H1 | ]. split; [exact V | ]. split; [exact T | ].
    split; [exact K | ]. split; [ | exact L].
    destruct (printable_snapshot _ _ _ _ _ P) as (text & D).
    destruct (improved loss vm st) eqn:I.
    + apply improved_iff in I. left. split; [exact I | ].
      pose proof (proj2 (Y epoch loss vm tm st I text D)) as R0.
      rewrite K in R0. exact R0.
    + apply improved_false_iff in I. right. split; [exact I | ].
      pose proof (proj2 (N epoch loss vm tm st I)) as R0.
      rewrite K in R0. exact R0.
  - intros epoch st w wa loss vm wb lv lt tm wc ltest e M V T I D.
    assert (R : run_block (improvement_check epoch loss vm tm st) wc
                = (Err e, wc, [])).
    { unfold run_block.
      rewrite (proj1 (F epoch loss vm tm st I e D)). reflexivity. }
    unfold evaluation_round, bind, call.
    rewrite M. cbv beta iota. rewrite V. cbv beta iota.
    rewrite T. cbv beta iota. rewrite R. cbv beta iota.
    rewrite ?app_nil_r. reflexivity.
Qed.

(** C2.  Under the cosine schedule an epoch that completes leaves the
    period state one update further, and every learning rate of the
    epoch was asked for at the state before the update: the update
    comes once, after the batches.  The update restarts
    ([Ti *= mult], [Tcur = 0]) when [Tcur] is a multiple of [Ti] and
    is not zero, and adds one to [Tcur] otherwise.  At [Tcur = 0] it
    never restarts, whatever [Ti] is.  From [Ti = 1], [mult = 2],
    [Tcur = 0] the updates never raise and keep [Tcur >= 0] and
    [Ti != 0]. *)
Theorem cosine_bookkeeping :
  (forall epoch st w st1 w1 l,
      is_cosine args = true ->
      epoch_body args epoch st w = (Ok st1, w1, l) ->
      exists c c1,
        cyclic st = Some c
        /\ cosine_update c = Ok c1
        /\ cyclic st1 = Some c1
        /\ Forall (lr_at st) l)
  /\ (forall c,
         0 <= Tcur c -> Ti c <> 0 ->
         (Tcur c mod Ti c = 0 /\ Tcur c <> 0 ->
          cosine_update c = Ok (mkCyclic (Ti c * mult c) (mult c) 0))
         /\ (~ (Tcur c mod Ti c = 0 /\ Tcur c <> 0) ->
             cosine_update c
             = Ok (mkCyclic (Ti c) (mult c) (Tcur c + 1))))
  /\ (forall T m,
         cosine_update (mkCyclic T m 0)
         = if T =? 0 then Err ZeroDivisionError
           else Ok (mkCyclic T m 1))
  /\ (forall n,
         exists c,
           cyclic_after n cyclic_init = Ok c
           /\ 0 <= Tcur c /\ Ti c <> 0).
Proof.
  split; [ | split; [ | split]].
  4:{ intro n.
      destruct (cyclic_after_inv n cyclic_init) as (c & E & I1 & I2 & _);
        [simpl; lia | simpl; lia | reflexivity | ].
      exists c. split; [exact E | lia]. }
  - intros epoch st w st1 w1 l Cos B.
    destruct (epoch_body_spec _ _ _ _ _ _ _ B) as (_ & F & CS & _).
    unfold CyclicStep in CS. rewrite Cos in CS.
    destruct CS as (c & c1 & E & U & E1).
    exists c, c1. auto.
  - intros c P NZ. rewrite cosine_update_spec by exact NZ.
    split.
    + intros [E G]. rewrite E. simpl.
      destruct (Z.gtb_spec (Tcur c) 0); [reflexivity | lia].
    + intro N.
      destruct (Z.eqb_spec (Tcur c mod Ti c) 0) as [E | E];
        destruct (Z.gtb_spec (Tcur c) 0) as [G | G]; simpl;
        try reflexivity.
      exfalso. apply N. split; [exact E | lia].
  - intros T m. unfold cosine_update, py_mod. simpl.
    destruct (T =? 0); [reflexivity | ].
    rewrite Zmod_0_l. reflexivity.
Qed.

(** C3.  The loop trains at most [args.epochs] epochs.  At the start
    of an epoch it stops, with nothing trained or printed, when
    [tolerance > args.tolerance], and runs the epoch otherwise.  So
    at most [args.tolerance + 1] evaluation rounds follow the last
    improving one. *)
Theorem early_stopping :
  forall w r w1 l,
    train_loop args w = (r, w1, l) ->
    (epochs_trained l <= Z.to_nat (args_epochs args))%nat
    /\ (rounds_since_improvement (eval_records l) (init_state args) 0
        <= Z.to_nat (args_tolerance args + 1))%nat
    /\ (forall epoch rest st w0,
           tolerance st > args_tolerance args ->
           epoch_loop args (epoch :: rest) st w0 = (Ok st, w0, []))
    /\ (forall epoch rest st w0,
           tolerance st <= args_tolerance args ->
           epoch_loop args (epoch :: rest) st w0
           = bind (epoch_body args epoch st) (epoch_loop args rest) w0).
Proof.
  intros w r w1 l H. unfold train_loop in H.
  split.
  { rewrite <- range_length. exact (epoch_loop_epochs_trained _ _ _ _ _ _ _ H). }
  split.
  { destruct (epoch_loop_rounds args _ (init_state args) O _ _ _ _
                eq_refl H) as (B & _).
    simpl in B. exact B. }
  split.
  - intros epoch rest st w0 G. cbn [epoch_loop].
    destruct (Z.gtb_spec (tolerance st) (args_tolerance args));
      [reflexivity | lia].
  - intros epoch rest st w0 G. cbn [epoch_loop].
    destruct (Z.gtb_spec (tolerance st) (args_tolerance args));
      [lia | reflexivity].
Qed.

(** C4.  In an epoch with [epoch % args.log_interval != 0] no call
    of the evaluation block is made, and the count and the best
    result stay.  In the other epochs one round is printed: either
    it improves, the best result is replaced and the count is [0],
    or it does not, the best result stays and the count is one
    higher; so the count is [0] after a round exactly when the round
    replaced the best result.  [N] rounds that do not improve add
    [N] to the count. *)
Theorem tolerance_accounting :
  (forall epoch st w st1 w1 l,
      epoch_body args epoch st w = (Ok st1, w1, l) ->
      (epoch mod args_log_interval args <> 0 ->
       Forall (fun c => is_evaluation_call c = false) l
       /\ eval_records l = []
       /\ Unchanged st st1)
      /\ (epoch mod args_log_interval args = 0 ->
          exists loss vm tm,
            eval_records l = [(epoch, loss, vm, tm, tolerance st1)]
            /\ ((Improves loss vm st /\ Replaced epoch loss vm tm st1)
                \/ (~ Improves loss vm st /\ Kept st st1))
            /\ (0 <= tolerance st ->
                (tolerance st1 = 0 <-> Improves loss vm st))))
  /\ (forall rs st,
         Forall (fun r => record_improves r st = false) rs ->
         tolerance (replay rs st) = tolerance st + Z.of_nat (length rs))
  /\ (forall r st,
         record_improves r st = true -> tolerance (apply_round st r) = 0).
Proof.
  split; [ | split].
  - intros epoch st w st1 w1 l B.
    destruct (epoch_body_spec _ _ _ _ _ _ _ B)
      as (_ & _ & _ & _ & [(G & F & U) | (G & loss & vm & tm & R & U & _)]).
    + split; [ | intro G0; contradiction].
      intros _. split; [exact F | ]. split; [ | exact U].
      apply eval_records_none.
      exact (Forall_impl _ not_evaluation_call_not_record F).
    + split; [intro G0; contradiction | ].
      intros _. exists loss, vm, tm. split; [exact R | ].
      assert (W : exists text,
                 json_dumps (snapshot epoch loss vm tm) = Ok text).
      { pose proof (dumped_printable _
                      (epoch_body_dumped args _ _ _ _ _ _ B)) as P.
        rewrite R in P. apply Forall_cons_iff in P.
        exact (printable_snapshot _ _ _ _ _ (proj1 P)). }
      pose proof (unchanged_update_best _ _ _ _ _ _ W U) as D.
      split; [exact D | ].
      intro P. destruct D as [(I & _ & _ & _ & T) | (I & _ & _ & _ & T)].
      * split; auto.
      * split; [intro Z0; lia | intro I0; contradiction].
  - intros rs st F. exact (proj2 (proj2 (proj2 (replay_non_improving rs st F)))).
  - intros [[[[e lo] vm] tm] t] st I. simpl in *.
    rewrite update_best_tolerance, I. reflexivity.
Qed.

(** C6, as the code has it.  Every learning rate that a run asks for
    at a period position is asked for at a position [Tcur] with
    [0 <= Tcur <= Ti], and the period length itself is reached in
    every period: under the cosine schedule, once
    [(2^k + k - 1) + 2^k] epochs are trained, the period state is
    [Tcur = Ti = 2^k]; the epoch trained next, the last one of the
    period of length [2^k], asks for every one of its learning rates
    at [Tcur = Ti], whether it completes or not, and when it completes
    the update at its end has restarted, with [Ti = 2^(k+1)] and
    [Tcur = 0]. *)
Theorem period_position_bounds :
  (forall w r w1 l,
      train_loop args w = (r, w1, l) ->
      Forall position_in_period l)
  /\ (is_cosine args = true ->
      forall k epochs st w1 w l epoch r w2 l2,
        epoch_loop args epochs (init_state args) w = (Ok st, w1, l) ->
        epochs_trained l = (period_start k + 2 ^ k)%nat ->
        epoch_body args epoch st w1 = (r, w2, l2) ->
        cyclic st
        = Some (mkCyclic (Z.of_nat (2 ^ k)) 2 (Z.of_nat (2 ^ k)))
        /\ Forall (at_period_end k) l2
        /\ (forall st1,
               r = Ok st1 ->
               cyclic st1 = Some (mkCyclic (Z.of_nat (2 ^ S k)) 2 0)))
  /\ (forall k,
         cyclic_after (period_start k + 2 ^ k) cyclic_init
         = Ok (mkCyclic (Z.of_nat (2 ^ k)) 2 (Z.of_nat (2 ^ k)))).
Proof.
  split; [ | split].
  - intros w r w1 l H. unfold train_loop in H.
    exact (epoch_loop_positions args _ _ _ _ _ _
             (init_state_CyclicInv args) H).
  - intros Cos k epochs st w1 w l epoch r w2 l2 H K B.
    destruct (epoch_loop_cyclic args epochs Cos (init_state args) O
                cyclic_init w st w1 l) as (c & S & A).
    { unfold init_state. simpl. rewrite Cos. reflexivity. }
    { reflexivity. }
    { exact H. }
    change (0 + epochs_trained l)%nat with (epochs_trained l) in A.
    rewrite K in A.
    rewrite (cyclic_after_in_period k (2 ^ k) (le_n _)) in A.
    injection A as <-.
    split; [exact S | ].
    destruct (epoch_body_spec _ _ _ _ _ _ _ B) as (_ & F & R).
    split.
    + exact (Forall_impl _ (fun c => lr_at_period_end st k c S) F).
    + intros st1 ->. destruct R as (CS & _).
      unfold CyclicStep in CS. rewrite Cos in CS.
      destruct CS as (c0 & c1 & E0 & U & E1).
      rewrite S in E0. injection E0 as <-.
      assert (P : (1 <= 2 ^ k)%nat) by (clear; induction k; simpl; lia).
      rewrite cosine_update_full in U by lia.
      injection U as <-. rewrite E1.
      f_equal. f_equal. simpl. lia.
  - intro k. exact (cyclic_after_in_period k (2 ^ k) (le_n _)).
Qed.

(** C8.  A run that completes, by early stopping or at the end of
    the range, ends with the print of [best_result]: the snapshot of
    the last round that improved, or [None] when no round improved on
    the initial best accuracy and loss. *)
Theorem final_output :
  (forall w w1 l,
      main args w = (Ok tt, w1, l) ->
      exists st body,
        train_loop args w = (Ok st, w1, body)
        /\ l = body ++ [CallPrint PrintDone;
                        CallPrint (PrintBest (best_result st))]
        /\ best_result st
           = best_result (replay (eval_records body) (init_state args))
        /\ (best_result st = None
            <-> Forall (fun r => record_improves r (init_state args) = false)
                       (eval_records body)))
  /\ (forall w st w1 body,
         train_loop args w = (Ok st, w1, body) ->
         main args w
         = (Ok tt, w1,
            body ++ [CallPrint PrintDone;
                     CallPrint (PrintBest (best_result st))])).
Proof.
  split.
  - intros w w1 l H. unfold main in H.
    apply bind_ok in H. destruct H as (st & w2 & body & l2 & T & H & ->).
    unfold bind, print in H. injection H as <- <-.
    exists st, body. split; [exact T | ]. split; [reflexivity | ].
    pose proof (epoch_loop_replay args _ _ _ _ _ _ T) as (U & _).
    split; [exact U | ].
    rewrite U. apply replay_none_iff; [ | reflexivity].
    exact (dumped_printable _ (epoch_loop_dumped args _ _ _ _ _ _ T)).
  - intros w st w1 body T. unfold main, bind, print. rewrite T.
    reflexivity.
Qed.

Lemma at_sentinel_no_improvement (r : EvalRecord) (st : RunState) :
  best_val_acc st = of_int 0 -> best_val_loss st = of_int 100000 ->
  at_sentinel r -> record_improves r st = false.
Proof.
  destruct r as [[[[e lo] vm] tm] t]. simpl. intros A L [E G].
  apply improved_false_iff. unfold Improves. rewrite A, L.
  intros [X | [_ X]].
  - exact (Eq_not_Gt _ _ E X).
  - exact (Ge_not_Lt _ _ G X).
Qed.

(** C9.  The best accuracy starts at [0] and the best loss at
    [100000], with no best result.  A round with accuracy [0] and a
    validation loss of [100000] or more is compared with them as any
    other: it leaves the best result as it is and adds one to the
    count.  When every round of a run is such a round, the run ends
    with no best result. *)
Theorem sentinel_comparison :
  (best_val_acc (init_state args) = of_int 0
   /\ best_val_loss (init_state args) = of_int 100000
   /\ best_result (init_state args) = None
   /\ tolerance (init_state args) = 0)
  /\ (forall epoch loss vm tm st,
         best_val_acc st = of_int 0 ->
         best_val_loss st = of_int 100000 ->
         Eq (accuracy vm) (of_int 0) ->
         Ge loss (of_int 100000) ->
         Kept st (update_best epoch loss vm tm st))
  /\ (forall w st w1 l,
         train_loop args w = (Ok st, w1, l) ->
         Forall at_sentinel (eval_records l) ->
         best_result st = None
         /\ tolerance st = Z.of_nat (length (eval_records l))
         /\ main args w
            = (Ok tt, w1,
               l ++ [CallPrint PrintDone; CallPrint (PrintBest None)])).
Proof.
  split; [repeat split | ]. split.
  - intros epoch loss vm tm st A L E G.
    pose proof (at_sentinel_no_improvement (epoch, loss, vm, tm, 0) st A L
                  (conj E G)) as I.
    simpl in I. unfold update_best, improvement_check. rewrite I.
    unfold Kept. simpl. auto.
  - intros w st w1 l T F.
    pose proof (epoch_loop_replay args _ _ _ _ _ _ T) as (U1 & _ & _ & U4).
    assert (N : Forall (fun r => record_improves r (init_state args) = false)
                       (eval_records l)).
    { apply (Forall_impl _ (fun r =>
               at_sentinel_no_improvement r (init_state args)
                 eq_refl eq_refl) F). }
    destruct (replay_non_improving _ _ N) as (R1 & _ & _ & R4).
    assert (B : best_result st = None) by (rewrite U1, R1; reflexivity).
    split; [exact B | ].
    split; [rewrite U4, R4; reflexivity | ].
    unfold main, bind, print. rewrite T, B. reflexivity.
Qed.

(** C10.  With [args.log_interval >= 1], [0 % args.log_interval] is
    [0]: epoch [0] is its training part followed by the evaluation
    round, which evaluates the validation and the test split and
    prints one record.  With at least one epoch to run and a
    tolerance that is not negative, the run starts with epoch [0]. *)
Theorem first_epoch_is_evaluated :
  1 <= args_log_interval args ->
  py_mod 0 (args_log_interval args) = Ok 0
  /\ (forall st w,
         epoch_body args 0 st w
         = bind (train_epoch args 0 st) (evaluation_round args 0) w)
  /\ (forall st w st1 w1 l,
         epoch_body args 0 st w = (Ok st1, w1, l) ->
         exists loss vm tm,
           eval_records l = [(0, loss, vm, tm, tolerance st1)]
           /\ In CallModelEval l
           /\ In (CallIterate val false (args_batch_size args)) l
           /\ In (CallIterate test false (args_batch_size args)) l)
  /\ (1 <= args_epochs args -> 0 <= args_tolerance args ->
      forall w,
        train_loop args w
        = bind (epoch_body args 0 (init_state args))
               (epoch_loop args (tl (range (args_epochs args)))) w).
Proof.
  intro L.
  assert (P : py_mod 0 (args_log_interval args) = Ok 0).
  { unfold py_mod. destruct (Z.eqb_spec (args_log_interval args) 0); [lia | ].
    rewrite Zmod_0_l. reflexivity. }
  split; [exact P | ]. split; [ | split].
  - intros st w. unfold epoch_body. rewrite P. unfold bind at 1 3.
    destruct (train_epoch args 0 st w) as [[[st1 | e] w2] l1];
      [ | reflexivity].
    unfold bind, lift. simpl.
    destruct (evaluation_round args 0 st1 w2) as [[r w3] l3]. reflexivity.
  - intros st w st1 w1 l B.
    destruct (epoch_body_spec _ _ _ _ _ _ _ B)
      as (_ & _ & _ & _ & [(G & _) | (_ & loss & vm & tm & R & _ & I)]).
    + exfalso. apply G. apply Zmod_0_l.
    + exists loss, vm, tm. split; [exact R | exact I].
  - intros E T w. unfold train_loop, range.
    destruct (Z.to_nat (args_epochs args)) as [ | k] eqn:K; [lia | ].
    simpl seq. simpl map. simpl tl. cbn [epoch_loop].
    change (tolerance (init_state args)) with 0.
    destruct (Z.gtb_spec 0 (args_tolerance args)); [lia | reflexivity].
Qed.

End Properties.

(** C5, as the code has it.  From [Ti = 1], [mult = 2], [Tcur = 0], the
    period of length [2^k] starts at epoch [2^k + k - 1] (0-based) and
    has [2^k + 1] epochs, at the positions [0] to [2^k]; the update
    restarts at the end of the last one and at no other.  So nothing
    restarts at the end of the first epoch, and the restarts come after
    epoch 1, then after 3 more epochs, then after 5 more, 9 more and
    17 more, with the period doubling from 1 to 2, 4, 8, 16 and 32. *)
Theorem warm_restart_schedule :
  (forall k j : nat,
      (j <= 2 ^ k)%nat ->
      cyclic_after (period_start k + j) cyclic_init
      = Ok (mkCyclic (Z.of_nat (2 ^ k)) 2 (Z.of_nat j))
      /\ restarts_at (period_start k + j) = (j =? 2 ^ k)%nat)
  /\ restarts_at 0 = false
  /\ restart_epochs 36 = [1; 4; 9; 18; 35]%nat
  /\ map (fun n => cyclic_after (S n) cyclic_init) [1; 4; 9; 18; 35]%nat
     = map (fun T => Ok (mkCyclic T 2 0)) [2; 4; 8; 16; 32].
Proof.
  split; [ | split; [reflexivity | split; vm_compute; reflexivity]].
  intros k j Hj.
  pose proof (cyclic_after_in_period k j Hj) as E.
  split; [exact E | ].
  unfold restarts_at. rewrite E. simpl.
  assert (P : (1 <= 2 ^ k)%nat) by (clear; induction k; simpl; lia).
  destruct (Nat.eqb_spec j (2 ^ k)) as [Q | Q].
  - rewrite Q, Z.mod_same by lia. simpl.
    destruct (Z.gtb_spec (Z.of_nat (2 ^ k)) 0); [reflexivity | lia].
  - destruct (Z.gtb_spec (Z.of_nat j) 0) as [G | G];
      [ | apply andb_false_r].
    rewrite Z.mod_small by lia.
    destruct (Z.eqb_spec (Z.of_nat j) 0); [lia | reflexivity].
Qed.

(** ** The properties at work: the scripted runs *)

Lemma best_result_replacement_witness :
  Replaced (C := scripted []) 7 (lit 40 100) (lit 80 100) (lit 70 100)
    (update_best (C := scripted []) 7 (lit 40 100) (lit 80 100) (lit 70 100)
       tie_state)
  /\ Kept tie_state
       (update_best (C := scripted []) 7 (lit 10 100) (lit 79 100)
          (lit 70 100) tie_state)
  /\ fst (improvement_check (C := scripted []) 7 S754_nan (lit 90 100)
            (lit 70 100) tie_state)
     = Err OverflowError
  /\ best_result
       (update_best (C := scripted []) 7 S754_nan (lit 90 100) (lit 70 100)
          tie_state)
     = best_result tie_state.
Proof.
  destruct (best_result_replacement (C := scripted []) scenario_args)
    as (A & _).
  split; [ | split].
  - destruct (json_dumps (C := scripted [])
                (snapshot (C := scripted []) 7 (lit 40 100) (lit 80 100)
                          (lit 70 100))) as [text | e] eqn:D.
    + apply (proj2 (proj1 (A 7 (lit 40 100) (lit 80 100) (lit 70 100)
                             tie_state)
                      ltac:(right; split; vm_compute; reflexivity) text D)).
    + vm_compute in D. discriminate D.
  - refine (proj2 (proj1 (proj2 (proj2 (A 7 (lit 10 100) (lit 79 100)
                                          (lit 70 100) tie_state))) _)).
    intros [H | [H _]]; vm_compute in H; discriminate H.
  - destruct (proj1 (proj2 (A 7 S754_nan (lit 90 100) (lit 70 100)
                              tie_state))
                ltac:(left; vm_compute; reflexivity) OverflowError
                ltac:(vm_compute; reflexivity))
      as (F1 & F2 & _).
    split; [exact F1 | exact F2].
Defined.

Lemma cosine_bookkeeping_witness :
  cosine_update (mkCyclic 2 2 2) = Ok (mkCyclic 4 2 0)
  /\ cosine_update (mkCyclic 2 2 1) = Ok (mkCyclic 2 2 2)
  /\ match epoch_body (C := scripted scenario_script) scenario_args 0
             (init_state scenario_args) O with
     | (Ok st1, _, l) =>
         cyclic st1 = Some (mkCyclic 1 2 1)
         /\ Forall (lr_at (init_state scenario_args)) l
     | _ => False
     end.
Proof.
  destruct (cosine_bookkeeping (C := scripted scenario_script) scenario_args)
    as (A & B & _).
  split; [ | split].
  - apply (proj1 (B (mkCyclic 2 2 2) ltac:(simpl; lia) ltac:(simpl; lia))).
    split; [reflexivity | simpl; lia].
  - apply (proj2 (B (mkCyclic 2 2 1) ltac:(simpl; lia) ltac:(simpl; lia))).
    intros [H _]. vm_compute in H. discriminate H.
  - assert (Returns :
              match epoch_body (C := scripted scenario_script) scenario_args 0
                (init_state scenario_args) O with
              | (Ok _, _, _) => True
              | _ => False
              end) by (vm_compute; exact I).
    destruct (epoch_body (C := scripted scenario_script) scenario_args 0
                (init_state scenario_args) O) as [[[st1 | e] w1] l] eqn:E.
    + destruct (A 0 (init_state scenario_args) O st1 w1 l eq_refl E)
        as (c & c1 & E1 & U & E2 & F).
      vm_compute in E1. injection E1 as <-.
      vm_compute in U. injection U as <-.
      split; [exact E2 | exact F].
    + exfalso. exact Returns.
Defined.

Lemma early_stopping_witness :
  epochs_trained (snd (train_loop (C := scripted scenario_script)
                         scenario_args O)) = 4%nat
  /\ rounds_since_improvement
       (eval_records (snd (train_loop (C := scripted scenario_script)
                             scenario_args O)))
       (init_state scenario_args) 0
     = 2%nat
  /\ (epochs_trained (snd (train_loop (C := scripted scenario_script)
                             scenario_args O)) <= 5)%nat
  /\ (rounds_since_improvement
        (eval_records (snd (train_loop (C := scripted scenario_script)
                              scenario_args O)))
        (init_state scenario_args) 0
      <= 2)%nat.
Proof.
  split; [vm_compute; reflexivity | ].
  split; [vm_compute; reflexivity | ].
  destruct (train_loop (C := scripted scenario_script) scenario_args O)
    as [[r w1] l] eqn:E.
  destruct (early_stopping (C := scripted scenario_script)
              scenario_args O r w1 l E) as (H1 & H2 & _).
  split; [exact H1 | exact H2].
Defined.

Lemma tolerance_accounting_witness :
  match epoch_body (C := scripted scenario_script) scenario_args 0
          (init_state scenario_args) O with
  | (Ok st1, _, l) =>
      exists loss vm tm,
        eval_records l = [(0, loss, vm, tm, tolerance st1)]
        /\ ((Improves loss vm (init_state scenario_args)
             /\ Replaced 0 loss vm tm st1)
            \/ (~ Improves loss vm (init_state scenario_args)
                /\ Kept (init_state scenario_args) st1))
  | _ => False
  end
  /\ match epoch_body (C := scripted scenario_script)
             (mkArgs 5 4 "cosine" 1 2) 1
             (init_state (mkArgs 5 4 "cosine" 1 2)) O with
     | (Ok st1, _, l) =>
         eval_records l = []
         /\ Unchanged (init_state (mkArgs 5 4 "cosine" 1 2)) st1
     | _ => False
     end.
Proof.
  split.
  - assert (Returns :
              match epoch_body (C := scripted scenario_script) scenario_args 0
                (init_state scenario_args) O with
              | (Ok _, _, _) => True
              | _ => False
              end) by (vm_compute; exact I).
    destruct (epoch_body (C := scripted scenario_script) scenario_args 0
                (init_state scenario_args) O) as [[[st1 | e] w1] l] eqn:E.
    + destruct (proj2 (proj1 (tolerance_accounting
                                (C := scripted scenario_script) scenario_args)
                         0 (init_state scenario_args) O st1 w1 l E) eq_refl)
        as (loss & vm & tm & R & D & _).
      exists loss, vm, tm. split; [exact R | exact D].
    + exfalso. exact Returns.
  - assert (Returns :
              match epoch_body (C := scripted scenario_script)
                (mkArgs 5 4 "cosine" 1 2) 1 (init_state
                (mkArgs 5 4 "cosine" 1 2)) O with
              | (Ok _, _, _) => True
              | _ => False
              end) by (vm_compute; exact I).
    destruct (epoch_body (C := scripted scenario_script)
                (mkArgs 5 4 "cosine" 1 2) 1
                (init_state (mkArgs 5 4 "cosine" 1 2)) O)
      as [[[st1 | e] w1] l] eqn:E.
    + destruct (proj1 (proj1 (tolerance_accounting
                                (C := scripted scenario_script)
                                (mkArgs 5 4 "cosine" 1 2))
                         1 (init_state (mkArgs 5 4 "cosine" 1 2))
                         O st1 w1 l E) ltac:(vm_compute; discriminate))
        as (_ & R & U).
      split; [exact R | exact U].
    + exfalso. exact Returns.
Defined.

Lemma warm_restart_schedule_witness :
  cyclic_after 9 cyclic_init = Ok (mkCyclic 4 2 4)
  /\ restarts_at 9 = true.
Proof.
  exact (proj1 warm_restart_schedule 2%nat 4%nat ltac:(simpl; lia)).
Defined.

(** C5, as the specification words it: a restart after epoch 1, after 3 more
    epochs and after 7 more.  The third restart comes after 5 more
    epochs, at the end of epoch 9; nothing restarts at the end of epoch
    11, nor of epoch 7. *)
Lemma warm_restart_third_gap :
  ~ (restarts_at 1 = true
     /\ restarts_at (1 + 3) = true
     /\ restarts_at (1 + 3 + 7) = true)
  /\ restarts_at 7 = false
  /\ restart_epochs 12 = [1; 4; 9]%nat.
Proof.
  split; [ | split; vm_compute; reflexivity].
  intros (_ & _ & H). vm_compute in H. discriminate H.
Qed.

Lemma period_position_bounds_witness :
  match epoch_loop (C := scripted scenario_script) scenario_args [0]
          (init_state scenario_args) O with
  | (Ok st, w1, _) =>
      Forall (at_period_end (C := scripted scenario_script) 0)
        (snd (epoch_body (C := scripted scenario_script) scenario_args 1
                st w1))
  | _ => False
  end.
Proof.
  assert (K : match epoch_loop (C := scripted scenario_script) scenario_args
                      [0] (init_state scenario_args) O with
              | (Ok _, _, l) => epochs_trained l = 1%nat
              | _ => False
              end).
  { vm_compute. reflexivity. }
  destruct (epoch_loop (C := scripted scenario_script) scenario_args [0]
              (init_state scenario_args) O)
    as [[[st | e] w1] l] eqn:E; [ | exact K].
  destruct (epoch_body (C := scripted scenario_script) scenario_args 1 st w1)
    as [[r w2] l2] eqn:B.
  exact (proj1 (proj2 (proj1 (proj2 (period_position_bounds
                                       (C := scripted scenario_script)
                                       scenario_args))
                         eq_refl 0%nat [0] st w1 O l 1 r w2 l2 E K B))).
Defined.

(** C6, as the specification words it: every position below the period
    length.
    The second epoch of the scripted run asks for its learning rate at
    [Tcur = 1] with [Ti = 1]. *)
Lemma position_reaches_period_length :
  ~ (forall (C : Collaborators) (args : Args) w r w1 l,
        train_loop (C := C) args w = (r, w1, l) ->
        Forall position_below_period l).
Proof.
  intro H.
  pose (run := train_loop (C := scripted scenario_script) scenario_args O).
  assert (E : run = (fst (fst run), snd (fst run), snd run)).
  { destruct run as [[r w1] l]. reflexivity. }
  apply (H (scripted scenario_script)) in E.
  apply lr_positions_below in E.
  assert (K : lr_positions (snd run) = [(0, 1); (1, 1); (0, 2); (1, 2)]).
  { vm_compute. reflexivity. }
  rewrite K in E.
  inversion E as [ | p1 l1 _ E1]. inversion E1 as [ | p2 l2 P _].
  simpl in P. lia.
Qed.

Lemma evaluate_pass_witness :
  Forall (fun c => is_training_call (C := scripted scenario_script) c = false)
    (snd (evaluate (C := scripted scenario_script) 4 val 1%nat))
  /\ exists loss metric,
       fst (fst (evaluate (C := scripted scenario_script) 4 val 1%nat))
       = Ok (loss, metric).
Proof.
  destruct (evaluate (C := scripted scenario_script) 4 val 1%nat)
    as [[r w1] l] eqn:E.
  destruct (evaluate_pass (C := scripted scenario_script) scenario_args
              4 val 1%nat r w1 l E) as (_ & H2 & _ & H4 & _).
  split; [exact H2 | ].
  apply (H4 ltac:(discriminate)
            (fun ids w => ex_intro _ _ (ex_intro _ _ eq_refl))
            (fun p t w => ex_intro _ _ (ex_intro _ _ eq_refl))
            (fun a p w => ex_intro _ _ (ex_intro _ _ eq_refl))
            [(tt, tt, zero)] 1%nat eq_refl ltac:(discriminate)).
Defined.

Lemma final_output_witness :
  match main (C := scripted scenario_script) scenario_args O with
  | (Ok _, w1, l) =>
      exists st body,
        train_loop (C := scripted scenario_script) scenario_args O
        = (Ok st, w1, body)
        /\ l = body ++ [CallPrint PrintDone;
                        CallPrint (PrintBest (best_result st))]
  | _ => False
  end.
Proof.
  assert (Returns :
            match main (C := scripted scenario_script) scenario_args O with
            | (Ok _, _, _) => True
            | _ => False
            end) by (vm_compute; exact I).
  destruct (main (C := scripted scenario_script) scenario_args O)
    as [[[[] | e] w1] l] eqn:E.
  - destruct (proj1 (final_output (C := scripted scenario_script)
                       scenario_args) O w1 l E)
      as (st & body & T & L & _).
    exists st, body. split; [exact T | exact L].
  - exfalso. exact Returns.
Defined.

Lemma sentinel_comparison_witness :
  match train_loop (C := scripted flat_script) flat_args O with
  | (Ok st, _, l) =>
      best_result st = None
      /\ tolerance st = 2
  | _ => False
  end.
Proof.
  assert (Returns : match train_loop (C := scripted flat_script)
                            flat_args O with
                    | (Ok _, _, _) => True
                    | _ => False
                    end) by (vm_compute; exact I).
  assert (F : Forall (at_sentinel (C := scripted flat_script))
                (eval_records
                   (snd (train_loop (C := scripted flat_script)
                           flat_args O)))).
  { remember (eval_records
                (snd (train_loop (C := scripted flat_script) flat_args O)))
      as rs eqn:R.
    vm_compute in R. subst rs.
    repeat (constructor; [vm_compute; auto | ]). constructor. }
  assert (N : Z.of_nat
                (length
                   (eval_records
                      (snd (train_loop (C := scripted flat_script)
                              flat_args O)))) = 2).
  { vm_compute. reflexivity. }
  destruct (train_loop (C := scripted flat_script) flat_args O)
    as [[[st | e] w1] l] eqn:E; [ | exfalso; exact Returns].
  simpl snd in F, N.
  destruct (proj2 (proj2 (sentinel_comparison (C := scripted flat_script)
                            flat_args)) O st w1 l E F) as (B & T & _).
  split; [exact B | ].
  rewrite T. exact N.
Defined.

Lemma first_epoch_is_evaluated_witness :
  py_mod 0 (args_log_interval scenario_args) = Ok 0
  /\ train_loop (C := scripted scenario_script) scenario_args O
     = bind (C := scripted scenario_script)
            (epoch_body scenario_args 0 (init_state scenario_args))
            (epoch_loop scenario_args (tl (range 5))) O.
Proof.
  destruct (first_epoch_is_evaluated (C := scripted scenario_script)
              scenario_args ltac:(simpl; lia)) as (P & _ & _ & T).
  split; [exact P | ].
  assert (E : 1 <= args_epochs scenario_args) by (simpl; lia).
  assert (G : 0 <= args_tolerance scenario_args) by (simpl; lia).
  exact (T E G O).
Defined.

(** ** More facts on the order of the floats *)

Lemma SFcompare_finite_pos (m1 m2 : positive) (e1 e2 : Z) (c : comparison) :
  match e1 ?= e2 with
  | Datatypes.Lt => Datatypes.Lt
  | Datatypes.Gt => Datatypes.Gt
  | Datatypes.Eq => Pos.compare_cont Datatypes.Eq m1 m2
  end = c ->
  match c with
  | Datatypes.Lt => e1 < e2 \/ (e1 = e2 /\ (Zpos m1 < Zpos m2))
  | Datatypes.Eq => e1 = e2 /\ m1 = m2
  | Datatypes.Gt => e2 < e1 \/ (e1 = e2 /\ (Zpos m2 < Zpos m1))
  end.
Proof.
  change (Pos.compare_cont Datatypes.Eq m1 m2) with (Pos.compare m1 m2).
  destruct (Z.compare_spec e1 e2) as [E | E | E]; intros <-.
  - destruct (Pos.compare_spec m1 m2) as [M | M | M].
    + auto.
    + right. split; [exact E | lia].
    + right. split; [exact E | lia].
  - left. exact E.
  - left. exact E.
Qed.

Lemma Lt_key (x y : float) :
  Lt x y <->
  exists a b, float_key x = Some a /\ float_key y = Some b /\ key_lt a b.
Proof.
  unfold Lt.
  split.
  - destruct x as [sx | sx | | sx mx ex], y as [sy | sy | | sy my ey];
      simpl; try discriminate;
      try (destruct sx); try (destruct sy); simpl; try discriminate;
      intro H;
      try (eexists _, _; split; [reflexivity | split; [reflexivity | ]];
           simpl; lia).
    + injection H as H. 
      pose proof (SFcompare_finite_pos mx my ex ey) as P.
      destruct (ex ?= ey); simpl in H;
      [ specialize (P _ eq_refl) | specialize (P _ eq_refl) | specialize (P _ eq_refl)];
      eexists _, _; (split; [reflexivity | split; [reflexivity | ]]); simpl.
      * destruct (Pos.compare_cont Datatypes.Eq mx my) eqn:Q; simpl in H; try discriminate H; simpl in P; lia.
      * discriminate H.
      * simpl in P. lia.
    + injection H as H.
      pose proof (SFcompare_finite_pos mx my ex ey) as P.
      destruct (ex ?= ey); simpl in H;
      [ specialize (P _ eq_refl) | specialize (P _ eq_refl) | specialize (P _ eq_refl)];
      eexists _, _; (split; [reflexivity | split; [reflexivity | ]]); simpl.
      * destruct (Pos.compare_cont Datatypes.Eq mx my) eqn:Q; simpl in H; try discriminate H; simpl in P; lia.
      * simpl in P. lia.
      * discriminate H.
  - intros (a & b & A & B & K).
    destruct x as [sx | sx | | sx mx ex], y as [sy | sy | | sy my ey];
      simpl in *; try discriminate;
      try (destruct sx); try (destruct sy); simpl in *;
      try discriminate;
      injection A as <-; injection B as <-; simpl in K;
      try reflexivity; try (exfalso; lia).
    + f_equal.
      destruct (Z.compare_spec ex ey) as [E | E | E]; try reflexivity;
        try (exfalso; lia).
      change (Pos.compare_cont Datatypes.Eq mx my) with (Pos.compare mx my).
      destruct (Pos.compare_spec mx my) as [M | M | M]; simpl;
        try reflexivity; exfalso; lia.
    + f_equal.
      destruct (Z.compare_spec ex ey) as [E | E | E]; try reflexivity;
        try (exfalso; lia).
      change (Pos.compare_cont Datatypes.Eq mx my) with (Pos.compare mx my).
      destruct (Pos.compare_spec mx my) as [M | M | M]; simpl;
        try reflexivity; exfalso; lia.
Qed.

Lemma Eq_key (x y : float) :
  Eq x y <-> exists a, float_key x = Some a /\ float_key y = Some a.
Proof.
  unfold Eq. split.
  - destruct x as [sx | sx | | sx mx ex], y as [sy | sy | | sy my ey];
      simpl; try discriminate;
      try (destruct sx); try (destruct sy); simpl; try discriminate;
      intro H; try (eexists; split; reflexivity);
      injection H as H;
      pose proof (SFcompare_finite_pos mx my ex ey) as P;
      destruct (ex ?= ey); simpl in H; try discriminate H;
      specialize (P _ eq_refl);
      destruct (Pos.compare_cont Datatypes.Eq mx my) eqn:Q; simpl in H;
      try discriminate H; simpl in P; destruct P as [-> ->];
      eexists; split; reflexivity.
  - intros (a & A & B).
    assert (K : float_key x = float_key y) by congruence.
    clear A.
    destruct x as [sx | sx | | sx mx ex], y as [sy | sy | | sy my ey];
      simpl in *; try discriminate;
      try (destruct sx); try (destruct sy); simpl in *;
      try discriminate; try reflexivity;
      inversion K; subst;
      try (exfalso; lia).
    + assert (ex = ey) by lia. subst.
      rewrite Z.compare_refl.
      change (Pos.compare_cont Datatypes.Eq my my) with (Pos.compare my my).
      rewrite Pos.compare_refl. reflexivity.
    + rewrite Z.compare_refl.
      change (Pos.compare_cont Datatypes.Eq my my) with (Pos.compare my my).
      rewrite Pos.compare_refl. reflexivity.
Qed.

Lemma key_lt_trans a b c : key_lt a b -> key_lt b c -> key_lt a c.
Proof.
  destruct a as [[a1 a2] a3], b as [[b1 b2] b3], c as [[c1 c2] c3].
  unfold key_lt. lia.
Qed.

Lemma key_lt_irrefl a : ~ key_lt a a.
Proof. destruct a as [[a1 a2] a3]. unfold key_lt. lia. Qed.

Lemma Lt_trans (x y z : float) : Lt x y -> Lt y z -> Lt x z.
Proof.
  rewrite !Lt_key. intros (a & b & A & B & K) (b' & c & B' & D & K').
  rewrite B in B'. injection B' as <-.
  exists a, c. split; [exact A | split; [exact D | ]].
  exact (key_lt_trans _ _ _ K K').
Qed.

Lemma Eq_Lt (x y z : float) : Eq x y -> Lt y z -> Lt x z.
Proof.
  rewrite Eq_key, !Lt_key. intros (a & A & B) (b' & c & B' & D & K).
  rewrite B in B'. injection B' as <-.
  exists a, c. auto.
Qed.

Lemma Lt_Eq (x y z : float) : Lt x y -> Eq y z -> Lt x z.
Proof.
  rewrite Eq_key, !Lt_key. intros (a & b & A & B & K) (b' & B' & D).
  rewrite B in B'. injection B' as <-.
  exists a, b. auto.
Qed.

Lemma Eq_trans (x y z : float) : Eq x y -> Eq y z -> Eq x z.
Proof.
  rewrite !Eq_key. intros (a & A & B) (b & B' & D).
  rewrite B in B'. injection B' as <-. exists a. auto.
Qed.

Lemma Eq_sym (x y : float) : Eq x y -> Eq y x.
Proof. rewrite !Eq_key. intros (a & A & B). exists a. auto. Qed.

Lemma Lt_irrefl (x : float) : ~ Lt x x.
Proof.
  rewrite Lt_key. intros (a & b & A & B & K).
  rewrite A in B. injection B as <-. exact (key_lt_irrefl a K).
Qed.

Lemma Lt_not_nan (x y : float) : Lt x y -> x <> S754_nan /\ y <> S754_nan.
Proof.
  rewrite Lt_key. intros (a & b & A & B & _).
  split; intros ->; discriminate.
Qed.

Lemma Eq_not_nan (x y : float) : Eq x y -> x <> S754_nan /\ y <> S754_nan.
Proof.
  rewrite Eq_key. intros (a & A & B).
  split; intros ->; discriminate.
Qed.

(** ** Startup *)

Lemma in_keys_In (key : string) (keys : list string) :
  in_keys key keys = true <-> In key keys.
Proof.
  unfold in_keys. rewrite existsb_exists. split.
  - intros (k & I & E). apply String.eqb_eq in E. subst. exact I.
  - intro I. exists key. split; [exact I | apply String.eqb_refl].
Qed.

Lemma parse_args_cases (prep_keys aggregator_keys : list string)
                        (ns : Namespace) :
  (In (ns_prep_class ns) prep_keys
   /\ In (ns_aggregator_class ns) aggregator_keys
   /\ 1 < ns_batch_size ns
   /\ parse_args prep_keys aggregator_keys ns = Ok (set_cuda ns))
  \/ (~ (In (ns_prep_class ns) prep_keys
         /\ In (ns_aggregator_class ns) aggregator_keys
         /\ 1 < ns_batch_size ns)
      /\ parse_args prep_keys aggregator_keys ns = Err AssertionError).
Proof.
  unfold parse_args.
  change (ns_prep_class (set_cuda ns)) with (ns_prep_class ns).
  change (ns_aggregator_class (set_cuda ns))
    with (ns_aggregator_class ns).
  change (ns_batch_size (set_cuda ns)) with (ns_batch_size ns).
  destruct (in_keys (ns_prep_class ns) prep_keys) eqn:P; simpl.
  - destruct (in_keys (ns_aggregator_class ns) aggregator_keys) eqn:A;
      simpl.
    + destruct (Z.gtb_spec (ns_batch_size ns) 1) as [B | B]; simpl.
      * left. rewrite <- !in_keys_In. auto.
      * right. split; [lia | reflexivity].
    + right. split; [ | reflexivity].
      intros (_ & I & _). apply in_keys_In in I. congruence.
  - right. split; [ | reflexivity].
    intros (I & _). apply in_keys_In in I. congruence.
Qed.

Lemma dict_get_mp_index (problem : string) :
  dict_get mp_index problem
  = if String.eqb problem "dblp" then Some ["APA"; "APAPA"; "APCPA"]%string
    else if String.eqb problem "yelp" then Some ["BRURB"; "BRKRB"]%string
    else if String.eqb problem "yago" then Some ["MAM"; "MDM"; "MWM"]%string
    else None.
Proof. reflexivity. Qed.

(** X2.  [mp_index[args.problem]] is there for the problems [dblp],
    [yelp] and [yago] only, with two or three schemes; for every other
    problem it is a missing key.  [parse_args] does not check the
    problem, and its default, [freebase], is such a missing key. *)
Theorem schemes_of_known_problems :
  (forall ns,
      (exists schemes,
          schemes_of ns = Some schemes
          /\ (2 <= length schemes <= 3)%nat)
      <-> In (ns_problem ns) ["dblp"; "yelp"; "yago"]%string)
  /\ (forall ns, schemes_of ns = None
                 <-> ~ In (ns_problem ns) ["dblp"; "yelp"; "yago"]%string)
  /\ (forall prep_keys aggregator_keys ns ns1,
         parse_args prep_keys aggregator_keys ns = Ok ns1 ->
         schemes_of ns1 = schemes_of ns)
  /\ schemes_of default_namespace = None.
Proof.
  assert (K : forall ns,
             (In (ns_problem ns) ["dblp"; "yelp"; "yago"]%string
              /\ exists schemes, schemes_of ns = Some schemes
                                 /\ (2 <= length schemes <= 3)%nat)
             \/ (~ In (ns_problem ns) ["dblp"; "yelp"; "yago"]%string
                 /\ schemes_of ns = None)).
  { intro ns. unfold schemes_of. rewrite dict_get_mp_index.
    destruct (String.eqb_spec (ns_problem ns) "dblp") as [E1 | E1].
    { left. split; [left; auto | eexists; split; [reflexivity | simpl; lia]]. }
    destruct (String.eqb_spec (ns_problem ns) "yelp") as [E2 | E2].
    { left. split; [right; left; auto
                   | eexists; split; [reflexivity | simpl; lia]]. }
    destruct (String.eqb_spec (ns_problem ns) "yago") as [E3 | E3].
    { left. split; [right; right; left; auto
                   | eexists; split; [reflexivity | simpl; lia]]. }
    right. split; [ | reflexivity].
    intros [H | [H | [H | []]]]; congruence. }
  split; [ | split; [ | split; [ | reflexivity]]].
  - intro ns. destruct (K ns) as [(I & S) | (N & S)].
    + split; auto.
    + split; [ | intro I; contradiction].
      intros (s & E & _). congruence.
  - intro ns. destruct (K ns) as [(I & s & S & _) | (N & S)].
    + split; [congruence | intro N; contradiction].
    + split; auto.
  - intros pk ak ns ns1 H.
    destruct (parse_args_cases pk ak ns) as [(_ & _ & _ & E) | (_ & E)];
      rewrite E in H; [ | discriminate H].
    injection H as <-. reflexivity.
Qed.

(** ** The calls of the training part *)

Section TrainCallsFacts.

Context {C : Collaborators}.
Variable args : Args.

(** [train_step], call by call. *)
Lemma train_step_cases ids targets w r w1 l :
  train_step ids targets w = (r, w1, l) ->
  (exists preds wts loss wa wb wc wd,
      optimizer_zero_grad w = (Ok tt, wa)
      /\ model ids true wa = (Ok (preds, wts), wb)
      /\ problem_loss_fn preds (squeeze targets) wb = (Ok loss, wc)
      /\ backward loss wc = (Ok tt, wd)
      /\ optimizer_step wd = (Ok tt, w1)
      /\ r = Ok (loss, preds)
      /\ l = step_calls ids targets preds loss)
  \/ (exists e,
         r = Err e
         /\ (l = [CallZeroGrad]
             \/ l = [CallZeroGrad; CallModel ids true]
             \/ (exists preds,
                    l = [CallZeroGrad; CallModel ids true;
                         CallLossFn preds (squeeze targets)])
             \/ (exists preds loss,
                    l = [CallZeroGrad; CallModel ids true;
                         CallLossFn preds (squeeze targets);
                         CallBackward loss])
             \/ (exists preds loss, l = step_calls ids targets preds loss))).
Proof.
  unfold train_step. intro H.
  destruct (bind_inv _ _ _ _ _ _ H)
    as [([] & wa & l1 & l2 & Z1 & H2 & ->) | (e & Z1 & ->)];
    apply call_inv in Z1; destruct Z1 as [Z1 ->]; clear H.
  2:{ right. exists e. auto. }
  destruct (bind_inv _ _ _ _ _ _ H2)
    as [([preds wts] & wb & l3 & l4 & M1 & H3 & ->) | (e & M1 & ->)];
    apply call_inv in M1; destruct M1 as [M1 ->]; clear H2.
  2:{ right. exists e. auto. }
  destruct (bind_inv _ _ _ _ _ _ H3)
    as [(loss & wc & l5 & l6 & L1 & H4 & ->) | (e & L1 & ->)];
    apply call_inv in L1; destruct L1 as [L1 ->]; clear H3.
  2:{ right. exists e. split; [reflexivity | ].
      right. right. left. exists preds. reflexivity. }
  destruct (bind_inv _ _ _ _ _ _ H4)
    as [([] & wd & l7 & l8 & B1 & H5 & ->) | (e & B1 & ->)];
    apply call_inv in B1; destruct B1 as [B1 ->]; clear H4.
  2:{ right. exists e. split; [reflexivity | ].
      right. right. right. left. exists preds, loss. reflexivity. }
  destruct (bind_inv _ _ _ _ _ _ H5)
    as [([] & we & l9 & l10 & S1 & H6 & ->) | (e & S1 & ->)];
    apply call_inv in S1; destruct S1 as [S1 ->]; clear H5.
  2:{ right. exists e. split; [reflexivity | ].
      right. right. right. right. exists preds, loss. reflexivity. }
  injection H6 as <- <- <-.
  left. exists preds, wts, loss, wa, wb, wc, wd.
  repeat split; assumption.
Qed.

Lemma set_batch_lr_ok epoch st p w u w1 l :
  set_batch_lr args epoch st p w = (Ok u, w1, l) ->
  l = lr_calls args epoch st p
  /\ (is_cosine args = true -> cyclic st <> None).
Proof.
  unfold set_batch_lr, lr_calls. destruct (is_cosine args).
  - destruct (cyclic st) as [c | ]; [ | discriminate].
    intro H. split; [ | discriminate].
    apply bind_ok in H. destruct H as (lr & w2 & l1 & l2 & H1 & H & ->).
    apply call_inv in H1. destruct H1 as [H1 ->]. injection H1 as <- <-.
    apply bind_ok in H. destruct H as (u1 & w3 & l3 & l4 & H1 & H & ->).
    apply call_inv in H1. destruct H1 as [_ ->].
    unfold print in H. injection H as _ _ <-. reflexivity.
  - unfold set_progress. intro H. split; [ | discriminate].
    apply bind_ok in H. destruct H as (lr & w2 & l1 & l2 & H1 & H & ->).
    apply call_inv in H1. destruct H1 as [H1 ->]. injection H1 as <- <-.
    apply call_inv in H. destruct H as [_ ->]. reflexivity.
Qed.

Lemma train_batch_ok epoch st train_loss b w train_loss1 w1 l :
  train_batch args epoch st train_loss b w = (Ok train_loss1, w1, l) ->
  exists preds loss,
    train_loss1 = add train_loss (item loss)
    /\ l = train_batch_calls args epoch st (b, (preds, loss)).
Proof.
  destruct b as [[ids targets] p]. unfold train_batch. intro H.
  apply bind_ok in H. destruct H as (u & w2 & l1 & l2 & H1 & H & ->).
  apply set_batch_lr_ok in H1. destruct H1 as [-> _].
  apply bind_ok in H.
  destruct H as ([loss preds] & w3 & l3 & l4 & H1 & H & ->).
  destruct (train_step_cases _ _ _ _ _ _ H1)
    as [(preds0 & wts & loss0 & wa & wb & wc & wd & _ & _ & _ & _ & _ & E & ->)
       | (e & E & _)]; [ | discriminate E].
  injection E as <- <-.
  apply bind_ok in H. destruct H as (m & w4 & l5 & l6 & H1' & H & ->).
  apply call_inv in H1'. destruct H1' as [_ ->].
  injection H as <- _ <-.
  exists preds, loss. split; [reflexivity | ].
  unfold train_batch_calls. rewrite <- ?app_assoc.
  rewrite ?app_nil_r. reflexivity.
Qed.

(** The loop over the training batches, when every call returns. *)
Lemma train_loop_ok epoch st (batches : list Batch) :
  forall train_loss w train_loss1 w1 l,
    for_each (train_batch args epoch st) batches train_loss w
    = (Ok train_loss1, w1, l) ->
    exists results : list (Preds * Loss),
      length results = length batches
      /\ train_loss1
         = fold_left add (map (fun x => item (snd x)) results) train_loss
      /\ l = flat_map (train_batch_calls args epoch st)
                      (combine batches results).
Proof.
  induction batches as [ | b rest IH]; intros tl w tl1 w1 l H.
  - simpl in H. injection H as <- <- <-. exists []. auto.
  - simpl in H. apply bind_ok in H.
    destruct H as (tl2 & w2 & l1 & l2 & H1 & H2 & ->).
    apply train_batch_ok in H1. destruct H1 as (preds & loss & -> & ->).
    apply IH in H2. destruct H2 as (results & L & -> & ->).
    exists ((preds, loss) :: results). simpl.
    split; [congruence | split; reflexivity].
Qed.

Lemma optimizer_steps_app (l1 l2 : list Call) :
  optimizer_steps (l1 ++ l2) = (optimizer_steps l1 + optimizer_steps l2)%nat.
Proof.
  unfold optimizer_steps. rewrite filter_app, length_app. reflexivity.
Qed.

Lemma lr_calls_no_step epoch st p :
  optimizer_steps (lr_calls args epoch st p) = O.
Proof.
  unfold lr_calls. destruct (is_cosine args); [ | reflexivity].
  destruct (cyclic st); reflexivity.
Qed.

Lemma train_batch_calls_steps epoch st (batches : list Batch) :
  forall results : list (Preds * Loss),
    length results = length batches ->
    optimizer_steps (flat_map (train_batch_calls args epoch st)
                              (combine batches results))
    = length batches.
Proof.
  induction batches as [ | b rest IH]; intros results L.
  - reflexivity.
  - destruct results as [ | [preds loss] results]; [discriminate L | ].
    simpl. destruct b as [[ids targets] p].
    unfold train_batch_calls at 1.
    rewrite !optimizer_steps_app, lr_calls_no_step.
    rewrite IH by (simpl in L; congruence). reflexivity.
Qed.

Lemma train_records_app (l1 l2 : list Call) :
  train_records (l1 ++ l2) = train_records l1 ++ train_records l2.
Proof.
  induction l1 as [ | c l1 IH]; [reflexivity | ].
  destruct c as [ | | | | | | | | | | | | o]; simpl; try exact IH.
  destruct o; simpl; try exact IH. rewrite IH. reflexivity.
Qed.

Lemma train_records_none (l : list Call) :
  Forall (fun c => forall e x, c <> CallPrint (PrintTrain e x)) l ->
  train_records l = [].
Proof.
  induction 1 as [ | c l Hc _ IH]; [reflexivity | ].
  destruct c as [ | | | | | | | | | | | | o]; simpl; try exact IH.
  destruct o; simpl; try exact IH.
  exfalso. eapply Hc. reflexivity.
Qed.

Lemma train_batch_calls_records epoch st
      (xs : list (Batch * (Preds * Loss))) :
  train_records (flat_map (train_batch_calls args epoch st) xs) = [].
Proof.
  induction xs as [ | [[[ids targets] p] [preds loss]] xs IH];
    [reflexivity | ].
  simpl. rewrite !train_records_app, IH.
  unfold lr_calls. destruct (is_cosine args); [ | reflexivity].
  destruct (cyclic st); reflexivity.
Qed.

(** A completed training part, call by call. *)
Lemma train_epoch_shape epoch st w st1 w1 l :
  train_epoch args epoch st w = (Ok st1, w1, l) ->
  exists wa batches wb (results : list (Preds * Loss)),
    model_train w = (Ok tt, wa)
    /\ problem_iterate train true (args_batch_size args) wa
       = (Ok batches, wb)
    /\ length results = length batches
    /\ l = CallModelTrain
           :: CallIterate train true (args_batch_size args)
           :: flat_map (train_batch_calls args epoch st)
                       (combine batches results)
           ++ [CallPrint
                 (PrintTrain epoch
                    (fold_left add (map (fun x => item (snd x)) results)
                               zero))].
Proof.
  unfold train_epoch. intro H.
  apply bind_ok in H. destruct H as ([] & wa & l1 & l2 & H1 & H & ->).
  apply call_inv in H1. destruct H1 as [H1 ->].
  apply bind_ok in H. destruct H as (batches & wb & l3 & l4 & H2 & H & ->).
  apply call_inv in H2. destruct H2 as [H2 ->].
  apply bind_ok in H. destruct H as (tl & w3 & l5 & l6 & H3 & H & ->).
  apply train_loop_ok in H3. destruct H3 as (results & L & -> & ->).
  apply bind_ok in H. destruct H as (u & w4 & l7 & l8 & H4 & H & ->).
  unfold print_train_record in H4.
  destruct (print_json_inv _ _ _ _ _ _ H4)
    as (-> & [(text & _ & _ & ->) | (e & _ & E & _)]); [ | discriminate E].
  apply update_cyclic_ok in H. destruct H as (_ & _ & -> & ->).
  exists wa, batches, wb, results.
  split; [exact H1 | ]. split; [exact H2 | ]. split; [exact L | ].
  simpl. rewrite ?app_nil_r. reflexivity.
Qed.

(** X4.  A training part that completes puts the model in training
    mode, iterates the training split once, shuffled, in batches of
    [args.batch_size], and for every batch in order sets the learning
    rate, makes one [train_step] and computes the training metric; it
    makes one optimizer step per batch and prints, once, the losses of
    the batches added in order from zero.  With no batch it prints a
    loss of zero and makes no step. *)
Theorem train_epoch_protocol :
  forall epoch st w st1 w1 l,
    train_epoch args epoch st w = (Ok st1, w1, l) ->
    exists wa batches wb (results : list (Preds * Loss)),
      model_train w = (Ok tt, wa)
      /\ problem_iterate train true (args_batch_size args) wa
         = (Ok batches, wb)
      /\ length results = length batches
      /\ l = CallModelTrain
             :: CallIterate train true (args_batch_size args)
             :: flat_map (train_batch_calls args epoch st)
                         (combine batches results)
             ++ [CallPrint
                   (PrintTrain epoch
                      (fold_left add (map (fun x => item (snd x)) results)
                                 zero))]
      /\ optimizer_steps l = length batches
      /\ train_records l
         = [(epoch,
             fold_left add (map (fun x => item (snd x)) results) zero)]
      /\ (batches = [] ->
          l = [CallModelTrain;
               CallIterate train true (args_batch_size args);
               CallPrint (PrintTrain epoch zero)]).
Proof.
  intros epoch st w st1 w1 l H.
  destruct (train_epoch_shape _ _ _ _ _ _ H)
    as (wa & batches & wb & results & H1 & H2 & L & ->).
  exists wa, batches, wb, results.
  split; [exact H1 | ]. split; [exact H2 | ]. split; [exact L | ].
  split; [reflexivity | ]. split; [ | split].
  - change (CallModelTrain :: CallIterate train true (args_batch_size args)
            :: ?x)
      with ([CallModelTrain; CallIterate train true (args_batch_size args)]
            ++ x).
    rewrite !optimizer_steps_app, train_batch_calls_steps by exact L.
    unfold optimizer_steps. simpl. apply Nat.add_0_r.
  - change (CallModelTrain :: CallIterate train true (args_batch_size args)
            :: ?x)
      with ([CallModelTrain; CallIterate train true (args_batch_size args)]
            ++ x).
    rewrite !train_records_app, train_batch_calls_records. reflexivity.
  - intros ->. destruct results; [reflexivity | discriminate L].
Qed.

End TrainCallsFacts.

(** ** The calls of the loop *)

Section LoopCallsFacts.

Context {C : Collaborators}.
Variable args : Args.

Lemma train_epoch_part epoch st :
  logs (fun c => is_train_part_call args c = true) (train_epoch args epoch st).
Proof.
  assert (B : forall s b,
             logs (fun c => is_train_part_call args c = true)
                  (train_batch args epoch st s b)).
  { intros s [[ids targets] p]. unfold train_batch.
    apply logs_bind.
    { unfold set_batch_lr. destruct (is_cosine args) eqn:Cos.
      - destruct (cyclic st); [ | apply logs_raise].
        apply logs_bind; [apply logs_call; simpl; exact Cos | ]. intro lr.
        apply logs_bind; [apply logs_call; reflexivity | ]. intros _.
        apply logs_print. simpl. exact Cos.
      - unfold set_progress.
        apply logs_bind; [apply logs_call; simpl; rewrite Cos; reflexivity | ].
        intro lr. apply logs_call. reflexivity. }
    intros _. apply logs_bind.
    { unfold train_step.
      apply logs_bind; [apply logs_call; reflexivity | ]. intros _.
      apply logs_bind; [apply logs_call; reflexivity | ]. intros [pr wt].
      apply logs_bind; [apply logs_call; reflexivity | ]. intro lo.
      apply logs_bind; [apply logs_call; reflexivity | ]. intros _.
      apply logs_bind; [apply logs_call; reflexivity | ]. intros _.
      apply logs_ret. }
    intros [lo pr].
    apply logs_bind; [apply logs_call; reflexivity | ]. intros _.
    apply logs_ret. }
  unfold train_epoch.
  apply logs_bind; [apply logs_call; reflexivity | ]. intros _.
  apply logs_bind.
  { apply logs_call. simpl. apply Z.eqb_refl. }
  intro batches. apply logs_bind; [apply logs_for_each; exact B | ].
  intro tl. apply logs_bind.
  { apply logs_print_train_record. intros _. reflexivity. }
  intros _. apply update_cyclic_logs.
Qed.

Lemma evaluate_part mode :
  logs (fun c => is_evaluation_part_call args c = true)
       (evaluate (args_batch_size args) mode).
Proof.
  destruct mode; [apply logs_raise | | ]; unfold evaluate;
    (apply logs_bind; [apply logs_call; simpl; apply Z.eqb_refl | ];
     intro batches; apply logs_bind;
     [ apply logs_for_each; intros [[lo ps] ac] [[ids targets] p];
       unfold evaluate_batch;
       apply logs_bind; [apply logs_call; reflexivity | ];
       intros [pr wt];
       apply logs_bind; [apply logs_call; reflexivity | ];
       intro l0; apply logs_ret
     | intros [[lo ps] ac];
       apply logs_bind; [apply logs_np_vstack | ]; intro yt;
       apply logs_bind; [apply logs_np_vstack | ]; intro yp;
       apply logs_bind; [apply logs_call; reflexivity | ];
       intro m; apply logs_ret ]).
Qed.

Lemma evaluation_round_part epoch st :
  logs (fun c => is_evaluation_part_call args c = true)
       (evaluation_round args epoch st).
Proof.
  unfold evaluation_round.
  apply logs_bind; [apply logs_call; reflexivity | ]. intros _.
  apply logs_bind; [apply evaluate_part | ]. intros [lo vm].
  apply logs_bind; [apply evaluate_part | ]. intros [l0 tm].
  apply logs_bind; [apply logs_run_block | ]. intro st1.
  apply logs_bind; [apply logs_print_json; intros _; reflexivity | ].
  intros _. apply logs_ret.
Qed.

Lemma part_call_LoopCall (c : Call) :
  is_train_part_call args c = true \/ is_evaluation_part_call args c = true ->
  LoopCall args c.
Proof.
  destruct c as [m s n | ids t | | | p t | lo | | | lr | x | a b e | y1 y2 | o];
    simpl; try (intros; exact I).
  - destruct m, s; simpl; intros [H | H]; try discriminate H;
      apply Z.eqb_eq in H; auto.
  - intros [H | H]; [ | discriminate H].
    destruct (is_cosine args); [discriminate H | reflexivity].
  - intros [H | H]; [exact H | discriminate H].
  - destruct o; simpl; try (intros; exact I);
      intros [H | H]; try discriminate H; exact H.
Qed.

Lemma epoch_body_LoopCall epoch st :
  logs (LoopCall args) (epoch_body args epoch st).
Proof.
  unfold epoch_body. apply logs_bind.
  { eapply logs_weaken; [ | apply train_epoch_part].
    intros c H. apply part_call_LoopCall. left. exact H. }
  intro st1. apply logs_bind; [apply logs_lift | ]. intro r.
  destruct (r =? 0); [ | apply logs_ret].
  eapply logs_weaken; [ | apply evaluation_round_part].
  intros c H. apply part_call_LoopCall. right. exact H.
Qed.

Lemma epoch_loop_LoopCall (epochs : list Z) :
  forall st, logs (LoopCall args) (epoch_loop args epochs st).
Proof.
  induction epochs as [ | e rest IH]; intro st; cbn [epoch_loop].
  - apply logs_ret.
  - destruct (tolerance st >? args_tolerance args); [apply logs_ret | ].
    apply logs_bind; [apply epoch_body_LoopCall | exact IH].
Qed.

(** X5.  Whatever happens in a run, the loop iterates the training
    split shuffled and the validation and test splits in order, always
    in batches of [args.batch_size]; it asks the scheduler at a period
    position, and prints the learning rate, under the cosine schedule
    only, and asks it at the progress of the run under the other
    schedules only; and it never prints the two lines that end the
    run: [main] prints them, ["-- done --"] then the best result, only
    when the loop has returned, as its last two calls. *)
Theorem loop_calls :
  forall w,
    (forall r w1 l,
        train_loop args w = (r, w1, l) -> Forall (LoopCall args) l)
    /\ (forall r w1 l,
           main args w = (r, w1, l) ->
           exists body,
             Forall (LoopCall args) body
             /\ ((exists e, r = Err e /\ l = body)
                 \/ (exists b,
                        r = Ok tt
                        /\ l = body ++ [CallPrint PrintDone;
                                        CallPrint (PrintBest b)]))).
Proof.
  intro w. split.
  - intros r w1 l H. exact (epoch_loop_LoopCall _ _ _ _ _ _ H).
  - intros r w1 l H. unfold main in H.
    destruct (bind_inv _ _ _ _ _ _ H)
      as [(st & w2 & body & l2 & T & H2 & ->) | (e & T & ->)].
    + exists body. split; [exact (epoch_loop_LoopCall _ _ _ _ _ _ T) | ].
      right. exists (best_result st).
      unfold bind, print in H2. injection H2 as <- _ <-. auto.
    + exists l. split; [exact (epoch_loop_LoopCall _ _ _ _ _ _ T) | ].
      left. exists e. auto.
Qed.

End LoopCallsFacts.

(** X1.  Once [parse_args] has returned, [args.cuda] is
    [not args.no_cuda] and [args.batch_size] is greater than [1], and
    the training section iterates every split, for training and for
    evaluation, in batches of that size: whatever happens in the run,
    no [problem.iterate] asks for batches of one example or fewer. *)
Theorem accepted_batch_size :
  forall (C : Collaborators) prep_keys aggregator_keys ns args w r w1 l,
    parse_args prep_keys aggregator_keys ns = Ok args ->
    train_loop (C := C) (args_of args) w = (r, w1, l) ->
    ns_cuda args = Some (negb (ns_no_cuda ns))
    /\ 1 < ns_batch_size ns
    /\ Forall (fun c => match c with
                        | CallIterate _ _ n => n = ns_batch_size ns /\ 1 < n
                        | _ => True
                        end) l.
Proof.
  intros C pk ak ns args w r w1 l P H.
  destruct (parse_args_cases pk ak ns) as [(_ & _ & B & E) | (_ & E)];
    rewrite E in P; [ | discriminate P].
  injection P as <-.
  split; [reflexivity | ]. split; [exact B | ].
  pose proof (epoch_loop_LoopCall (args_of (set_cuda ns)) _ _ _ _ _ _ H)
    as F.
  refine (Forall_impl _ _ F). intros c L.
  destruct c as [m s n | ids t | | | p t | lo | | | lr | x | a b e | y1 y2 | o];
    try exact I.
  simpl in L.
  destruct m; destruct L as [_ ->]; (split; [reflexivity | exact B]).
Qed.

(** ** How the loop composes, and its edges *)

Section LoopEdges.

Context {C : Collaborators}.
Variable args : Args.

Lemma bind_ret_l {A B} (a : A) (f : A -> M B) w :
  bind (ret a) f w = f a w.
Proof.
  unfold bind, ret. destruct (f a w) as [[r w1] l]. reflexivity.
Qed.

Lemma bind_assoc {A B D} (m : M A) (f : A -> M B) (g : B -> M D) w :
  bind (bind m f) g w = bind m (fun a => bind (f a) g) w.
Proof.
  unfold bind. destruct (m w) as [[[a | e] w1] l1]; [ | reflexivity].
  destruct (f a w1) as [[[b | e] w2] l2]; [ | reflexivity].
  destruct (g b w2) as [[r w3] l3]. rewrite app_assoc. reflexivity.
Qed.

Lemma bind_ext {A B} (m : M A) (f g : A -> M B) w :
  (forall a w0, f a w0 = g a w0) -> bind m f w = bind m g w.
Proof.
  intro E. unfold bind. destruct (m w) as [[[a | e] w1] l1]; [ | reflexivity].
  rewrite E. reflexivity.
Qed.

Lemma epoch_loop_stopped (epochs : list Z) st w :
  tolerance st > args_tolerance args ->
  epoch_loop args epochs st w = (Ok st, w, []).
Proof.
  intro G. destruct epochs as [ | e rest]; [reflexivity | ].
  cbn [epoch_loop].
  destruct (Z.gtb_spec (tolerance st) (args_tolerance args));
    [reflexivity | lia].
Qed.

Lemma epoch_loop_app (es1 es2 : list Z) :
  forall st w,
    epoch_loop args (es1 ++ es2) st w
    = bind (epoch_loop args es1 st) (epoch_loop args es2) w.
Proof.
  induction es1 as [ | e rest IH]; intros st w.
  - simpl app. cbn [epoch_loop]. rewrite bind_ret_l. reflexivity.
  - simpl app. cbn [epoch_loop].
    destruct (Z.gtb_spec (tolerance st) (args_tolerance args)) as [G | G].
    + rewrite bind_ret_l. rewrite epoch_loop_stopped by lia. reflexivity.
    + rewrite bind_assoc. apply bind_ext. exact IH.
Qed.

(** X6.  The loop over two ranges of epochs is the loop over the
    first followed by the loop over the second from the state and the
    world the first left.  Once the count is over the tolerance the
    loop does nothing more, whatever epochs are left: a loop that
    stopped early gives the same result on any longer range. *)
Theorem epoch_loop_composes :
  (forall es1 es2 st w,
      epoch_loop args (es1 ++ es2) st w
      = bind (epoch_loop args es1 st) (epoch_loop args es2) w)
  /\ (forall es st w,
         tolerance st > args_tolerance args ->
         epoch_loop args es st w = (Ok st, w, []))
  /\ (forall es1 es2 st w st1 w1 l,
         epoch_loop args es1 st w = (Ok st1, w1, l) ->
         tolerance st1 > args_tolerance args ->
         epoch_loop args (es1 ++ es2) st w = (Ok st1, w1, l)).
Proof.
  split; [exact epoch_loop_app | ]. split; [exact epoch_loop_stopped | ].
  intros es1 es2 st w st1 w1 l H G.
  rewrite epoch_loop_app. unfold bind. rewrite H.
  rewrite epoch_loop_stopped by exact G. rewrite app_nil_r. reflexivity.
Qed.

Lemma range_nonpositive (n : Z) : n <= 0 -> range n = [].
Proof.
  intro H. unfold range. replace (Z.to_nat n) with O by lia. reflexivity.
Qed.

(** X7.  With [args.epochs <= 0], or with a negative [args.tolerance],
    nothing is trained or evaluated: the run makes no call of a
    collaborator and prints ["-- done --"] and [None]. *)
Theorem nothing_to_train :
  args_epochs args <= 0 \/ args_tolerance args < 0 ->
  forall w,
    main args w
    = (Ok tt, w, [CallPrint PrintDone; CallPrint (PrintBest None)]).
Proof.
  intros H w.
  assert (T : train_loop args w = (Ok (init_state args), w, [])).
  { unfold train_loop. destruct H as [H | H].
    - rewrite range_nonpositive by exact H. reflexivity.
    - apply epoch_loop_stopped. simpl. lia. }
  unfold main, bind, print. rewrite T. reflexivity.
Qed.

Lemma train_loop_first :
  1 <= args_epochs args -> 0 <= args_tolerance args ->
  forall w,
    train_loop args w
    = bind (epoch_body args 0 (init_state args))
           (epoch_loop args (tl (range (args_epochs args)))) w.
Proof.
  intros E T w. unfold train_loop, range.
  destruct (Z.to_nat (args_epochs args)) as [ | k] eqn:K; [lia | ].
  simpl seq. simpl map. simpl tl. cbn [epoch_loop].
  change (tolerance (init_state args)) with 0.
  destruct (Z.gtb_spec 0 (args_tolerance args)); [lia | reflexivity].
Qed.

Lemma LoopCall_no_best (l : list Call) :
  Forall (LoopCall args) l -> forall b, ~ In (CallPrint (PrintBest b)) l.
Proof.
  intros F b I. rewrite Forall_forall in F. exact (F _ I).
Qed.

(** X8.  With [args.log_interval = 0] no epoch completes: the
    training part of the epoch runs, and when it returns
    [epoch % args.log_interval] raises [ZeroDivisionError] before any
    evaluation.  A run with an epoch to train ends with that first
    epoch, in an exception, and prints no best result. *)
Theorem zero_log_interval :
  args_log_interval args = 0 ->
  (forall epoch st w r w1 l,
      epoch_body args epoch st w = (r, w1, l) ->
      (forall st1, r <> Ok st1)
      /\ eval_records l = []
      /\ (forall st1 w2 l1,
             train_epoch args epoch st w = (Ok st1, w2, l1) ->
             r = Err ZeroDivisionError /\ w1 = w2 /\ l = l1))
  /\ (1 <= args_epochs args -> 0 <= args_tolerance args ->
      forall w r w1 l,
        main args w = (r, w1, l) ->
        (exists e, r = Err e)
        /\ epochs_trained l = 1%nat
        /\ (forall b, ~ In (CallPrint (PrintBest b)) l)
        /\ (forall st1 w2 l1,
               train_epoch args 0 (init_state args) w = (Ok st1, w2, l1) ->
               r = Err ZeroDivisionError /\ l = l1)).
Proof.
  intro Z0.
  assert (A : forall epoch st w r w1 l,
             epoch_body args epoch st w = (r, w1, l) ->
             (forall st1, r <> Ok st1)
             /\ eval_records l = []
             /\ (forall st1 w2 l1,
                    train_epoch args epoch st w = (Ok st1, w2, l1) ->
                    r = Err ZeroDivisionError /\ w1 = w2 /\ l = l1)).
  { intros epoch st w r w1 l B.
    pose proof (epoch_body_spec _ _ _ _ _ _ _ B) as (_ & _ & S).
    assert (N : forall st1, r <> Ok st1).
    { intros st1 ->. destruct S as (_ & NZ & _). contradiction. }
    split; [exact N | ]. split.
    - destruct r as [st1 | e]; [exfalso; exact (N st1 eq_refl) | exact S].
    - intros st1 w2 l1 T. unfold epoch_body, bind in B. rewrite T in B.
      unfold lift, py_mod in B. rewrite Z0 in B. simpl in B.
      injection B as <- <- <-. rewrite app_nil_r. auto. }
  split; [exact A | ].
  intros E T w r w1 l H. unfold main in H.
  destruct (epoch_body args 0 (init_state args) w) as [[r0 w0] l0] eqn:B.
  destruct (A _ _ _ _ _ _ B) as (N & _ & Q).
  destruct r0 as [st1 | e]; [exfalso; exact (N st1 eq_refl) | ].
  assert (L : train_loop args w = (Err e, w0, l0)).
  { rewrite train_loop_first by assumption. unfold bind. rewrite B.
    reflexivity. }
  unfold bind in H. rewrite L in H. injection H as <- <- <-.
  split; [exists e; reflexivity | ].
  split; [exact (proj1 (epoch_body_spec _ _ _ _ _ _ _ B)) | ].
  split; [exact (LoopCall_no_best _ (epoch_body_LoopCall _ _ _ _ _ _ _ B)) | ].
  intros st1 w2 l1 T1. destruct (Q _ _ _ T1) as (Q1 & _ & Q2).
  injection Q1 as ->. split; [reflexivity | exact Q2].
Qed.

End LoopEdges.

(** ** The best result of a run *)

Section BestFacts.

Context {C : Collaborators}.
Variable args : Args.

Lemma BestConsistent_unchanged (a b : RunState) (rs : list EvalRecord) :
  Unchanged a b -> BestConsistent a rs -> BestConsistent b rs.
Proof.
  unfold Unchanged, BestConsistent. intros (U1 & U2 & U3 & _).
  rewrite U1, U2, U3. auto.
Qed.

Lemma BestConsistent_more (st : RunState) (rs more : list EvalRecord) :
  BestConsistent st rs -> BestConsistent st (rs ++ more).
Proof.
  unfold BestConsistent. destruct (best_result st); [ | auto].
  intros (e & lo & vm & tm & H0 & H1 & H2 & H3).
  exists e, lo, vm, tm.
  split; [exact H0 | split; [exact H1 | split; [exact H2 | ]]].
  apply in_or_app. left. exact H3.
Qed.

(** One printed round keeps the best result consistent and its
    accuracy a number. *)
Lemma update_best_consistent epoch loss vm tm st st1 rs :
  (exists text, json_dumps (snapshot epoch loss vm tm) = Ok text) ->
  BestConsistent st rs -> best_val_acc st <> S754_nan ->
  Unchanged (update_best epoch loss vm tm st) st1 ->
  BestConsistent st1 (rs ++ [(epoch, loss, vm, tm, tolerance st1)])
  /\ best_val_acc st1 <> S754_nan.
Proof.
  intros (text & D) B N U.
  destruct (update_best_cases epoch loss vm tm st) as [[I E] | [I E]];
    rewrite E in U.
  - unfold replace_best in U. rewrite D in U.
    destruct U as (U1 & U2 & U3 & U4). simpl in U1, U2, U3, U4.
    split.
    + unfold BestConsistent. rewrite U1, U4. cbv beta iota.
      exists epoch, loss, vm, tm.
      split; [exact D | ]. split; [exact U2 | ]. split; [exact U3 | ].
      apply in_or_app. right. left. reflexivity.
    + rewrite U2. apply improved_iff in I.
      destruct I as [G | [Q _]].
      * exact (proj2 (Lt_not_nan _ _ G)).
      * exact (proj1 (Eq_not_nan _ _ Q)).
  - split.
    + apply BestConsistent_more.
      apply (BestConsistent_unchanged (keep_best st)); [exact U | ].
      exact B.
    + destruct U as (_ & U2 & _). rewrite U2. exact N.
Qed.

Lemma epoch_loop_consistent (epochs : list Z) :
  forall st w st1 w1 l rs,
    BestConsistent st rs -> best_val_acc st <> S754_nan ->
    epoch_loop args epochs st w = (Ok st1, w1, l) ->
    BestConsistent st1 (rs ++ eval_records l)
    /\ best_val_acc st1 <> S754_nan.
Proof.
  induction epochs as [ | e rest IH]; intros st w st1 w1 l rs B N H.
  - simpl in H. injection H as <- <- <-. simpl. rewrite app_nil_r. auto.
  - destruct (epoch_loop_cons _ _ _ _ _ _ _ _ H)
      as [(_ & E & _ & ->)
         | (_ & [(x & _ & E) | (st2 & w2 & l1 & l2 & Y & L & ->)])].
    + injection E as <-. simpl. rewrite app_nil_r. auto.
    + discriminate E.
    + rewrite eval_records_app, app_assoc.
      destruct (epoch_body_spec _ _ _ _ _ _ _ Y)
        as (_ & _ & _ & _
            & [(_ & F & U) | (_ & loss & vm & tm & R & U & _)]).
      * rewrite (eval_records_none l1
                   (Forall_impl _ not_evaluation_call_not_record F)).
        rewrite app_nil_r.
        apply (IH st2 w2 st1 w1 l2 rs); [ | | exact L].
        -- exact (BestConsistent_unchanged _ _ _ U B).
        -- destruct U as (_ & U2 & _). rewrite U2. exact N.
      * rewrite R.
        assert (W : exists text,
                   json_dumps (snapshot e loss vm tm) = Ok text).
        { pose proof (dumped_printable _
                        (epoch_body_dumped args _ _ _ _ _ _ Y)) as P.
          rewrite R in P. apply Forall_cons_iff in P.
          exact (printable_snapshot _ _ _ _ _ (proj1 P)). }
        destruct (update_best_consistent _ _ _ _ _ _ rs W B N U)
          as (B2 & N2).
        exact (IH st2 w2 st1 w1 l2 _ B2 N2 L).
Qed.

(** X9.  When a run completes, the three variables of the best result
    agree: with no best result the best accuracy and loss are still
    [0] and [100000]; otherwise the best result is the text that
    [json.dumps] returned on the snapshot of one of the rounds the run
    printed, with a count of [0], and the best accuracy and loss are
    the accuracy and the loss of that round as they were compared,
    not as the text words them.  The best accuracy is never a NaN. *)
Theorem best_result_consistent :
  forall w st w1 l,
    train_loop args w = (Ok st, w1, l) ->
    BestConsistent st (eval_records l)
    /\ best_val_acc st <> S754_nan.
Proof.
  intros w st w1 l H. unfold train_loop in H.
  assert (B : BestConsistent (init_state args) []).
  { unfold BestConsistent. simpl. auto. }
  assert (N : best_val_acc (init_state args) <> S754_nan).
  { simpl. discriminate. }
  exact (epoch_loop_consistent _ _ _ _ _ _ [] B N H).
Qed.

Lemma NotBetter_unchanged (a b : RunState) (r : EvalRecord) :
  Unchanged a b -> NotBetter a r -> NotBetter b r.
Proof.
  destruct r as [[[[e lo] vm] tm] t]. unfold Unchanged, NotBetter.
  intros (_ & U2 & U3 & _). rewrite U2, U3. auto.
Qed.

(** A round that was not better than the best result is not better
    than the next one. *)
Lemma update_best_keeps_NotBetter epoch loss vm tm st (r : EvalRecord) :
  NotBetter st r -> NotBetter (update_best epoch loss vm tm st) r.
Proof.
  destruct r as [[[[e lo] vm0] tm0] t]. intros (N1 & N2).
  destruct (update_best_cases epoch loss vm tm st) as [[I ->] | [I ->]];
    [ | exact (conj N1 N2)].
  apply improved_iff in I. unfold NotBetter.
  destruct (replace_best_values epoch loss vm tm st) as (A1 & A2 & _).
  rewrite A1, A2.
  destruct I as [G | [Q L]].
  - split.
    + intro G0. apply N1. unfold Gt in *. exact (Lt_trans _ _ _ G G0).
    + intros Q0 _. apply N1. unfold Gt in *.
      exact (Lt_Eq _ _ _ G (Eq_sym _ _ Q0)).
  - split.
    + intro G0. apply N1. unfold Gt in *.
      exact (Eq_Lt _ _ _ (Eq_sym _ _ Q) G0).
    + intros Q0 L0. apply (N2 (Eq_trans _ _ _ Q0 Q)).
      exact (Lt_trans _ _ _ L0 L).
Qed.

(** A round is not better than the best result it leaves. *)
Lemma update_best_NotBetter epoch loss vm tm st t :
  NotBetter (update_best epoch loss vm tm st) (epoch, loss, vm, tm, t).
Proof.
  destruct (update_best_cases epoch loss vm tm st) as [[I ->] | [I ->]];
    unfold NotBetter.
  - destruct (replace_best_values epoch loss vm tm st) as (A1 & A2 & _).
    rewrite A1, A2. split.
    + exact (Lt_irrefl _).
    + intros _. exact (Lt_irrefl _).
  - simpl. apply improved_false_iff in I. unfold Improves in I. tauto.
Qed.

Lemma epoch_loop_NotBetter (epochs : list Z) :
  forall st w st1 w1 l rs,
    Forall (NotBetter st) rs ->
    epoch_loop args epochs st w = (Ok st1, w1, l) ->
    Forall (NotBetter st1) (rs ++ eval_records l).
Proof.
  induction epochs as [ | e rest IH]; intros st w st1 w1 l rs F H.
  - simpl in H. injection H as <- <- <-. simpl. rewrite app_nil_r. exact F.
  - destruct (epoch_loop_cons _ _ _ _ _ _ _ _ H)
      as [(_ & E & _ & ->)
         | (_ & [(x & _ & E) | (st2 & w2 & l1 & l2 & Y & L & ->)])].
    + injection E as <-. simpl. rewrite app_nil_r. exact F.
    + discriminate E.
    + rewrite eval_records_app, app_assoc.
      destruct (epoch_body_spec _ _ _ _ _ _ _ Y)
        as (_ & _ & _ & _
            & [(_ & N & U) | (_ & loss & vm & tm & R & U & _)]).
      * rewrite (eval_records_none l1
                   (Forall_impl _ not_evaluation_call_not_record N)).
        rewrite app_nil_r.
        apply (IH st2 w2 st1 w1 l2 rs); [ | exact L].
        exact (Forall_impl _ (fun r => NotBetter_unchanged _ _ r U) F).
      * rewrite R. apply (IH st2 w2 st1 w1 l2); [ | exact L].
        apply Forall_app. split.
        -- apply (Forall_impl _ (fun r => NotBetter_unchanged _ _ r U)).
           exact (Forall_impl _
                    (update_best_keeps_NotBetter e loss vm tm st) F).
        -- constructor; [ | constructor].
           apply (NotBetter_unchanged _ _ _ U).
           apply update_best_NotBetter.
Qed.

(** X10.  The best result of a run that completes is a best one: no
    round the run printed has an accuracy greater than the best
    accuracy, and none with an accuracy equal to it has a loss smaller
    than the best loss. *)
Theorem best_result_optimal :
  forall w st w1 l,
    train_loop args w = (Ok st, w1, l) ->
    Forall (NotBetter st) (eval_records l).
Proof.
  intros w st w1 l H. unfold train_loop in H.
  exact (epoch_loop_NotBetter _ _ _ _ _ _ [] (Forall_nil _) H).
Qed.

Lemma BestConsistent_finite (st : RunState) (rs : list EvalRecord) :
  BestConsistent st rs -> Forall finite_loss rs ->
  is_finite (best_val_loss st) = true.
Proof.
  unfold BestConsistent. destruct (best_result st) as [text | ].
  - intros (e & lo & vm & tm & _ & _ & L & I) F.
    rewrite Forall_forall in F. rewrite L. exact (F _ I).
  - intros (_ & L) _. rewrite L. vm_compute. reflexivity.
Qed.

(** X11.  A loss that is not a number never gets through.  A record
    is printed only once [json.dumps] returned on it, and
    [json.dumps] raises on a NaN and on an infinity: in every run,
    whatever happens, every evaluation record printed has a finite
    validation loss and every per-epoch record a finite training
    loss.  A round whose validation loss is not finite does not
    complete and prints no record.  So when the loop returns, the
    best loss is finite.  A NaN accuracy never improves: the check
    keeps the best result, and the best accuracy is never a NaN. *)
Theorem nan_rounds :
  (forall w r w1 l,
      train_loop args w = (r, w1, l) ->
      Forall finite_loss (eval_records l)
      /\ Forall (fun x => is_finite (snd x) = true) (train_records l))
  /\ (forall epoch st w wa loss vm wb lv r w1 l,
         model_eval w = (Ok tt, wa) ->
         evaluate (args_batch_size args) val wa = (Ok (loss, vm), wb, lv) ->
         is_finite loss = false ->
         evaluation_round args epoch st w = (r, w1, l) ->
         (exists e, r = Err e) /\ eval_records l = [])
  /\ (forall w st w1 l,
         train_loop args w = (Ok st, w1, l) ->
         is_finite (best_val_loss st) = true
         /\ best_val_acc st <> S754_nan)
  /\ (forall epoch loss vm tm st,
         accuracy vm = S754_nan ->
         improvement_check epoch loss vm tm st = (Ok tt, keep_best st)).
Proof.
  assert (A : forall w r w1 l,
             train_loop args w = (r, w1, l) ->
             Forall finite_loss (eval_records l)
             /\ Forall (fun x => is_finite (snd x) = true)
                       (train_records l)).
  { intros w r w1 l H. unfold train_loop in H.
    pose proof (epoch_loop_dumped args _ _ _ _ _ _ H) as D.
    split.
    - exact (Forall_impl _ printable_finite (dumped_printable _ D)).
    - exact (dumped_train_finite _ D). }
  split; [exact A | ]. split; [ | split].
  - intros epoch st w wa loss vm wb lv r w1 l M V NF H.
    destruct r as [st1 | e].
    + exfalso.
      destruct (evaluation_round_ok args _ _ _ _ _ _ H)
        as (wa' & loss' & vm' & wb' & lv' & lt & tm & ltest
            & M' & V' & _ & _ & P & _).
      rewrite M in M'. injection M' as <-.
      rewrite V in V'. injection V' as <- <- <- <-.
      pose proof (printable_finite _ P) as Fin. simpl in Fin.
      congruence.
    + split; [exists e; reflexivity | ].
      exact (proj2 (evaluation_round_spec args _ _ _ _ _ _ H)).
  - intros w st w1 l H.
    pose proof (proj1 (A _ _ _ _ H)) as FL.
    unfold train_loop in H.
    assert (B0 : BestConsistent (init_state args) []).
    { unfold BestConsistent. simpl. auto. }
    assert (N0 : best_val_acc (init_state args) <> S754_nan).
    { simpl. discriminate. }
    destruct (epoch_loop_consistent _ _ _ _ _ _ [] B0 N0 H) as (B & N).
    split; [ | exact N].
    exact (BestConsistent_finite _ _ B FL).
  - intros epoch loss vm tm st An. unfold improvement_check.
    assert (I : improved loss vm st = false).
    { apply improved_false_iff. intros [G | [Q _]].
      - exact (proj2 (Lt_not_nan _ _ G) An).
      - exact (proj1 (Eq_not_nan _ _ Q) An). }
    rewrite I. reflexivity.
Qed.

End BestFacts.

(** ** The epochs of a run *)

Section EpochsFacts.

Context {C : Collaborators}.
Variable args : Args.

Lemma evaluation_part_no_train_record (c : Call) :
  is_evaluation_part_call args c = true ->
  forall e x, c <> CallPrint (PrintTrain e x).
Proof. intros H e x ->. discriminate H. Qed.

Lemma epoch_body_train_records epoch st w st1 w1 l :
  epoch_body args epoch st w = (Ok st1, w1, l) ->
  exists x, train_records l = [(epoch, x)].
Proof.
  unfold epoch_body. intro H.
  apply bind_ok in H. destruct H as (st2 & w2 & l1 & l2 & T & H & ->).
  destruct (train_epoch_shape _ _ _ _ _ _ _ T)
    as (wa & batches & wb & results & _ & _ & _ & E).
  apply bind_ok in H. destruct H as (r & w3 & l3 & l4 & P & H & ->).
  unfold lift in P. injection P as _ _ <-.
  exists (fold_left add (map (fun x => item (snd x)) results) zero).
  rewrite !train_records_app.
  assert (T1 : train_records l1
               = [(epoch,
                   fold_left add (map (fun x => item (snd x)) results) zero)]).
  { rewrite E.
    change (CallModelTrain :: CallIterate train true (args_batch_size args)
            :: ?x)
      with ([CallModelTrain; CallIterate train true (args_batch_size args)]
            ++ x).
    rewrite !train_records_app, train_batch_calls_records. reflexivity. }
  rewrite T1. simpl.
  destruct (r =? 0).
  - rewrite (train_records_none l4); [reflexivity | ].
    apply (Forall_impl _ evaluation_part_no_train_record).
    exact (evaluation_round_part _ _ _ _ _ _ _ H).
  - unfold ret in H. injection H as _ _ <-. reflexivity.
Qed.

Lemma epoch_loop_epochs (epochs : list Z) :
  forall st w st1 w1 l,
    epoch_loop args epochs st w = (Ok st1, w1, l) ->
    map fst (train_records l) = firstn (epochs_trained l) epochs
    /\ map record_epoch (eval_records l)
       = filter (fun e => e mod args_log_interval args =? 0)
                (firstn (epochs_trained l) epochs)
    /\ (tolerance st1 <= args_tolerance args ->
        epochs_trained l = length epochs).
Proof.
  induction epochs as [ | e rest IH]; intros st w st1 w1 l H.
  - simpl in H. injection H as <- <- <-. simpl. auto.
  - destruct (epoch_loop_cons _ _ _ _ _ _ _ _ H)
      as [(G & E & _ & ->)
         | (_ & [(x & _ & E) | (st2 & w2 & l1 & l2 & Y & L & ->)])].
    + injection E as <-. simpl. split; [reflexivity | ].
      split; [reflexivity | ]. intro. lia.
    + discriminate E.
    + destruct (IH _ _ _ _ _ L) as (I1 & I2 & I3).
      destruct (epoch_body_train_records _ _ _ _ _ _ Y) as (x & T1).
      destruct (epoch_body_spec _ _ _ _ _ _ _ Y) as (K & _ & _ & _ & D).
      rewrite train_records_app, eval_records_app, epochs_trained_app.
      rewrite K, T1. simpl firstn. simpl app. simpl map at 1.
      rewrite I1. split; [reflexivity | ].
      split.
      * rewrite map_app, I2. simpl filter.
        destruct D as [(G & F & _) | (G & loss & vm & tm & R & _)].
        -- rewrite (eval_records_none l1
                      (Forall_impl _ not_evaluation_call_not_record F)).
           destruct (Z.eqb_spec (e mod args_log_interval args) 0);
             [contradiction | reflexivity].
        -- rewrite R. simpl.
           destruct (Z.eqb_spec (e mod args_log_interval args) 0);
             [reflexivity | contradiction].
      * intro G. rewrite (I3 G). reflexivity.
Qed.

(** X12.  A run that completes has trained the epochs [0], [1], ... in
    order, as many as it printed per-epoch records, and has evaluated
    exactly those of them with [epoch % args.log_interval == 0].  It
    has trained all the [args.epochs] epochs unless the count went over
    the tolerance; when it stopped before, the count is over the
    tolerance, by one when the tolerance is not below [-1]. *)
Theorem epochs_of_a_run :
  forall w st w1 l,
    train_loop args w = (Ok st, w1, l) ->
    map fst (train_records l)
    = firstn (epochs_trained l) (range (args_epochs args))
    /\ map record_epoch (eval_records l)
       = filter (fun e => e mod args_log_interval args =? 0)
                (firstn (epochs_trained l) (range (args_epochs args)))
    /\ (epochs_trained l <= Z.to_nat (args_epochs args))%nat
    /\ (tolerance st <= args_tolerance args ->
        epochs_trained l = Z.to_nat (args_epochs args))
    /\ ((epochs_trained l < Z.to_nat (args_epochs args))%nat ->
        tolerance st > args_tolerance args
        /\ (-1 <= args_tolerance args ->
            tolerance st = args_tolerance args + 1)).
Proof.
  intros w st w1 l H. unfold train_loop in H.
  destruct (epoch_loop_epochs _ _ _ _ _ _ H) as (E1 & E2 & E3).
  rewrite range_length in E3.
  split; [exact E1 | ]. split; [exact E2 | ].
  split.
  { rewrite <- range_length. exact (epoch_loop_epochs_trained _ _ _ _ _ _ _ H). }
  split; [exact E3 | ].
  intro K.
  assert (G : tolerance st > args_tolerance args).
  { destruct (Z_gt_le_dec (tolerance st) (args_tolerance args)) as [G | G];
      [exact G | ].
    specialize (E3 G). lia. }
  split; [exact G | ]. intro T.
  destruct (epoch_loop_rounds args _ (init_state args) O _ _ _ _ eq_refl H)
    as (B & Q).
  specialize (Q st eq_refl). simpl in B. lia.
Qed.

End EpochsFacts.

(** ** When [evaluate] raises *)

Section EvaluateFailures.

Context {C : Collaborators}.

Lemma Mode_eq_train (mode : Mode) : mode = train \/ mode <> train.
Proof. destruct mode; [left; reflexivity | | ]; right; discriminate. Qed.

Lemma evaluate_unfold batch_size mode :
  mode <> train ->
  evaluate batch_size mode
  = bind (call (CallIterate mode false batch_size)
               (problem_iterate mode false batch_size))
      (fun batches =>
         bind (for_each evaluate_batch batches (zero, [], []))
           (fun x => let '(loss, preds, acts) := x in
              bind (np_vstack acts) (fun y_true =>
              bind (np_vstack preds) (fun y_pred =>
              bind (call (CallMetricFn y_true y_pred)
                         (problem_metric_fn y_true y_pred))
                (fun metric => ret (loss, metric)))))).
Proof. destruct mode; [contradiction | | ]; reflexivity. Qed.

Lemma evaluate_loop_no_metric (batches : list Batch) acc :
  logs (fun c => forall a p, c <> CallMetricFn a p)
       (for_each evaluate_batch batches acc).
Proof.
  apply logs_for_each. intros [[lo ps] ac] [[ids targets] p].
  unfold evaluate_batch.
  apply logs_bind; [apply logs_call; discriminate | ]. intros [pr wt].
  apply logs_bind; [apply logs_call; discriminate | ]. intro l0.
  apply logs_ret.
Qed.

Lemma no_metric_not_in (l : list Call) :
  Forall (fun c => forall a p, c <> CallMetricFn a p) l ->
  forall a p, ~ In (CallMetricFn a p) l.
Proof.
  intros F a p I. rewrite Forall_forall in F. exact (F _ I a p eq_refl).
Qed.

(** X13.  When [evaluate] raises: for the mode [train] it is the
    assertion, before any call; for the other modes the iteration of
    the split was asked first, and [problem.metric_fn] was called only
    if it is the call that raised, as the last call: no metric is
    computed once a batch has failed. *)
Theorem evaluate_failures :
  forall batch_size mode w e w1 l,
    evaluate batch_size mode w = (Err e, w1, l) ->
    (mode = train -> e = AssertionError /\ w1 = w /\ l = [])
    /\ (mode <> train ->
        exists rest, l = CallIterate mode false batch_size :: rest)
    /\ (forall a p,
           In (CallMetricFn a p) l ->
           exists w0 before,
             problem_metric_fn a p w0 = (Err e, w1)
             /\ l = before ++ [CallMetricFn a p]
             /\ forall a0 p0, ~ In (CallMetricFn a0 p0) before).
Proof.
  intros batch_size mode w e w1 l H.
  destruct (Mode_eq_train mode) as [-> | N].
  { injection H as <- <- <-.
    split; [auto | ]. split; [intro N; contradiction | ].
    intros a p []. }
  split; [intro E; contradiction | ].
  rewrite (evaluate_unfold batch_size mode N) in H.
  destruct (bind_inv _ _ _ _ _ _ H)
    as [(batches & w2 & l1 & l2 & H1 & H2 & ->) | (e0 & H1 & _)];
    apply call_inv in H1; destruct H1 as [_ ->]; clear H.
  2:{ split; [eexists; reflexivity | ].
      intros a p [I | []]. discriminate I. }
  split; [eexists; reflexivity | ].
  destruct (bind_inv _ _ _ _ _ _ H2)
    as [([[lo ps] ac] & w3 & l3 & l4 & L & H3 & ->) | (e0 & L & _)];
    pose proof (no_metric_not_in _ (evaluate_loop_no_metric _ _ _ _ _ _ L))
      as NM; clear H2.
  2:{ intros a p [I | I]; [discriminate I | exact (False_ind _ (NM a p I))]. }
  assert (V : forall xs : list Array,
             (np_vstack xs w3 = (Err ValueError, w3, []))
             \/ (np_vstack xs w3 = (Ok (concat xs), w3, []))).
  { intros [ | x xs]; [left | right]; reflexivity. }
  unfold bind at 1 in H3.
  destruct (V ac) as [V1 | V1]; rewrite V1 in H3.
  { injection H3 as _ _ <-. rewrite app_nil_r.
    intros a p [I | I]; [discriminate I | exact (False_ind _ (NM a p I))]. }
  unfold bind at 1 in H3.
  destruct (V ps) as [V2 | V2]; rewrite V2 in H3.
  { injection H3 as _ _ <-. simpl. rewrite app_nil_r.
    intros a p [I | I]; [discriminate I | exact (False_ind _ (NM a p I))]. }
  unfold bind, call, ret in H3.
  destruct (problem_metric_fn (concat ac) (concat ps) w3)
    as [[m | e1] w4] eqn:Q; [discriminate H3 | ].
  injection H3 as <- <- <-.
  intros a p I. simpl in I.
  destruct I as [I | I]; [discriminate I | ].
  apply in_app_or in I. destruct I as [I | [I | []]];
    [exact (False_ind _ (NM a p I)) | ].
  injection I as <- <-.
  exists w3, (CallIterate mode false batch_size :: l3).
  split; [exact Q | ]. split; [reflexivity | ].
  intros a0 p0 [I | I]; [discriminate I | exact (NM a0 p0 I)].
Qed.

End EvaluateFailures.

(** ** The counts a run prints *)

Section CountsFacts.

Context {C : Collaborators}.
Variable args : Args.

Lemma running_counts_unchanged (rs : list EvalRecord) :
  forall a b n,
    Unchanged a b -> running_counts rs b n = running_counts rs a n.
Proof.
  induction rs as [ | r rs IH]; intros a b n U; [reflexivity | ].
  simpl. destruct (apply_round_unchanged r a b U) as (U1 & ->).
  rewrite (IH _ _ _ U1). reflexivity.
Qed.

Lemma epoch_loop_counts (epochs : list Z) :
  forall st n w r w1 l,
    tolerance st = Z.of_nat n ->
    epoch_loop args epochs st w = (r, w1, l) ->
    map record_count (eval_records l)
    = running_counts (eval_records l) st n
    /\ Forall (fun x => 0 <= record_count x <= args_tolerance args + 1)
              (eval_records l).
Proof.
  induction epochs as [ | e rest IH]; intros st n w r w1 l T H.
  - simpl in H. injection H as <- <- <-. simpl. auto.
  - destruct (epoch_loop_cons _ _ _ _ _ _ _ _ H)
      as [(_ & _ & _ & ->)
         | (G & [(x & B & _) | (st2 & w2 & l1 & l2 & B & L & ->)])].
    + simpl. auto.
    + pose proof (epoch_body_spec _ _ _ _ _ _ _ B) as (_ & _ & R).
      simpl in R. rewrite R. simpl. auto.
    + rewrite eval_records_app.
      destruct (epoch_body_spec _ _ _ _ _ _ _ B)
        as (_ & _ & _ & _
            & [(_ & F & U) | (_ & loss & vm & tm & R & U & _)]).
      * rewrite (eval_records_none l1
                   (Forall_impl _ not_evaluation_call_not_record F)).
        simpl app.
        rewrite <- (running_counts_unchanged _ st st2 n U).
        apply (IH st2 n w2 r w1 l2); [ | exact L].
        destruct U as (_ & _ & _ & ->). exact T.
      * rewrite R. simpl app. simpl map. simpl running_counts.
        set (n1 := if improved loss vm st then O else S n).
        assert (T2 : tolerance st2 = Z.of_nat n1).
        { destruct U as (_ & _ & _ & ->). rewrite update_best_tolerance.
          unfold n1. destruct (improved loss vm st); [reflexivity | ].
          rewrite T. lia. }
        rewrite <- (running_counts_unchanged _ _ st2 n1 U).
        destruct (IH st2 n1 w2 r w1 l2 T2 L) as (I1 & I2).
        rewrite I1, T2. split; [reflexivity | ].
        constructor; [ | exact I2].
        simpl.
        assert (n1 <= S n)%nat
          by (unfold n1; destruct (improved loss vm st); lia).
        lia.
Qed.

(** X14.  In every run, the count printed with an evaluation round is
    the number of rounds since the last one that improved, that round
    included, and [0] for a round that improved; it is never negative
    and never more than [args.tolerance + 1]. *)
Theorem printed_counts :
  forall w r w1 l,
    train_loop args w = (r, w1, l) ->
    map record_count (eval_records l)
    = running_counts (eval_records l) (init_state args) 0
    /\ Forall (fun x => 0 <= record_count x <= args_tolerance args + 1)
              (eval_records l).
Proof.
  intros w r w1 l H. unfold train_loop in H.
  exact (epoch_loop_counts _ (init_state args) O _ _ _ _ eq_refl H).
Qed.

End CountsFacts.

(** ** The further properties at work *)

Lemma schemes_of_known_problems_witness :
  (exists schemes,
      schemes_of yelp_namespace = Some schemes
      /\ (2 <= length schemes <= 3)%nat)
  /\ schemes_of (set_cuda yelp_namespace) = schemes_of yelp_namespace.
Proof.
  destruct schemes_of_known_problems as (A & _ & B & _).
  split.
  - apply (proj2 (A yelp_namespace)). simpl. auto.
  - apply (B ["node_embedding"%string] ["attention2"%string]).
    reflexivity.
Defined.

Lemma accepted_batch_size_witness :
  Forall (fun c => match c with
                   | CallIterate _ _ n => n = 16 /\ 1 < n
                   | _ => True
                   end)
    (snd (train_loop (C := scripted scenario_script)
            (args_of (set_cuda yelp_namespace)) O)).
Proof.
  destruct (train_loop (C := scripted scenario_script)
              (args_of (set_cuda yelp_namespace)) O) as [[r w1] l] eqn:E.
  exact (proj2 (proj2 (accepted_batch_size (scripted scenario_script)
                         ["node_embedding"%string] ["attention2"%string]
                         yelp_namespace (set_cuda yelp_namespace)
                         O r w1 l eq_refl E))).
Defined.

Lemma train_epoch_protocol_witness :
  optimizer_steps
    (snd (train_epoch (C := scripted scenario_script) scenario_args 0
            (init_state scenario_args) O)) = 1%nat
  /\ exists x,
       train_records
         (snd (train_epoch (C := scripted scenario_script) scenario_args 0
                 (init_state scenario_args) O))
       = [(0, x)].
Proof.
  assert (Returns :
            match train_epoch (C := scripted scenario_script) scenario_args 0
              (init_state scenario_args) O with
            | (Ok _, _, _) => True
            | _ => False
            end) by (vm_compute; exact I).
  destruct (train_epoch (C := scripted scenario_script) scenario_args 0
              (init_state scenario_args) O) as [[[st1 | e] w1] l] eqn:E.
  - destruct (train_epoch_protocol (C := scripted scenario_script)
                scenario_args 0 (init_state scenario_args) O st1 w1 l E)
      as (wa & batches & wb & results & _ & I & _ & _ & S & R & _).
    injection I as <- _.
    split; [exact S | ].
    eexists. exact R.
  - exfalso. exact Returns.
Defined.

Lemma loop_calls_witness :
  Forall (LoopCall (C := scripted scenario_script) scenario_args)
    (snd (train_loop (C := scripted scenario_script) scenario_args O)).
Proof.
  destruct (train_loop (C := scripted scenario_script) scenario_args O)
    as [[r w1] l] eqn:E.
  exact (proj1 (loop_calls (C := scripted scenario_script) scenario_args O)
           r w1 l E).
Defined.

Lemma epoch_loop_composes_witness :
  epoch_loop (C := scripted scenario_script) scenario_args
    (range 5 ++ [5; 6; 7]) (init_state scenario_args) O
  = epoch_loop (C := scripted scenario_script) scenario_args
      (range 5) (init_state scenario_args) O.
Proof.
  assert (G : match fst (fst (epoch_loop (C := scripted scenario_script)
                                scenario_args (range 5)
                                (init_state scenario_args) O)) with
              | Ok st1 => tolerance st1 > args_tolerance scenario_args
              | Err _ => False
              end).
  { vm_compute. reflexivity. }
  destruct (epoch_loop (C := scripted scenario_script) scenario_args
              (range 5) (init_state scenario_args) O)
    as [[[st1 | e] w1] l] eqn:E; simpl in G; [ | contradiction].
  exact (proj2 (proj2 (epoch_loop_composes
                         (C := scripted scenario_script) scenario_args))
           (range 5) [5; 6; 7] (init_state scenario_args) O st1 w1 l E G).
Defined.

Lemma nothing_to_train_witness :
  main (C := scripted scenario_script) no_epoch_args O
  = (Ok tt, O, [CallPrint PrintDone; CallPrint (PrintBest None)]).
Proof.
  apply (nothing_to_train (C := scripted scenario_script) no_epoch_args).
  left. simpl. lia.
Defined.

Lemma zero_log_interval_witness :
  fst (fst (main (C := scripted scenario_script) zero_interval_args O))
  = Err ZeroDivisionError
  /\ epochs_trained
       (snd (main (C := scripted scenario_script) zero_interval_args O))
     = 1%nat.
Proof.
  destruct (main (C := scripted scenario_script) zero_interval_args O)
    as [[r w1] l] eqn:E.
  assert (P : 1 <= args_epochs zero_interval_args) by (simpl; lia).
  assert (T : 0 <= args_tolerance zero_interval_args) by (simpl; lia).
  destruct (proj2 (zero_log_interval (C := scripted scenario_script)
                     zero_interval_args eq_refl) P T O r w1 l E)
    as (_ & K & _ & Q).
  split; [ | exact K].
  assert (Returns :
            match train_epoch (C := scripted scenario_script)
              zero_interval_args 0 (init_state zero_interval_args) O with
            | (Ok _, _, _) => True
            | _ => False
            end) by (vm_compute; exact I).
  destruct (train_epoch (C := scripted scenario_script) zero_interval_args 0
              (init_state zero_interval_args) O)
    as [[[st1 | e] w2] l1] eqn:TE.
  - exact (proj1 (Q st1 w2 l1 eq_refl)).
  - exfalso. exact Returns.
Defined.

Lemma best_result_consistent_witness :
  match train_loop (C := scripted scenario_script) scenario_args O with
  | (Ok st, _, l) => BestConsistent st (eval_records l)
  | _ => False
  end.
Proof.
  assert (Returns :
            match train_loop (C := scripted scenario_script) scenario_args O
              with
            | (Ok _, _, _) => True
            | _ => False
            end) by (vm_compute; exact I).
  destruct (train_loop (C := scripted scenario_script) scenario_args O)
    as [[[st | e] w1] l] eqn:E.
  - exact (proj1 (best_result_consistent (C := scripted scenario_script)
                    scenario_args O st w1 l E)).
  - exfalso. exact Returns.
Defined.

Lemma best_result_optimal_witness :
  match train_loop (C := scripted scenario_script) scenario_args O with
  | (Ok st, _, l) => Forall (NotBetter st) (eval_records l)
  | _ => False
  end.
Proof.
  assert (Returns :
            match train_loop (C := scripted scenario_script) scenario_args O
              with
            | (Ok _, _, _) => True
            | _ => False
            end) by (vm_compute; exact I).
  destruct (train_loop (C := scripted scenario_script) scenario_args O)
    as [[[st | e] w1] l] eqn:E.
  - exact (best_result_optimal (C := scripted scenario_script)
             scenario_args O st w1 l E).
  - exfalso. exact Returns.
Defined.

Lemma nan_rounds_witness :
  fst (fst (train_loop (C := scripted nan_script) scenario_args O))
  = Err OverflowError
  /\ length (eval_records
               (snd (train_loop (C := scripted nan_script) scenario_args O)))
     = 1%nat
  /\ Forall (finite_loss (C := scripted nan_script))
       (eval_records
          (snd (train_loop (C := scripted nan_script) scenario_args O))).
Proof.
  split; [vm_compute; reflexivity | ].
  split; [vm_compute; reflexivity | ].
  destruct (train_loop (C := scripted nan_script) scenario_args O)
    as [[r w1] l] eqn:E.
  exact (proj1 (proj1 (nan_rounds (C := scripted nan_script) scenario_args)
                  O r w1 l E)).
Defined.

Lemma epochs_of_a_run_witness :
  match train_loop (C := scripted scenario_script) scenario_args O with
  | (Ok st, _, l) =>
      map fst (train_records l) = [0; 1; 2; 3]
      /\ map record_epoch (eval_records l) = [0; 1; 2; 3]
      /\ tolerance st = 2
  | _ => False
  end.
Proof.
  assert (K : epochs_trained
                (snd (train_loop (C := scripted scenario_script)
                        scenario_args O)) = 4%nat).
  { vm_compute. reflexivity. }
  assert (Returns :
            match train_loop (C := scripted scenario_script) scenario_args O
              with
            | (Ok _, _, _) => True
            | _ => False
            end) by (vm_compute; exact I).
  destruct (train_loop (C := scripted scenario_script) scenario_args O)
    as [[[st | e] w1] l] eqn:E; simpl in K.
  - destruct (epochs_of_a_run (C := scripted scenario_script)
                scenario_args O st w1 l E) as (A & B & _ & _ & D).
    rewrite K in A, B, D.
    split; [exact A | ]. split; [exact B | ].
    apply (proj2 (D ltac:(simpl; lia))). simpl. lia.
  - exfalso. exact Returns.
Defined.

Lemma evaluate_failures_witness :
  exists before,
    snd (evaluate (C := scripted_no_metric) 4 val O)
    = before ++ [CallMetricFn (C := scripted_no_metric) [tt] [tt]]
    /\ forall a p, ~ In (CallMetricFn a p) before.
Proof.
  assert (Raises : match evaluate (C := scripted_no_metric) 4 val O with
                   | (Ok _, _, _) => False
                   | _ => True
                   end) by (vm_compute; exact I).
  destruct (evaluate (C := scripted_no_metric) 4 val O)
    as [[[x | e] w1] l] eqn:E.
  - exfalso. exact Raises.
  - destruct (proj2 (proj2 (evaluate_failures (C := scripted_no_metric)
                              4 val O e w1 l E)) [tt] [tt])
      as (w0 & before & _ & L & N).
    + vm_compute in E. injection E as _ _ <-.
      repeat first [left; reflexivity | right].
    + exists before. split; [exact L | exact N].
Defined.

Lemma printed_counts_witness :
  map record_count
    (eval_records (snd (train_loop (C := scripted scenario_script)
                          scenario_args O)))
  = [0; 0; 1; 2].
Proof.
  assert (K : running_counts
                (eval_records
                   (snd (train_loop (C := scripted scenario_script)
                           scenario_args O)))
                (init_state scenario_args) 0
              = [0; 0; 1; 2]).
  { vm_compute. reflexivity. }
  destruct (train_loop (C := scripted scenario_script) scenario_args O)
    as [[r w1] l] eqn:E; simpl in K; simpl snd.
  rewrite (proj1 (printed_counts (C := scripted scenario_script)
                    scenario_args O r w1 l E)).
  exact K.
Defined.

(** ** The configuration of the model *)

Lemma split_on_nonempty (sep : Ascii.ascii) (s : string) :
  split_on sep s <> [].
Proof.
  destruct s as [ | c rest]; simpl; [discriminate | ].
  destruct (Ascii.eqb c sep); [discriminate | ].
  destruct (split_on sep rest); discriminate.
Qed.

Lemma dict_get_keys {V} (d : list (string * V)) (key : string) :
  In key (map fst d) <-> exists v, dict_get d key = Some v.
Proof.
  induction d as [ | [k v] rest IH]; simpl.
  - split; [intros [] | intros (v & D); discriminate D].
  - destruct (String.eqb_spec key k) as [-> | N].
    + split; [intros _; exists v; reflexivity | intros _; left; reflexivity].
    + rewrite <- IH. split; [intros [E | I] | intro I].
      * congruence.
      * exact I.
      * right. exact I.
Qed.

Section ModelConfigurationFacts.

Variable Cls : Type.
Variable py_int : string -> option Z.

Lemma int_list_cases (xs : list string) :
  (Forall (fun x => py_int x <> None) xs
   /\ exists zs, int_list py_int xs = inr zs
                 /\ map py_int xs = map Some zs)
  \/ (~ Forall (fun x => py_int x <> None) xs
      /\ int_list py_int xs = inl IntValueError).
Proof.
  induction xs as [ | x rest IH]; simpl.
  - left. split; [constructor | ]. exists []. split; reflexivity.
  - destruct (py_int x) as [z | ] eqn:P.
    + destruct IH as [(F & zs & I & M) | (F & I)]; rewrite I.
      * left. split.
        -- constructor; [congruence | exact F].
        -- exists (z :: zs). split; [reflexivity | ].
           simpl. rewrite M. reflexivity.
      * right. split; [ | reflexivity].
        intro G. apply F. inversion G. assumption.
    + right. split; [ | reflexivity].
      intro G. inversion G. congruence.
Qed.

Lemma lookup_cases (table : list (string * Cls)) (key : string) :
  (In key (keys table) /\ exists c, lookup table key = inr c
                                    /\ dict_get table key = Some c)
  \/ (~ In key (keys table) /\ lookup table key = inl KeyError).
Proof.
  unfold lookup, keys.
  destruct (dict_get table key) as [c | ] eqn:D.
  - left. split.
    + apply dict_get_keys. exists c. exact D.
    + exists c. split; reflexivity.
  - right. split; [ | reflexivity].
    intro I. apply dict_get_keys in I. destruct I as (v & G). congruence.
Qed.

(** The integers of a comma-separated string: there is a first one. *)
Lemma int_list_split (s : string) (zs : list Z) :
  int_list py_int (split_on comma s) = inr zs ->
  exists z rest,
    zs = z :: rest
    /\ py_int (hd EmptyString (split_on comma s)) = Some z.
Proof.
  intro I.
  destruct (int_list_cases (split_on comma s)) as [(_ & zs' & I' & M) | (_ & I')];
    [ | congruence].
  assert (zs' = zs) by congruence. subst zs'.
  pose proof (split_on_nonempty comma s) as N.
  destruct (split_on comma s) as [ | x xs]; [congruence | ].
  destruct zs as [ | z rest]; [discriminate M | ].
  exists z, rest. split; [reflexivity | ].
  simpl in M |- *. congruence.
Qed.

Lemma model_config_cases (tables : Lookups Cls) (ns : Namespace)
                         (schemes : list string) :
  In (ns_prep_class ns) (keys (prep_lookup tables)) ->
  In (ns_aggregator_class ns) (keys (aggregator_lookup tables)) ->
  (* a component of one of the three lists is no integer *)
  (~ (all_ints py_int (ns_n_train_samples ns)
      /\ all_ints py_int (ns_n_val_samples ns)
      /\ all_ints py_int (ns_output_dims ns))
   /\ model_config py_int tables ns schemes = inl IntValueError)
  (* a class is no key of its table *)
  \/ (all_ints py_int (ns_n_train_samples ns)
      /\ all_ints py_int (ns_n_val_samples ns)
      /\ all_ints py_int (ns_output_dims ns)
      /\ ~ (In (ns_sampler_class ns) (keys (sampler_lookup tables))
            /\ In (ns_mpaggr_class ns)
                 (keys (metapath_aggregator_lookup tables))
            /\ In (ns_edgeupt_class ns)
                 (keys (edge_aggregator_lookup tables)))
      /\ model_config py_int tables ns schemes = inl KeyError)
  (* the model is configured *)
  \/ (all_ints py_int (ns_n_train_samples ns)
      /\ all_ints py_int (ns_n_val_samples ns)
      /\ all_ints py_int (ns_output_dims ns)
      /\ In (ns_sampler_class ns) (keys (sampler_lookup tables))
      /\ In (ns_mpaggr_class ns) (keys (metapath_aggregator_lookup tables))
      /\ In (ns_edgeupt_class ns) (keys (edge_aggregator_lookup tables))
      /\ exists sampler prep aggregator mpaggr edgeupt n_train n_val output_dim,
          dict_get (sampler_lookup tables) (ns_sampler_class ns)
          = Some sampler
          /\ dict_get (prep_lookup tables) (ns_prep_class ns) = Some prep
          /\ dict_get (aggregator_lookup tables) (ns_aggregator_class ns)
             = Some aggregator
          /\ dict_get (metapath_aggregator_lookup tables) (ns_mpaggr_class ns)
             = Some mpaggr
          /\ dict_get (edge_aggregator_lookup tables) (ns_edgeupt_class ns)
             = Some edgeupt
          /\ py_int (hd EmptyString (split_on comma (ns_n_train_samples ns)))
             = Some n_train
          /\ py_int (hd EmptyString (split_on comma (ns_n_val_samples ns)))
             = Some n_val
          /\ py_int (hd EmptyString (split_on comma (ns_output_dims ns)))
             = Some output_dim
          /\ model_config py_int tables ns schemes
             = inr {| mc_n_mp := length schemes;
                      mc_sampler_class := sampler;
                      mc_prep_class := prep;
                      mc_prep_len := ns_prep_len ns;
                      mc_aggregator_class := aggregator;
                      mc_mpaggr_class := mpaggr;
                      mc_edgeupt_class := edgeupt;
                      mc_n_head := ns_n_head ns;
                      mc_layer_specs :=
                        [ {| ls_n_train_samples := n_train;
                             ls_n_val_samples := n_val;
                             ls_output_dim := output_dim;
                             ls_concat_node := ns_concat_node ns;
                             ls_concat_edge := ns_concat_edge ns |} ];
                      mc_dropout := ns_dropout ns;
                      mc_batchnorm := ns_batchnorm ns;
                      mc_attn_dropout := ns_attn_dropout ns |}).
Proof.
  intros Pk Ak. unfold model_config, all_ints.
  destruct (int_list_cases (split_on comma (ns_n_train_samples ns)))
    as [(F1 & z1 & I1 & _) | (F1 & I1)]; rewrite I1; simpl;
    [ | left; split; [tauto | reflexivity]].
  destruct (int_list_cases (split_on comma (ns_n_val_samples ns)))
    as [(F2 & z2 & I2 & _) | (F2 & I2)]; rewrite I2; simpl;
    [ | left; split; [tauto | reflexivity]].
  destruct (int_list_cases (split_on comma (ns_output_dims ns)))
    as [(F3 & z3 & I3 & _) | (F3 & I3)]; rewrite I3; simpl;
    [ | left; split; [tauto | reflexivity]].
  right.
  destruct (lookup_cases (sampler_lookup tables) (ns_sampler_class ns))
    as [(K1 & c1 & L1 & D1) | (K1 & L1)]; rewrite L1; simpl;
    [ | left; repeat split; try assumption; tauto].
  destruct (lookup_cases (prep_lookup tables) (ns_prep_class ns))
    as [(K2 & c2 & L2 & D2) | (K2 & L2)]; [ | contradiction].
  rewrite L2; simpl.
  destruct (lookup_cases (aggregator_lookup tables) (ns_aggregator_class ns))
    as [(K3 & c3 & L3 & D3) | (K3 & L3)]; [ | contradiction].
  rewrite L3; simpl.
  destruct (lookup_cases (metapath_aggregator_lookup tables)
              (ns_mpaggr_class ns))
    as [(K4 & c4 & L4 & D4) | (K4 & L4)]; rewrite L4; simpl;
    [ | left; repeat split; try assumption; tauto].
  destruct (lookup_cases (edge_aggregator_lookup tables)
              (ns_edgeupt_class ns))
    as [(K5 & c5 & L5 & D5) | (K5 & L5)]; rewrite L5; simpl;
    [ | left; repeat split; try assumption; tauto].
  right.
  destruct (int_list_split _ _ I1) as (a & r1 & -> & P1).
  destruct (int_list_split _ _ I2) as (b & r2 & -> & P2).
  destruct (int_list_split _ _ I3) as (c & r3 & -> & P3).
  simpl.
  repeat (split; [assumption | ]).
  exists c1, c2, c3, c4, c5, a, b, c.
  repeat (split; [assumption | ]). reflexivity.
Qed.

End ModelConfigurationFacts.

(** X15.  Once [parse_args] has returned, the lines that configure the
    model end in one of three ways.  They raise [ValueError] exactly
    when some comma-separated part of [n_train_samples],
    [n_val_samples] or [output_dims] is no integer, also a part after
    the first, though only the first of each is used.  Otherwise they
    raise [KeyError] exactly when the sampler, metapath aggregator or
    edge aggregator class is no key of its table: [parse_args] checked
    the prep and aggregator classes only, and those two lookups cannot
    miss.  Otherwise the model gets one layer, made of the first
    integer of each list, and [n_mp] is the number of schemes.  [[0]]
    never raises [IndexError], since [split] returns no empty list. *)
Theorem model_config_after_parse_args :
  forall (Cls : Type) (py_int : string -> option Z)
         (tables : Lookups Cls) (ns args : Namespace)
         (schemes : list string),
    parse_args (keys (prep_lookup tables)) (keys (aggregator_lookup tables))
      ns = Ok args ->
    let ints :=
      all_ints py_int (ns_n_train_samples args)
      /\ all_ints py_int (ns_n_val_samples args)
      /\ all_ints py_int (ns_output_dims args) in
    let classes :=
      In (ns_sampler_class args) (keys (sampler_lookup tables))
      /\ In (ns_mpaggr_class args) (keys (metapath_aggregator_lookup tables))
      /\ In (ns_edgeupt_class args) (keys (edge_aggregator_lookup tables)) in
    (model_config py_int tables args schemes = inl IntValueError <-> ~ ints)
    /\ (model_config py_int tables args schemes = inl KeyError
        <-> ints /\ ~ classes)
    /\ model_config py_int tables args schemes <> inl IndexError
    /\ ((exists cfg, model_config py_int tables args schemes = inr cfg)
        <-> ints /\ classes)
    /\ (forall cfg,
           model_config py_int tables args schemes = inr cfg ->
           mc_n_mp cfg = length schemes
           /\ dict_get (prep_lookup tables) (ns_prep_class ns)
              = Some (mc_prep_class cfg)
           /\ dict_get (aggregator_lookup tables) (ns_aggregator_class ns)
              = Some (mc_aggregator_class cfg)
           /\ exists n_train n_val output_dim,
               py_int (hd EmptyString
                         (split_on comma (ns_n_train_samples ns)))
               = Some n_train
               /\ py_int (hd EmptyString
                            (split_on comma (ns_n_val_samples ns)))
                  = Some n_val
               /\ py_int (hd EmptyString
                            (split_on comma (ns_output_dims ns)))
                  = Some output_dim
               /\ mc_layer_specs cfg
                  = [ {| ls_n_train_samples := n_train;
                         ls_n_val_samples := n_val;
                         ls_output_dim := output_dim;
                         ls_concat_node := ns_concat_node ns;
                         ls_concat_edge := ns_concat_edge ns |} ]).
Proof.
  intros Cls py_int tables ns args schemes PA ints classes.
  destruct (parse_args_cases (keys (prep_lookup tables))
              (keys (aggregator_lookup tables)) ns)
    as [(Pk & Ak & _ & E) | (_ & E)]; [ | congruence].
  assert (args = set_cuda ns) by congruence. subst args.
  subst ints classes. cbn [set_cuda ns_n_train_samples ns_n_val_samples
    ns_output_dims ns_sampler_class ns_mpaggr_class ns_edgeupt_class].
  destruct (model_config_cases Cls py_int tables (set_cuda ns) schemes Pk Ak)
    as [(N & R) | [(F1 & F2 & F3 & N & R)
                  | (F1 & F2 & F3 & K1 & K4 & K5 & c1 & c2 & c3 & c4 & c5
                     & a & b & c & D1 & D2 & D3 & D4 & D5 & P1 & P2 & P3
                     & R)]];
    cbn [set_cuda ns_n_train_samples ns_n_val_samples
      ns_output_dims ns_sampler_class ns_mpaggr_class ns_edgeupt_class
      ns_prep_class ns_aggregator_class ns_concat_node ns_concat_edge] in *;
    rewrite R.
  - split; [tauto | ].
    split; [split; [discriminate | tauto] | ].
    split; [discriminate | ].
    split; [split; [intros (cfg & Q); discriminate Q | tauto] | ].
    intros cfg Q. discriminate Q.
  - split; [split; [discriminate | tauto] | ].
    split; [tauto | ].
    split; [discriminate | ].
    split; [split; [intros (cfg & Q); discriminate Q | tauto] | ].
    intros cfg Q. discriminate Q.
  - split; [split; [discriminate | tauto] | ].
    split; [split; [discriminate | tauto] | ].
    split; [discriminate | ].
    split; [split; [tauto | intros _; eexists; reflexivity] | ].
    intros cfg Q. injection Q as <-. simpl.
    split; [reflexivity | ].
    split; [exact D2 | ].
    split; [exact D3 | ].
    exists a, b, c. auto.
Qed.

Lemma model_config_after_parse_args_witness :
  exists cfg,
    model_config scripted_int scripted_tables (set_cuda yelp_namespace)
      ["BRURB"; "BRKRB"]%string = inr cfg
    /\ mc_n_mp cfg = 2%nat
    /\ exists n_train n_val output_dim,
        mc_layer_specs cfg
        = [ {| ls_n_train_samples := n_train;
               ls_n_val_samples := n_val;
               ls_output_dim := output_dim;
               ls_concat_node := false;
               ls_concat_edge := false |} ].
Proof.
  assert (PA : parse_args (keys (prep_lookup scripted_tables))
                 (keys (aggregator_lookup scripted_tables)) yelp_namespace
               = Ok (set_cuda yelp_namespace)) by reflexivity.
  destruct (model_config_after_parse_args string scripted_int scripted_tables
              yelp_namespace (set_cuda yelp_namespace)
              ["BRURB"; "BRKRB"]%string PA)
    as (_ & _ & _ & S & T).
  destruct (proj2 S) as (cfg & Q).
  - unfold all_ints. repeat split;
      first [ repeat constructor; discriminate
            | vm_compute; tauto ].
  - exists cfg. split; [exact Q | ].
    destruct (T cfg Q) as (N & _ & _ & a & b & c & _ & _ & _ & L).
    split; [exact N | ]. exists a, b, c. exact L.
Defined.
